(** * KrushiMitra backend: context store, weather cache and e-mail OTP

    A shallow embedding of three pieces of the backend, followed by the
    properties proved about them.

    - [UserContext]: the per-user context store of [user-context.js]
      ([normalizeObjectId], [sanitizeProfile], [sanitizeLocation],
      [sanitizeWeather], [ensureUserContext], [updateLocationAndWeather],
      [appendChatMessage], [fetchUserContext]), in the version that looks a
      document up before it creates it; [UserContextUpsert] holds the
      [ensureUserContext] of the other version, which upserts.
    - [Weather]: the [GET /weather] handler of [server.js] with its
      ten-minute cache.
    - [Otp]: the [POST /auth/send-otp] and [POST /auth/verify-otp] handlers
      of [server.js] with the in-memory [otpStore].

    JavaScript values are a small inductive universe, objects are finite
    maps from property names to values, the MongoDB collection is a finite
    map keyed by [userId] (the collection carries a unique index on it),
    and every handler is a function from the state it reads to its result
    and the state it leaves.  Calls run one at a time.  [new Date()] and
    [Date.now()] are an explicit argument [now] (milliseconds); an
    operation that reads the clock several times is given one reading.

    The facts are in [UserContextFacts], [WeatherFacts] and [OtpFacts].

    [ChatWindowSpec] reads off the arguments of the calls, without the
    functions of [user-context.js], which messages a trace supplies for a
    user; the chat window is compared with it.

    [Tts] adds the text chunking and the choice of voice of [tts.js].
    The invariants of the context store over all call sequences, the
    cache and passcode life cycles and the facts about chunking are in
    [UserContextMore], [WeatherMore], [OtpMore] and [TtsFacts]. *)

From Stdlib Require Import QArith Qround Ascii.
From stdpp Require Import gmap strings list pretty.

Set Warnings "-register-all".

Local Open Scope Z_scope.

(** ** JavaScript values *)

Module Js.

(** The canonical 24-character hexadecimal form of a BSON ObjectId. *)
Abbreviation ObjectId := string (only parsing).

Inductive jsval :=
| VUndefined
| VNull
| VBool (b : bool)
| VNum (q : Q)
| VNaN
| VStr (s : string)
| VDate (t : Z)
| VOid (o : ObjectId)
| VArr (l : list jsval)
| VObj (o : gmap string jsval).

Abbreviation jsobj := (gmap string jsval).

(** [!!v] *)
Definition truthy (v : jsval) : bool :=
  match v with
  | VUndefined | VNull | VNaN => false
  | VBool b => b
  | VNum q => negb (Qeq_bool q 0)
  | VStr s => negb (bool_decide (s = ""))
  | VDate _ | VOid _ | VArr _ | VObj _ => true
  end.

(** [v === null || v === undefined] *)
Definition nullish (v : jsval) : bool :=
  match v with
  | VUndefined | VNull => true
  | _ => false
  end.

(** [a || b] and [a ?? b] *)
Definition or_else (a b : jsval) : jsval := if truthy a then a else b.
Definition coalesce (a b : jsval) : jsval := if nullish a then b else a.

(** [typeof v === 'object'] and [typeof v === 'number'] *)
Definition is_object (v : jsval) : bool :=
  match v with
  | VNull | VDate _ | VOid _ | VArr _ | VObj _ => true
  | _ => false
  end.

Definition is_number (v : jsval) : bool :=
  match v with
  | VNum _ | VNaN => true
  | _ => false
  end.

(** [o.k] on an object literal. *)
Definition prop (o : jsobj) (k : string) : jsval := default VUndefined (o !! k).

(** [v.k] for a [v] that is neither [null] nor [undefined].  None of the
    property names read by the code below is a built-in property of a
    string, number, boolean, array, date or ObjectId. *)
Definition get (v : jsval) (k : string) : jsval :=
  match v with
  | VObj o => prop o k
  | _ => VUndefined
  end.

(** [v?.k] *)
Definition get_opt (v : jsval) (k : string) : jsval :=
  if nullish v then VUndefined else get v k.

(** A parameter default [function f(x = {})]. *)
Definition default_obj (v : jsval) : jsval :=
  match v with
  | VUndefined => VObj ∅
  | _ => v
  end.

(** The own enumerable string-keyed properties copied by [{...v}]. *)
Definition indexed (l : list jsval) : jsobj :=
  list_to_map (imap (λ i x, (pretty i, x)) l).

Fixpoint chars (s : string) : list jsval :=
  match s with
  | EmptyString => []
  | String c r => VStr (String c EmptyString) :: chars r
  end.

Definition ownProps (v : jsval) : jsobj :=
  match v with
  | VObj o => o
  | VArr l => indexed l
  | VStr s => indexed (chars s)
  | _ => ∅
  end.

(** [String.prototype.trim].  A character is a code unit below 256; the
    white space and line terminators of ECMAScript in that range are
    U+0009 to U+000D, U+0020 and U+00A0. *)
Definition isWhiteSpace (c : ascii) : bool :=
  let n := N_of_ascii c in
  ((9 <=? n) && (n <=? 13) || (n =? 32) || (n =? 160))%N.

Fixpoint trimStart (s : string) : string :=
  match s with
  | EmptyString => EmptyString
  | String c r => if isWhiteSpace c then trimStart r else s
  end.

Definition trimEnd (s : string) : string := String.rev (trimStart (String.rev s)).
Definition trim (s : string) : string := trimEnd (trimStart s).

(** What the code uses of the runtime and of the [bson] package:
    [ObjectId.isValid], [new ObjectId(v)] for a valid [v], and
    [v.toString()] for a truthy [v] that is not a string. *)
Class Runtime := {
  ObjectId_isValid : jsval → bool;
  ObjectId_new : jsval → ObjectId;
  toString_other : jsval → string
}.

Definition toString `{Runtime} (v : jsval) : string :=
  match v with
  | VStr s => s
  | _ => toString_other v
  end.

End Js.

(** ** A runtime for the worked examples

  Identifiers are 24 hexadecimal digits, kept in lower case. *)

Module NodeRuntime.
Import Js.

Definition isHexDigit (c : ascii) : bool :=
  let n := N_of_ascii c in
  ((48 <=? n) && (n <=? 57) || (65 <=? n) && (n <=? 70) || (97 <=? n) && (n <=? 102))%N.

Definition lowerHex (c : ascii) : ascii :=
  let n := N_of_ascii c in
  if ((65 <=? n) && (n <=? 70))%N then ascii_of_N (n + 32) else c.

Fixpoint allHex (s : string) : bool :=
  match s with
  | EmptyString => true
  | String c r => isHexDigit c && allHex r
  end.

Fixpoint lower (s : string) : string :=
  match s with
  | EmptyString => EmptyString
  | String c r => String (lowerHex c) (lower r)
  end.

Definition isValid (v : jsval) : bool :=
  match v with
  | VStr s => (String.length s =? 24)%nat && allHex s
  | VOid _ => true
  | _ => false
  end.

Definition construct (v : jsval) : ObjectId :=
  match v with
  | VStr s => lower s
  | VOid o => o
  | _ => ""
  end.

(** Exact on booleans, ObjectIds and plain objects; the examples convert
    nothing else. *)
Definition objectToString (v : jsval) : string :=
  match v with
  | VBool b => if b then "true" else "false"
  | VOid o => o
  | _ => "[object Object]"
  end.

#[export] Instance node : Runtime := {|
  ObjectId_isValid := isValid;
  ObjectId_new := construct;
  toString_other := objectToString
|}.

End NodeRuntime.

(** ** The user context store ([user-context.js]) *)

Module UserContext.
Import Js.

Record locationDoc := {
  address : jsval;
  latitude : jsval;
  longitude : jsval;
  precision : jsval;
  raw : jsval;
  loc_updatedAt : Z
}.

Record weatherDoc := {
  temperature : jsval;
  humidity : jsval;
  condition : jsval;
  windSpeed : jsval;
  precipitationProbability : jsval;
  source : jsval;
  w_updatedAt : Z
}.

Record chat := {
  role : string;
  message : string;
  metadata : jsval;
  timestamp : jsval
}.

(** A document of the [user_context] collection. *)
Record document := {
  doc_userId : ObjectId;
  doc_profile : jsobj;
  doc_location : option locationDoc;
  doc_weather : option weatherDoc;
  doc_chats : list chat;
  doc_createdAt : Z;
  doc_updatedAt : Z
}.

(** The module variable [userContextCollection]: [None] until
    [initUserContextCollection] has run. *)
Abbreviation state := (option (gmap ObjectId document)).

Inductive error :=
| NotInitialized   (* Error('UserContext collection not initialized') *)
| TypeError        (* a property read or a destructuring of null *)
| MongoConflict.   (* the server rejects an update whose operators share a path *)

Inductive outcome (A : Type) :=
| Return (a : A)
| Throw (e : error).
Arguments Return {A} a.
Arguments Throw {A} e.

(** Computations that read and write the collection and may throw. *)
Definition M (A : Type) : Type := state → outcome A * state.

#[export] Instance M_ret : MRet M := λ A a st, (Return a, st).

#[export] Instance M_bind : MBind M := λ A B f m st,
  match m st with
  | (Return a, st') => f a st'
  | (Throw e, st') => (Throw e, st')
  end.

Definition throw {A} (e : error) : M A := λ st, (Throw e, st).

Definition lift {A} (o : outcome A) : M A := λ st, (o, st).

Definition withCollection {A}
    (f : gmap ObjectId document → outcome A * gmap ObjectId document) : M A :=
  λ st,
    match st with
    | None => (Throw NotInitialized, None)
    | Some c => let '(r, c') := f c in (r, Some c')
    end.

Definition getCollection : M () := withCollection (λ c, (Return (), c)).

(** [collection.findOne({ userId })] *)
Definition findOne (id : ObjectId) : M (option document) :=
  withCollection (λ c, (Return (c !! id), c)).

(** [collection.updateOne({ userId }, { $set: ... })]: the matching
    document, if any, is rewritten; nothing is inserted. *)
Definition updateOne_set (id : ObjectId) (f : document → document) : M () :=
  withCollection (λ c, (Return (), alter f id c)).

(** [collection.updateOne({ userId }, { $setOnInsert: d }, { upsert: true })]:
    a matching document is left as it is; otherwise [d] is inserted. *)
Definition updateOne_setOnInsert (id : ObjectId) (d : document) : M () :=
  withCollection (λ c,
    (Return (), match c !! id with Some _ => c | None => <[id := d]> c end)).

(** [$slice: -n] of an array. *)
Definition slice_last {A} (n : nat) (l : list A) : list A :=
  drop (length l - n) l.

Definition set_profile (p : jsobj) (now : Z) (d : document) : document :=
  {| doc_userId := doc_userId d; doc_profile := p;
     doc_location := doc_location d; doc_weather := doc_weather d;
     doc_chats := doc_chats d; doc_createdAt := doc_createdAt d;
     doc_updatedAt := now |}.

Definition set_location_weather (l : option locationDoc) (w : option weatherDoc)
    (now : Z) (d : document) : document :=
  {| doc_userId := doc_userId d; doc_profile := doc_profile d;
     doc_location := match l with Some _ => l | None => doc_location d end;
     doc_weather := match w with Some _ => w | None => doc_weather d end;
     doc_chats := doc_chats d; doc_createdAt := doc_createdAt d;
     doc_updatedAt := now |}.

Definition push_chats (entries : list chat) (now : Z) (d : document) : document :=
  {| doc_userId := doc_userId d; doc_profile := doc_profile d;
     doc_location := doc_location d; doc_weather := doc_weather d;
     doc_chats := slice_last 5 (doc_chats d ++ entries);
     doc_createdAt := doc_createdAt d;
     doc_updatedAt := now |}.

Definition nullProfile : jsobj :=
  <["name" := VNull]> (<["email" := VNull]> (<["phone" := VNull]>
    (<["language" := VNull]> ∅))).

Definition newDocument (id : ObjectId) (p : jsobj) (now : Z) : document :=
  {| doc_userId := id; doc_profile := p; doc_location := None;
     doc_weather := None; doc_chats := []; doc_createdAt := now;
     doc_updatedAt := now |}.

Definition is_null (v : jsval) : bool :=
  match v with VNull => true | _ => false end.

Definition is_undefined (v : jsval) : bool :=
  match v with VUndefined => true | _ => false end.

Definition is_string (v : jsval) : bool :=
  match v with VStr _ => true | _ => false end.

(** The record [sanitizeWeather] builds from a payload without fields. *)
Definition blankWeather (now : Z) : weatherDoc :=
  {| temperature := VNull; humidity := VNull; condition := VNull;
     windSpeed := VNull; precipitationProbability := VNull;
     source := VStr "app"; w_updatedAt := now |}.

Section WithRuntime.
Context `{Runtime}.

Definition normalizeObjectId (value : jsval) : option ObjectId :=
  if negb (truthy value) then None
  else match value with
  | VOid o => Some o
  | _ =>
    if is_string value && ObjectId_isValid value then Some (ObjectId_new value)
    else if truthy (get_opt value "_id") && ObjectId_isValid (get value "_id")
    then Some (ObjectId_new (get value "_id"))
    else None
  end.

Definition sanitizeProfile (profile fallback : jsval) : outcome jsobj :=
  let profile := default_obj profile in
  let fallback := default_obj fallback in
  if nullish fallback then Throw TypeError
  else
    let base : jsobj :=
      <["name" := or_else (get fallback "name") VNull]>
      (<["email" := or_else (get fallback "email") VNull]>
      (<["phone" := or_else (get fallback "phone") VNull]>
      (<["language" := or_else (get fallback "language") VNull]> ∅))) in
    Return (ownProps profile ∪ base).

Definition sanitizeLocation (now : Z) (location : jsval) : option locationDoc :=
  let location := default_obj location in
  if negb (truthy location) || negb (is_object location) then None
  else
    let sanitized := {|
      address := or_else (get location "address") VNull;
      latitude := if is_number (get location "lat") then get location "lat"
                  else coalesce (get location "latitude") VNull;
      longitude := if is_number (get location "lon") then get location "lon"
                   else coalesce (get location "longitude") VNull;
      precision := or_else (get location "precision") VNull;
      raw := or_else (get location "raw") VNull;
      loc_updatedAt := now |} in
    if is_null (address sanitized) && is_null (latitude sanitized)
       && is_null (longitude sanitized) && is_null (raw sanitized)
    then None
    else Some sanitized.

Definition sanitizeWeather (now : Z) (weather : jsval) : option weatherDoc :=
  let weather := default_obj weather in
  if negb (truthy weather) || negb (is_object weather) then None
  else
    let sanitized := {|
      temperature :=
        coalesce (coalesce (get weather "temperature") (get weather "temp")) VNull;
      humidity := coalesce (get weather "humidity") VNull;
      condition :=
        or_else (or_else (get weather "condition") (get weather "summary")) VNull;
      windSpeed :=
        coalesce (coalesce (get weather "windSpeed") (get weather "wind")) VNull;
      precipitationProbability :=
        coalesce (coalesce (get weather "precipitationProbability")
                           (get weather "precipChance")) VNull;
      source := or_else (get weather "source") (VStr "app");
      w_updatedAt := now |} in
    let meaningful :=
      existsb (λ value, negb (is_null value) && negb (is_undefined value))
        [temperature sanitized; humidity sanitized; condition sanitized;
         windSpeed sanitized; precipitationProbability sanitized;
         source sanitized; VUndefined] in
    if meaningful then Some sanitized else None.

(** [ensureUserContext(userId, profile = {})] *)
Definition ensureUserContext (now : Z) (userId profile : jsval)
    : M (option ObjectId) :=
  getCollection;;
  match normalizeObjectId userId with
  | None => mret None
  | Some normalizedId =>
    let profile := default_obj profile in
    sanitizedProfile ← lift (sanitizeProfile profile profile);
    existing ← findOne normalizedId;
    match existing with
    | Some _ => updateOne_set normalizedId (set_profile sanitizedProfile now)
    | None =>
      updateOne_setOnInsert normalizedId
        (newDocument normalizedId sanitizedProfile now)
    end;;
    mret (Some normalizedId)
  end.

(** [profile.name || profile.email || profile.phone || profile.language] *)
Definition anyProfileField (profile : jsval) : bool :=
  truthy (get profile "name") || truthy (get profile "email")
  || truthy (get profile "phone") || truthy (get profile "language").

(** [updateLocationAndWeather(userId, { profile = {}, location, weather } = {})] *)
Definition updateLocationAndWeather (now : Z) (userId payload : jsval)
    : M (option document) :=
  let payload := default_obj payload in
  if is_null payload then throw TypeError
  else
    let profile := default_obj (get payload "profile") in
    let location := get payload "location" in
    let weather := get payload "weather" in
    getCollection;;
    match normalizeObjectId userId with
    | None => mret None
    | Some normalizedId =>
      let hasProfileData := truthy profile && anyProfileField profile in
      (if hasProfileData then
         ensureUserContext now userId profile;; mret ()
       else
         existing ← findOne normalizedId;
         match existing with
         | Some _ => mret ()
         | None =>
           updateOne_setOnInsert normalizedId
             (newDocument normalizedId nullProfile now)
         end);;
      let sanitizedLocation := sanitizeLocation now location in
      let sanitizedWeather := sanitizeWeather now weather in
      updateOne_set normalizedId
        (set_location_weather sanitizedLocation sanitizedWeather now);;
      findOne normalizedId
    end.

(** [entry?.message ? entry.message.toString() : ''] *)
Definition messageText (entry : jsval) : string :=
  if truthy (get_opt entry "message") then toString (get entry "message")
  else "".

(** The [.map] callback of [appendChatMessage]. *)
Definition normalizeEntry (now : Z) (entry : jsval) : chat :=
  {| role :=
       match get_opt entry "role" with
       | VStr "assistant" => "assistant"
       | _ => "user"
       end;
     message := messageText entry;
     metadata := or_else (get_opt entry "metadata") (VObj ∅);
     timestamp := or_else (get_opt entry "timestamp") (VDate now) |}.

(** The [.filter] callback: [entry.message && entry.message.trim().length > 0]. *)
Definition nonEmpty (entry : chat) : bool :=
  negb (bool_decide (message entry = ""))
  && (0 <? String.length (trim (message entry)))%nat.

(** [Array.isArray(chatEntry) ? chatEntry : [chatEntry]] *)
Definition entryList (chatEntry : jsval) : list jsval :=
  match default_obj chatEntry with
  | VArr l => l
  | v => [v]
  end.

(** The entries [appendChatMessage] pushes: mapped, then filtered. *)
Definition entriesOf (now : Z) (chatEntry : jsval) : list chat :=
  filter (λ entry, nonEmpty entry = true)
    (map (normalizeEntry now) (entryList chatEntry)).

(** [findOne({ userId }, { projection: { chats: 1, userId: 1 } })] *)
Record projection := {
  proj_userId : ObjectId;
  proj_chats : list chat
}.

Definition project (d : document) : projection :=
  {| proj_userId := doc_userId d; proj_chats := doc_chats d |}.

Definition findOne_chats (id : ObjectId) : M (option projection) :=
  d ← findOne id; mret (project <$> d).

(** [appendChatMessage(userId, chatEntry = {})] *)
Definition appendChatMessage (now : Z) (userId chatEntry : jsval)
    : M (option projection) :=
  let chatEntry := default_obj chatEntry in
  getCollection;;
  match normalizeObjectId userId with
  | None => mret None
  | Some normalizedId =>
    existing ← findOne normalizedId;
    match existing with
    | Some _ => mret ()
    | None =>
      let sampleEntry :=
        match chatEntry with
        | VArr l => default VUndefined (head l)
        | _ => chatEntry
        end in
      let profile := or_else (get_opt sampleEntry "profile") (VObj ∅) in
      let hasProfileData := anyProfileField profile in
      profileDoc ←
        (if hasProfileData then lift (sanitizeProfile profile profile)
         else mret nullProfile);
      updateOne_setOnInsert normalizedId
        (newDocument normalizedId profileDoc now)
    end;;
    let entries := entriesOf now chatEntry in
    match entries with
    | [] => findOne_chats normalizedId
    | _ =>
      updateOne_set normalizedId (push_chats entries now);;
      findOne_chats normalizedId
    end
  end.

(** [fetchUserContext(userId)] *)
Definition fetchUserContext (userId : jsval) : M (option document) :=
  getCollection;;
  match normalizeObjectId userId with
  | None => mret None
  | Some normalizedId => findOne normalizedId
  end.

(** The exported operations, as calls a client of the module can make. *)
Inductive call :=
| Ensure (userId profile : jsval)
| Update (userId payload : jsval)
| Append (userId chatEntry : jsval)
| Fetch (userId : jsval).

(** The collection after a call made at time [now]. *)
Definition after (st : state) (tc : Z * call) : state :=
  match tc with
  | (now, Ensure userId profile) => (ensureUserContext now userId profile st).2
  | (now, Update userId payload) => (updateLocationAndWeather now userId payload st).2
  | (now, Append userId chatEntry) => (appendChatMessage now userId chatEntry st).2
  | (now, Fetch userId) => (fetchUserContext userId st).2
  end.

Definition run (st : state) (trace : list (Z * call)) : state :=
  foldl after st trace.

(** What is stored for a user: the document, and its chat window, location
    and weather ([[]] and [None] when there is no document). *)
Definition documentOf (st : state) (id : ObjectId) : option document :=
  st ≫= (.!! id).

Definition chatsOf (st : state) (id : ObjectId) : list chat :=
  from_option doc_chats [] (documentOf st id).

Definition locationOf (st : state) (id : ObjectId) : option locationDoc :=
  documentOf st id ≫= doc_location.

Definition weatherOf (st : state) (id : ObjectId) : option weatherDoc :=
  documentOf st id ≫= doc_weather.

(** [sameChats st st']: the collection stays initialised and no chat window
    differs. *)
Definition sameChats (st st' : state) : Prop :=
  (is_Some st → is_Some st') ∧ ∀ id, chatsOf st' id = chatsOf st id.

(** A computation all of whose runs relate the state before to the state
    after. *)
Definition frames {A} (R : state → state → Prop) (m : M A) : Prop :=
  ∀ st, R st (m st).2.

(** Every message a trace appends for a user, in append order. *)
Definition appended (id : ObjectId) (trace : list (Z * call)) : list chat :=
  concat (map (λ tc,
    match tc with
    | (now, Append userId chatEntry) =>
      if bool_decide (normalizeObjectId userId = Some id)
      then entriesOf now chatEntry else []
    | _ => []
    end) trace).

End WithRuntime.
End UserContext.

(** ** The second variant of [ensureUserContext]

    The other copy of [user-context.js] creates and updates the document in
    one upsert that carries both [$setOnInsert] and [$set]. *)

Module UserContextUpsert.
Import Js UserContext.

(** MongoDB rejects an update in which two operators write one path. *)
Definition conflicting (setOnInsertPaths setPaths : list string) : bool :=
  existsb (λ p, bool_decide (p ∈ setPaths)) setOnInsertPaths.

(** [collection.updateOne({ userId }, { $setOnInsert, $set }, { upsert: true })]:
    [inserted] is the document an insert produces, [f] the effect of [$set]
    on a matching document. *)
Definition updateOne_upsert (id : ObjectId)
    (setOnInsertPaths setPaths : list string)
    (inserted : document) (f : document → document) : M () :=
  if conflicting setOnInsertPaths setPaths then throw MongoConflict
  else withCollection (λ c,
    (Return (),
     match c !! id with
     | Some d => <[id := f d]> c
     | None => <[id := inserted]> c
     end)).

Section WithRuntime.
Context `{Runtime}.

Definition ensureUserContext (now : Z) (userId profile : jsval)
    : M (option ObjectId) :=
  getCollection;;
  match normalizeObjectId userId with
  | None => mret None
  | Some normalizedId =>
    let profile := default_obj profile in
    sanitizedProfile ← lift (sanitizeProfile profile profile);
    updateOne_upsert normalizedId
      ["userId"; "profile"; "location"; "weather"; "chats"; "createdAt"]
      ["profile"; "updatedAt"]
      (newDocument normalizedId sanitizedProfile now)
      (set_profile sanitizedProfile now);;
    mret (Some normalizedId)
  end.

End WithRuntime.
End UserContextUpsert.

(** ** Sample data for the worked examples *)

Module Sample.
Import Js UserContext.
Export NodeRuntime.

Definition farmerId : ObjectId := "65f1c0a4b7e3d2a1908c7b6a".

Definition farmerProfile : jsobj :=
  <["name" := VStr "Test Farmer"]> (<["email" := VStr "testfarmer@example.com"]>
    (<["phone" := VStr "+919876543210"]> (<["language" := VStr "hi"]> ∅))).

Definition shirur : locationDoc :=
  {| address := VStr "Village Shirur, Pune District, Maharashtra";
     latitude := VNum (188314 # 10000); longitude := VNum (743769 # 10000);
     precision := VStr "locality"; raw := VStr "Shirur, Pune, MH";
     loc_updatedAt := 1000 |}.

Definition partlyCloudy : weatherDoc :=
  {| temperature := VNum 28; humidity := VNum 65;
     condition := VStr "Partly Cloudy"; windSpeed := VNum 12;
     precipitationProbability := VNum 20; source := VStr "app";
     w_updatedAt := 1000 |}.

Definition question : chat :=
  {| role := "user"; message := "When should I sow soybean?";
     metadata := VObj ∅; timestamp := VDate 900 |}.

Definition farmerDoc : document :=
  {| doc_userId := farmerId; doc_profile := farmerProfile;
     doc_location := Some shirur; doc_weather := Some partlyCloudy;
     doc_chats := [question]; doc_createdAt := 500; doc_updatedAt := 1000 |}.

Definition farmers : gmap ObjectId document := {[ farmerId := farmerDoc ]}.

(** The calls of the repository's [test-user-context-flow] script: signup,
    home page update, then three conversations of two messages each. *)
Definition homeLocation : jsval :=
  VObj (<["address" := VStr "Village Shirur, Pune District, Maharashtra"]>
       (<["lat" := VNum (188314 # 10000)]> (<["lon" := VNum (743769 # 10000)]>
       (<["precision" := VStr "locality"]> (<["raw" := VStr "Shirur, Pune, MH"]> ∅))))).

Definition homeWeather : jsval :=
  VObj (<["temperature" := VNum 28]> (<["humidity" := VNum 65]>
       (<["condition" := VStr "Partly Cloudy"]> (<["windSpeed" := VNum 12]>
       (<["precipitationProbability" := VNum 20]> (<["source" := VStr "app"]> ∅)))))).

Definition said (who text : string) : jsval :=
  VObj (<["role" := VStr who]> (<["message" := VStr text]> ∅)).

Definition conversation (k : string) : jsval :=
  VArr [said "user" ("question " +:+ k); said "assistant" ("answer " +:+ k)].

Definition testFlow : list (Z * call) :=
  [ (1000, Ensure (VOid farmerId) (VObj farmerProfile));
    (2000, Update (VOid farmerId)
             (VObj (<["profile" := VObj farmerProfile]>
                   (<["location" := homeLocation]>
                   (<["weather" := homeWeather]> ∅)))));
    (3000, Append (VOid farmerId) (conversation "1"));
    (4000, Append (VOid farmerId) (conversation "2"));
    (5000, Append (VOid farmerId) (conversation "3")) ].

(** [{ location: {}, weather: {} }] *)
Definition emptyPayloads : jsval :=
  VObj (<["location" := VObj ∅]> (<["weather" := VObj ∅]> ∅)).

End Sample.

(** ** The weather endpoint ([GET /weather] in [server.js]) *)

Module Weather.

(** [parseFloat(x).toFixed(2)], the rounding of a query parameter to its
    two-decimal bucket, is the engine's. *)
Class Bucketing := toFixed2 : string → string.

Record forecastDay := {
  date : string;
  temperatureMax : Z;
  temperatureMin : Z;
  day_weatherCode : Z;
  day_precipitationProbability : Z
}.

Record weatherData := {
  temperature : Z;
  humidity : Z;
  windSpeed : Z;
  precipitationProbability : Z;
  weatherCode : Z;
  condition : string;
  advisory : string;
  forecast : option (list forecastDay)
}.

(** The markers added to the data of a response. *)
Record flags := {
  cached : option bool;
  stale : option bool;
  fallback : option bool
}.

Inductive body :=
| Success (data : weatherData) (marks : flags)      (* { status: 'success', data } *)
| Failure (code message : string).                 (* { error: { code, message } } *)

Record response := {
  status : Z;
  payload : body
}.

(** An entry of [weatherCache]. *)
Record cacheEntry := {
  timestamp : Z;
  data : weatherData
}.

(** The numeric fields the handler reads from the provider's JSON; [None]
    is a field that is absent. *)
Record currentValues := {
  cur_temperature : option Q;
  cur_temperatureApparent : option Q;
  cur_humidity : option Q;
  cur_windSpeed : option Q;
  cur_precipitationProbability : option Q;
  cur_weatherCode : option Z
}.

Record dayValues := {
  dv_temperatureMax : option Q;
  dv_temperatureMin : option Q;
  dv_temperature : option Q;
  dv_weatherCode : option Z;
  dv_precipitationProbability : option Q
}.

Record forecastBody := {
  minutely0 : option currentValues;     (* timelines?.minutely?.[0]?.values *)
  hourly0 : option currentValues;       (* timelines?.hourly?.[0]?.values *)
  daily : list (string * option dayValues)   (* timelines?.daily: time, values *)
}.

(** What the call to the provider does: [fetch] rejects, or it resolves to
    a response with a status whose body parses to the shape above
    ([Some]) or on which [response.json()] or the handler raises ([None]). *)
Inductive upstream :=
| FetchRejected
| Responded (code : Z) (parsed : option forecastBody).

Definition WEATHER_CACHE_TTL : Z := 10 * 60 * 1000.

(** [!s] of a query or environment string. *)
Definition missing (s : option string) : bool :=
  match s with
  | None | Some "" => true
  | Some _ => false
  end.

(** [a || b] on numbers. *)
Definition num_or (a : option Q) (b : Q) : Q :=
  match a with
  | Some q => if Qeq_bool q 0 then b else q
  | None => b
  end.

Definition int_or (a : option Z) (b : Z) : Z :=
  match a with
  | Some z => if z =? 0 then b else z
  | None => b
  end.

(** [Math.round] *)
Definition Math_round (x : Q) : Z := Qfloor (x + (1 # 2)).

(** [x > y] on numbers. *)
Definition gt (x y : Q) : bool := negb (Qle_bool x y).

Definition weatherDescriptions (code : Z) : option string :=
  match code with
  | 0 => Some "Unknown"
  | 1000 => Some "Clear"
  | 1001 => Some "Cloudy"
  | 1100 => Some "Mostly Clear"
  | 1101 => Some "Partly Cloudy"
  | 1102 => Some "Mostly Cloudy"
  | 2000 => Some "Fog"
  | 2100 => Some "Light Fog"
  | 3000 => Some "Light Wind"
  | 3001 => Some "Wind"
  | 3002 => Some "Strong Wind"
  | 4000 => Some "Drizzle"
  | 4001 => Some "Rain"
  | 4200 => Some "Light Rain"
  | 4201 => Some "Heavy Rain"
  | 5000 => Some "Snow"
  | 5001 => Some "Flurries"
  | 5100 => Some "Light Snow"
  | 5101 => Some "Heavy Snow"
  | 6000 => Some "Freezing Drizzle"
  | 6001 => Some "Freezing Rain"
  | 6200 => Some "Light Freezing Rain"
  | 6201 => Some "Heavy Freezing Rain"
  | 7000 => Some "Ice Pellets"
  | 7101 => Some "Heavy Ice Pellets"
  | 7102 => Some "Light Ice Pellets"
  | 8000 => Some "Thunderstorm"
  | _ => None
  end.

Definition advisoryFor (precipitationProbability temperature windSpeed : Q) : string :=
  if gt precipitationProbability 70 then
    "High chance of rain. Postpone spraying activities. Good time for indoor planning."
  else if gt precipitationProbability 40 then
    "Moderate rain expected. Good time for irrigation planning and soil preparation."
  else if gt temperature 35 then
    "High temperature. Ensure adequate irrigation. Avoid midday fieldwork."
  else if gt 15 temperature then
    "Cool weather. Monitor frost-sensitive crops. Good for harvesting."
  else if gt windSpeed 20 then
    "Windy conditions. Avoid pesticide application. Secure farm equipment."
  else
    "Favorable conditions for farming activities. Plan your fieldwork accordingly.".

Definition noValues : currentValues :=
  {| cur_temperature := None; cur_temperatureApparent := None;
     cur_humidity := None; cur_windSpeed := None;
     cur_precipitationProbability := None; cur_weatherCode := None |}.

Definition noDayValues : dayValues :=
  {| dv_temperatureMax := None; dv_temperatureMin := None;
     dv_temperature := None; dv_weatherCode := None;
     dv_precipitationProbability := None |}.

Definition forecastOf (day : string * option dayValues) : forecastDay :=
  let values := default noDayValues day.2 in
  {| date := day.1;
     temperatureMax :=
       Math_round (num_or (dv_temperatureMax values) (num_or (dv_temperature values) 0));
     temperatureMin :=
       Math_round (num_or (dv_temperatureMin values) (num_or (dv_temperature values) 0));
     day_weatherCode := int_or (dv_weatherCode values) 0;
     day_precipitationProbability :=
       Math_round (num_or (dv_precipitationProbability values) 0) |}.

(** The data computed from a provider response. *)
Definition freshData (b : forecastBody) : weatherData :=
  let current :=
    match minutely0 b with
    | Some v => v
    | None => default noValues (hourly0 b)
    end in
  let temperature :=
    num_or (cur_temperature current) (num_or (cur_temperatureApparent current) 0) in
  let humidity := num_or (cur_humidity current) 0 in
  let windSpeed := num_or (cur_windSpeed current) 0 in
  let precipitationProbability := num_or (cur_precipitationProbability current) 0 in
  let weatherCode := int_or (cur_weatherCode current) 0 in
  {| temperature := Math_round temperature;
     humidity := Math_round humidity;
     windSpeed := Math_round windSpeed;
     precipitationProbability := Math_round precipitationProbability;
     weatherCode := weatherCode;
     condition := default "Unknown" (weatherDescriptions weatherCode);
     advisory := advisoryFor precipitationProbability temperature windSpeed;
     forecast := Some (map forecastOf (take 7 (daily b))) |}.

Definition fallbackData : weatherData :=
  {| temperature := 28; humidity := 65; windSpeed := 10;
     precipitationProbability := 20; weatherCode := 1101;
     condition := "Partly Cloudy";
     advisory := "Weather data temporarily unavailable. Using estimated conditions.";
     forecast := None |}.

Definition json (code : Z) (b : body) : response :=
  {| status := code; payload := b |}.

(** [{ ...cachedData.data, cached: true }] and the stale form. *)
Definition servedFromCache (e : cacheEntry) : response :=
  json 200 (Success (data e)
    {| cached := Some true; stale := None; fallback := None |}).

Definition servedStale (e : cacheEntry) : response :=
  json 200 (Success (data e)
    {| cached := Some true; stale := Some true; fallback := None |}).

Definition servedFallback : response :=
  json 200 (Success fallbackData
    {| cached := None; stale := None; fallback := Some true |}).

Definition servedFresh (d : weatherData) : response :=
  json 200 (Success d
    {| cached := Some false; stale := None; fallback := None |}).

(** The stale entry if there is one, the fixed estimate otherwise: the
    rate-limit branch and the [catch] block. *)
Definition staleOrFallback (cachedData : option cacheEntry) : response :=
  match cachedData with
  | Some e => servedStale e
  | None => servedFallback
  end.

Section WithBucketing.
Context `{Bucketing}.

Definition cacheKeyOf (lat lon : string) : string :=
  toFixed2 lat +:+ "," +:+ toFixed2 lon.

(** [app.get('/weather', ...)]: [apiKey] is [process.env.TOMORROW_API_KEY],
    [lat] and [lon] are [req.query.lat] and [req.query.lon].  The insert of
    the fresh reading into the [weather_data] collection is left out: its
    failure is caught where it happens and changes neither the answer nor
    the cache. *)
Definition getWeather (apiKey : option string) (now : Z)
    (lat lon : option string) (up : upstream)
    (weatherCache : gmap string cacheEntry)
    : response * gmap string cacheEntry :=
  if missing lat || missing lon then
    (json 400 (Failure "VALIDATION_ERROR" "Latitude and longitude are required"),
     weatherCache)
  else
    let cacheKey := cacheKeyOf (default "" lat) (default "" lon) in
    let cachedData := weatherCache !! cacheKey in
    (* the catch block looks the key up again and finds the same entry *)
    let caught := (staleOrFallback cachedData, weatherCache) in
    let hit :=
      match cachedData with
      | Some e =>
        if now - timestamp e <? WEATHER_CACHE_TTL then Some e else None
      | None => None
      end in
    match hit with
    | Some e => (servedFromCache e, weatherCache)
    | None =>
      if missing apiKey then
        match cachedData with
        | Some e => (servedStale e, weatherCache)
        | None =>
          (json 500 (Failure "CONFIG_ERROR" "Weather service not configured"),
           weatherCache)
        end
      else
        match up with
        | FetchRejected => caught
        | Responded code parsed =>
          if negb ((200 <=? code) && (code <=? 299)) then
            if code =? 429 then (staleOrFallback cachedData, weatherCache)
            else caught
          else
            match parsed with
            | None => caught
            | Some b =>
              let d := freshData b in
              (servedFresh d,
               <[cacheKey := {| timestamp := now; data := d |}]> weatherCache)
            end
        end
    end.

End WithBucketing.

(** On a decimal numeral with exactly two fractional digits, such as 18.52,
    the bucket is the numeral itself; the worked examples use no other
    coordinates. *)
Definition numeralBucket : Bucketing := λ s, s.

(** A provider response: 31.6 degrees, 58 % humidity, wind 12.4, rain
    probability 75 %, code 4001, and one forecast day. *)
Definition rainyBody : forecastBody :=
  {| minutely0 :=
       Some {| cur_temperature := Some (316 # 10);
               cur_temperatureApparent := Some (34 # 1);
               cur_humidity := Some (58 # 1);
               cur_windSpeed := Some (124 # 10);
               cur_precipitationProbability := Some (75 # 1);
               cur_weatherCode := Some 4001 |};
     hourly0 := None;
     daily :=
       [("2025-07-01T00:30:00Z",
         Some {| dv_temperatureMax := Some (335 # 10);
                 dv_temperatureMin := Some (242 # 10);
                 dv_temperature := None;
                 dv_weatherCode := Some 4001;
                 dv_precipitationProbability := Some (80 # 1) |})] |}.

End Weather.

(** ** E-mail one-time passcodes ([/auth/send-otp], [/auth/verify-otp]) *)

Module Otp.

(** A value of [otpStore]. *)
Record otpRecord := {
  otp : string;
  expiresAt : Z;
  attempts : Z
}.

(** [process.env.SENDGRID_API_KEY] and [process.env.SENDGRID_FROM]. *)
Record config := {
  SENDGRID_API_KEY : option string;
  SENDGRID_FROM : option string
}.

(** A document of the [users] collection, found by e-mail. *)
Record user := {
  name : string;
  landSize : string;
  soilType : string;
  createdAt : Z;
  lastLogin : Z
}.

Inductive reply :=
| Sent                                        (* 200 'OTP sent to your email' *)
| LoggedIn (email : string) (u : user)        (* 200 'Login successful' *)
| Registered (email : string) (u : user)      (* 200 'Registration successful' *)
| Error (status : Z) (code message : string). (* { error: { code, message } } *)

(** [!s] of a string that may be absent. *)
Definition missing (s : option string) : bool :=
  match s with
  | None | Some "" => true
  | Some _ => false
  end.

(** [s.includes('@')] *)
Fixpoint includesAt (s : string) : bool :=
  match s with
  | EmptyString => false
  | String c r => bool_decide (c = "@"%char) || includesAt r
  end.

Definition configured (cfg : config) : bool :=
  negb (missing (SENDGRID_API_KEY cfg) || missing (SENDGRID_FROM cfg)).

(** [Math.floor(100000 + Math.random() * 900000).toString()], with [random]
    the number drawn by [Math.random()], at least 0 and below 1.  The
    arithmetic is exact, on rationals; in double precision the largest
    draw, 1 - 2^-53, still gives a sum below 1000000, so the results range
    over the same integers. *)
Definition generateOtp (random : Q) : string :=
  pretty (Qfloor (100000 + random * 900000)).

(** [sendOtpEmail(to, otp)]: [true] when it resolves, [false] when it
    throws; [accepted] tells whether [sgMail.send] resolves. *)
Definition sendOtpEmail (cfg : config) (accepted : bool) (to code : string) : bool :=
  if missing (SENDGRID_API_KEY cfg) || missing (SENDGRID_FROM cfg) then false
  else accepted.

(** [app.post('/auth/send-otp', ...)] *)
Definition sendOtp (cfg : config) (now : Z) (random : Q) (accepted : bool)
    (email : option string) (otpStore : gmap string otpRecord)
    : reply * gmap string otpRecord :=
  match email with
  | None => (Error 400 "VALIDATION_ERROR" "Valid email is required", otpStore)
  | Some email =>
    if bool_decide (email = "") || negb (includesAt email) then
      (Error 400 "VALIDATION_ERROR" "Valid email is required", otpStore)
    else if missing (SENDGRID_API_KEY cfg) || missing (SENDGRID_FROM cfg) then
      (Error 503 "SERVICE_UNAVAILABLE"
         "Email service is not configured. Please contact administrator.",
       otpStore)
    else
      let code := generateOtp random in
      let otpStore :=
        <[email := {| otp := code; expiresAt := now + 10 * 60 * 1000;
                      attempts := 0 |}]> otpStore in
      if sendOtpEmail cfg accepted email code then (Sent, otpStore)
      else (Error 500 "SERVER_ERROR" "Error sending OTP. Please try again.", otpStore)
  end.

(** The body of a verification request. *)
Record verifyBody := {
  req_email : option string;
  req_otp : option string;
  req_name : option string;
  req_landSize : option string;
  req_soilType : option string
}.

(** [x || ''] *)
Definition or_empty (s : option string) : string := default "" s.

Definition invalidOtpMessage (attemptsUsed : Z) : string :=
  "Invalid OTP. " +:+ pretty (3 - attemptsUsed) +:+ " attempts remaining.".

(** [app.post('/auth/verify-otp', ...)]: the state is [otpStore] and the
    [users] collection. *)
Definition verifyOtp (now : Z) (body : verifyBody)
    (otpStore : gmap string otpRecord) (users : gmap string user)
    : reply * gmap string otpRecord * gmap string user :=
  if missing (req_email body) || missing (req_otp body) then
    (Error 400 "VALIDATION_ERROR" "Email and OTP are required", otpStore, users)
  else
    let email := or_empty (req_email body) in
    let code := or_empty (req_otp body) in
    match otpStore !! email with
    | None =>
      (Error 400 "OTP_NOT_FOUND" "OTP not found. Please request a new one.",
       otpStore, users)
    | Some storedOtpData =>
      if expiresAt storedOtpData <? now then
        (Error 400 "OTP_EXPIRED" "OTP has expired. Please request a new one.",
         delete email otpStore, users)
      else if 3 <=? attempts storedOtpData then
        (Error 400 "TOO_MANY_ATTEMPTS"
           "Too many failed attempts. Please request a new OTP.",
         delete email otpStore, users)
      else if negb (bool_decide (otp storedOtpData = code)) then
        let attemptsUsed := attempts storedOtpData + 1 in
        (Error 400 "INVALID_OTP" (invalidOtpMessage attemptsUsed),
         <[email := {| otp := otp storedOtpData;
                       expiresAt := expiresAt storedOtpData;
                       attempts := attemptsUsed |}]> otpStore,
         users)
      else
        let otpStore := delete email otpStore in
        match users !! email with
        | Some existingUser =>
          let u := {| name := name existingUser;
                      landSize := landSize existingUser;
                      soilType := soilType existingUser;
                      createdAt := createdAt existingUser;
                      lastLogin := now |} in
          (LoggedIn email existingUser, otpStore, <[email := u]> users)
        | None =>
          if missing (req_name body) then
            (Error 400 "VALIDATION_ERROR" "Name is required for signup",
             otpStore, users)
          else
            let newUser := {| name := or_empty (req_name body);
                              landSize := or_empty (req_landSize body);
                              soilType := or_empty (req_soilType body);
                              createdAt := now;
                              lastLogin := now |} in
            (Registered email newUser, otpStore, <[email := newUser]> users)
        end
    end.

(** Vocabulary of the statements about passcodes. *)

(** The shape of a passcode: six characters, each a decimal digit. *)
Definition isDigit (c : ascii) : bool :=
  let n := N_of_ascii c in ((48 <=? n) && (n <=? 57))%N.

Fixpoint allDigits (s : string) : bool :=
  match s with
  | EmptyString => true
  | String c r => isDigit c && allDigits r
  end.

Definition sixDigits (s : string) : bool :=
  (String.length s =? 6)%nat && allDigits s.

Definition firstChar (s : string) : option ascii :=
  match s with
  | EmptyString => None
  | String c _ => Some c
  end.

(** A verification request that carries an e-mail and a code only. *)
Definition attempt (email code : string) : verifyBody :=
  {| req_email := Some email; req_otp := Some code; req_name := None;
     req_landSize := None; req_soilType := None |}.

Definition mailer : config :=
  {| SENDGRID_API_KEY := Some "SG.key";
     SENDGRID_FROM := Some "otp@krushimitra.example" |}.

Definition noMailer : config :=
  {| SENDGRID_API_KEY := None; SENDGRID_FROM := None |}.

(** The replies of the verification handler by kind. *)
Definition replyCode (r : reply) : string :=
  match r with
  | Sent | LoggedIn _ _ | Registered _ _ => "success"
  | Error _ code _ => code
  end.

(** The handler run over a list of timed requests; the replies in order. *)
Fixpoint verifyAll (requests : list (Z * verifyBody))
    (otpStore : gmap string otpRecord) (users : gmap string user)
    : list reply * gmap string otpRecord * gmap string user :=
  match requests with
  | [] => ([], otpStore, users)
  | (now, body) :: rest =>
    let '(r, otpStore', users') := verifyOtp now body otpStore users in
    let '(rs, otpStore'', users'') := verifyAll rest otpStore' users' in
    (r :: rs, otpStore'', users'')
  end.

End Otp.


(** ** The chat window as the specification states it

    What the calls of a trace supply for a user, read off their arguments
    alone: the user an [appendChatMessage] call is made for, and its
    messages that count, those whose text is not empty once trimmed, with
    the role, metadata and time stamp they are to be stored with.  None of
    the functions of [user-context.js] is used here; the properties compare
    these definitions with what the code stores. *)

Module ChatWindowSpec.
Import Js UserContext.

(** The white space of a string: U+0009 to U+000D, U+0020 and U+00A0. *)
Definition whiteSpace : list N := [9; 10; 11; 12; 13; 32; 160]%N.

(** A text with nothing but white space in it, the empty text included. *)
Fixpoint blank (s : string) : bool :=
  match s with
  | EmptyString => true
  | String c r => bool_decide (N_of_ascii c ∈ whiteSpace) && blank r
  end.

(** The field [k] of an entry or of a user id, when it is an object that
    carries one and the field is truthy. *)
Definition supplied (v : jsval) (k : string) : option jsval :=
  match v with
  | VObj o =>
    match o !! k with
    | Some x => if truthy x then Some x else None
    | None => None
    end
  | _ => None
  end.

Definition isAssistant (r : option jsval) : bool :=
  match r with
  | Some (VStr s) => bool_decide (s = "assistant")
  | _ => false
  end.

Section WithRuntime.
Context `{Runtime}.

(** An identifier the driver accepts, as the ObjectId it stands for. *)
Definition accepted (v : jsval) : option ObjectId :=
  if ObjectId_isValid v then Some (ObjectId_new v) else None.

(** The user a call is made for: an ObjectId names its user, a non-empty
    string or an object with an [_id] the user the driver reads from it;
    nothing else names a user. *)
Definition userOf (userId : jsval) : option ObjectId :=
  match userId with
  | VOid u => Some u
  | VStr s => if bool_decide (s = "") then None else accepted userId
  | VObj _ => supplied userId "_id" ≫= accepted
  | _ => None
  end.

(** The text of an entry's message: the string it carries, or the
    rendering of another value. *)
Definition textOf (entry : jsval) : option string :=
  match supplied entry "message" with
  | Some (VStr s) => Some s
  | Some v => Some (toString_other v)
  | None => None
  end.

(** An entry as a message that counts: it has a text that is not blank;
    its role is user unless it says assistant. *)
Definition messageOf (now : Z) (entry : jsval) : option chat :=
  match textOf entry with
  | Some text =>
    if blank text then None
    else Some {| role := if isAssistant (supplied entry "role")
                         then "assistant" else "user";
                 message := text;
                 metadata := default (VObj ∅) (supplied entry "metadata");
                 timestamp := default (VDate now) (supplied entry "timestamp") |}
  | None => None
  end.

(** The messages of one call: of each element of an array, or of the one
    entry. *)
Definition messagesOf (now : Z) (chatEntry : jsval) : list chat :=
  omap (messageOf now)
    match chatEntry with
    | VArr entries => entries
    | entry => [entry]
    end.

(** The messages the [appendChatMessage] calls of a trace supply for the
    user [U], in the order of the calls and, within a call, of its
    entries. *)
Definition messagesFor (U : ObjectId) (trace : list (Z * call)) : list chat :=
  trace ≫= λ tc,
    match tc with
    | (now, Append userId chatEntry) =>
      if bool_decide (userOf userId = Some U) then messagesOf now chatEntry else []
    | _ => []
    end.

End WithRuntime.
End ChatWindowSpec.

(** ** Terms for the invariants of the context store *)

Module UserContextTerms.
Import Js UserContext.

(** The user id a call is made for. *)
Definition targetOf (c : call) : jsval :=
  match c with
  | Ensure userId _ | Update userId _ | Append userId _ | Fetch userId => userId
  end.

(** A stored chat entry as the append path writes it. *)
Definition wellFormedChat (e : chat) : Prop :=
  (role e = "user" ∨ role e = "assistant") ∧ trim (message e) ≠ "".

(** Clock readings that never go back, from [t] on. *)
Fixpoint nondecreasing (t : Z) (times : list Z) : Prop :=
  match times with
  | [] => True
  | t' :: rest => t ≤ t' ∧ nondecreasing t' rest
  end.

(** [sameIdentity st st']: every document of [st] is still stored in [st'],
    under the same key, with the same [userId] and [createdAt]. *)
Definition sameIdentity (st st' : state) : Prop :=
  ∀ id d, documentOf st id = Some d →
    ∃ d', documentOf st' id = Some d'
          ∧ doc_userId d' = doc_userId d ∧ doc_createdAt d' = doc_createdAt d.

(** Every document is stored under its own [userId]. *)
Definition keyedByUserId (st : state) : Prop :=
  ∀ id d, documentOf st id = Some d → doc_userId d = id.

(** Every document was created no later than it was last updated, and
    last updated no later than [t]. *)
Definition timestampsOrdered (t : Z) (st : state) : Prop :=
  ∀ id d, documentOf st id = Some d →
    doc_createdAt d ≤ doc_updatedAt d ∧ doc_updatedAt d ≤ t.

Definition chatsWellFormed (st : state) : Prop :=
  ∀ id, Forall wellFormedChat (chatsOf st id).

(** A location payload that [sanitizeLocation] rejects: anything but a
    plain object, or an object whose [address] and [raw] are falsy and whose
    coordinates are neither a number under [lat]/[lon] nor present under
    [latitude]/[longitude]. *)
Definition emptyLocation (location : jsval) : bool :=
  match location with
  | VObj o =>
    negb (truthy (prop o "address"))
    && negb (is_number (prop o "lat")) && nullish (prop o "latitude")
    && negb (is_number (prop o "lon")) && nullish (prop o "longitude")
    && negb (truthy (prop o "raw"))
  | _ => true
  end.

(** The profile [updateLocationAndWeather] reads from its payload, and
    whether it carries data. *)
Definition payloadProfile (payload : jsval) : jsval :=
  default_obj (get (default_obj payload) "profile").

Definition hasProfileData (payload : jsval) : bool :=
  truthy (payloadProfile payload) && anyProfileField (payloadProfile payload).

End UserContextTerms.

(** ** Terms for the passcode routes taken together *)

Module OtpTerms.
Import Otp.

(** A request to one of the two passcode routes. *)
Inductive request :=
| SendOtp (random : Q) (accepted : bool) (email : option string)
| VerifyOtp (body : verifyBody).

(** [otpStore] and the [users] collection after a request served at [now]. *)
Definition serve (cfg : config)
    (s : gmap string otpRecord * gmap string user) (tr : Z * request)
    : gmap string otpRecord * gmap string user :=
  match tr with
  | (now, SendOtp random accepted email) =>
    ((sendOtp cfg now random accepted email s.1).2, s.2)
  | (now, VerifyOtp body) =>
    let '(_, otpStore, users) := verifyOtp now body s.1 s.2 in (otpStore, users)
  end.

Definition serveAll (cfg : config) (requests : list (Z * request))
    : gmap string otpRecord * gmap string user :=
  foldl (serve cfg) (∅, ∅) requests.

(** The replies that sign a user in. *)
Definition signsIn (r : reply) : bool :=
  match r with
  | LoggedIn _ _ | Registered _ _ => true
  | _ => false
  end.

(** An e-mail the issuing route refuses. *)
Definition malformed (email : option string) : bool :=
  match email with
  | None => true
  | Some e => bool_decide (e = "") || negb (includesAt e)
  end.

(** An account and a pending passcode, for the examples. *)
Definition ramesh : user :=
  {| name := "Ramesh"; landSize := "2"; soilType := "black";
     createdAt := 5; lastLogin := 5 |}.

Definition pending : gmap string otpRecord :=
  {[ ("a@b.com" : string) :=
       {| otp := "550000"; expiresAt := 600000; attempts := 2 |} ]}.

End OtpTerms.

(** ** Terms for the outcomes of the weather provider *)

Module WeatherTerms.
Import Weather.

(** A call to the provider that yields no reading: [fetch] rejects, the
    status is outside 200..299, or the body cannot be used. *)
Definition failed (up : upstream) : bool :=
  match up with
  | FetchRejected => true
  | Responded code parsed =>
    negb ((200 <=? code) && (code <=? 299))
    || match parsed with None => true | Some _ => false end
  end.

(** The forecast of a reading, empty when it has none. *)
Definition forecastOfData (d : weatherData) : list forecastDay :=
  default [] (forecast d).

End WeatherTerms.

(** ** Speech synthesis: [tts.js]

    The text sent to Google Cloud Text-to-Speech is cut into requests of at
    most [MAX_CHARS_PER_REQUEST] characters, and the language tag picks the
    voice.  Lengths are JavaScript's: a string is its sequence of UTF-16
    code units. *)

Module Tts.

Abbreviation jsstring := (list N).

(** The code units of an ASCII literal. *)
Fixpoint lit (s : string) : jsstring :=
  match s with
  | EmptyString => []
  | String c r => N_of_ascii c :: lit r
  end.

(** What [\s] matches and [trim] removes: the white space and the line
    terminators of ECMAScript. *)
Definition isSpace (c : N) : bool :=
  ((c =? 0x9) || (c =? 0xa) || (c =? 0xb) || (c =? 0xc) || (c =? 0xd)
   || (c =? 0x20) || (c =? 0xa0) || (c =? 0x1680)
   || ((0x2000 <=? c) && (c <=? 0x200a))
   || (c =? 0x2028) || (c =? 0x2029) || (c =? 0x202f) || (c =? 0x205f)
   || (c =? 0x3000) || (c =? 0xfeff))%N.

Definition SPACE : N := 0x20.
Definition HYPHEN : N := 0x2d.

(** A string as a condition: the empty string is falsy. *)
Definition truthyStr (s : jsstring) : bool :=
  match s with
  | [] => false
  | _ :: _ => true
  end.

Definition startsWithSpace (s : jsstring) : bool :=
  match s with
  | [] => false
  | c :: _ => isSpace c
  end.

Fixpoint trimStart (s : jsstring) : jsstring :=
  match s with
  | [] => []
  | c :: r => if isSpace c then trimStart r else s
  end.

Fixpoint trimEnd (s : jsstring) : jsstring :=
  match s with
  | [] => []
  | c :: r =>
    match trimEnd r with
    | [] => if isSpace c then [] else [c]
    | r' => c :: r'
    end
  end.

(** [s.trim()] *)
Definition trim (s : jsstring) : jsstring := trimEnd (trimStart s).

(** [s.replace(/\s+/g, " ")]: every maximal run of white space becomes one
    space. *)
Fixpoint replaceSpaces (s : jsstring) : jsstring :=
  match s with
  | [] => []
  | c :: r =>
    if isSpace c then
      if startsWithSpace r then replaceSpaces r else SPACE :: replaceSpaces r
    else c :: replaceSpaces r
  end.

(** [s.split(/\s+/)]: the pieces between the maximal runs of white space;
    a run at the start or at the end leaves an empty piece there, and the
    empty string splits into one empty piece. *)
Fixpoint splitSpaces (s : jsstring) : list jsstring :=
  match s with
  | [] => [[]]
  | c :: r =>
    if isSpace c then
      if startsWithSpace r then splitSpaces r else [] :: splitSpaces r
    else
      match splitSpaces r with
      | w :: ws => (c :: w) :: ws
      | [] => [[c]]
      end
  end.

Definition MAX_CHARS_PER_REQUEST : nat := 4500.

(** One turn of the loop of [chunkText] over [parts] and [current]. *)
Definition chunkStep (st : list jsstring * jsstring) (word : jsstring)
    : list jsstring * jsstring :=
  let '(parts, current) := st in
  let candidate := if truthyStr current then current ++ SPACE :: word else word in
  if (MAX_CHARS_PER_REQUEST <? length candidate)%nat then
    (if truthyStr current then parts ++ [current] else parts, word)
  else (parts, candidate).

(** [chunkText(input)] *)
Definition chunkText (input : jsstring) : list jsstring :=
  if (length input <=? MAX_CHARS_PER_REQUEST)%nat then [input]
  else
    let '(parts, current) := foldl chunkStep ([], []) (splitSpaces input) in
    if truthyStr current then parts ++ [current] else parts.

(** [const trimmed = text.trim().replace(/\s+/g, " ")] of [generateSpeech]. *)
Definition trimmed (text : jsstring) : jsstring := replaceSpaces (trim text).

(** ** Language and voice *)

Record voice := {
  languageCode : string;
  voiceName : string;
  ssmlGender : string
}.

Definition standardA (code : string) : voice :=
  {| languageCode := code +:+ "-IN"; voiceName := code +:+ "-IN-Standard-A";
     ssmlGender := "FEMALE" |}.

Definition DEFAULT_VOICE : voice :=
  {| languageCode := "en-IN"; voiceName := "en-IN-Neural2-C";
     ssmlGender := "FEMALE" |}.

Definition LANGUAGE_ALIASES : list (string * string) :=
  [("hi", "hi"); ("hi-in", "hi"); ("mr", "mr"); ("mr-in", "mr"); ("ml", "ml");
   ("ml-in", "ml"); ("en", "en"); ("en-in", "en"); ("en-us", "en"); ("bn", "bn");
   ("ta", "ta"); ("te", "te"); ("kn", "kn"); ("gu", "gu"); ("or", "or");
   ("as", "as")].

Definition VOICE_PREFERENCES : list (string * voice) :=
  [("hi", standardA "hi"); ("mr", standardA "mr"); ("ml", standardA "ml");
   ("en", DEFAULT_VOICE); ("bn", standardA "bn"); ("ta", standardA "ta");
   ("te", standardA "te"); ("kn", standardA "kn"); ("gu", standardA "gu");
   ("or", standardA "or"); ("as", standardA "as")].

(** The properties every object literal inherits from [Object.prototype];
    all of them are truthy. *)
Definition objectPrototype : list string :=
  ["constructor"; "__defineGetter__"; "__defineSetter__"; "hasOwnProperty";
   "__lookupGetter__"; "__lookupSetter__"; "isPrototypeOf";
   "propertyIsEnumerable"; "toString"; "valueOf"; "__proto__";
   "toLocaleString"].

(** What [table[key]] evaluates to on an object literal. *)
Inductive property (A : Type) :=
| Own (a : A)
| Inherited (name : jsstring)
| Absent.
Arguments Own {A} a.
Arguments Inherited {A} name.
Arguments Absent {A}.

Fixpoint own {A} (table : list (string * A)) (key : jsstring) : option A :=
  match table with
  | [] => None
  | (k, a) :: rest => if bool_decide (lit k = key) then Some a else own rest key
  end.

Definition inherited (key : jsstring) : bool :=
  bool_decide (key ∈ lit <$> objectPrototype).

Definition getProperty {A} (table : list (string * A)) (key : jsstring) : property A :=
  match own table key with
  | Some a => Own a
  | None => if inherited key then Inherited key else Absent
  end.

(** [String.prototype.toLowerCase], left to the engine. *)
Class Engine := toLowerCase : jsstring → jsstring.

(** What [normalizeLanguage] returns: a language code, a member of
    [Object.prototype] picked up by [LANGUAGE_ALIASES[...]], or nothing. *)
Inductive language :=
| Code (code : jsstring)
| Member (name : jsstring)
| Undefined.

Definition includes (c : N) (s : jsstring) : bool := bool_decide (c ∈ s).

(** [s.split("-")[0]] *)
Fixpoint beforeHyphen (s : jsstring) : jsstring :=
  match s with
  | [] => []
  | c :: r => if bool_decide (c = HYPHEN) then [] else c :: beforeHyphen r
  end.

Section WithEngine.
Context `{Engine}.

(** The part the versions of [normalizeLanguage] share; [rest] is what comes
    after the test for a hyphen.  [lang] is [None] for a value that is not
    a string, [undefined] included, which the default replaces by "hi". *)
Definition normalizeLanguageWith (rest : jsstring → language)
    (lang : option jsstring) : language :=
  match lang with
  | None => Code (lit "hi")
  | Some lang =>
    if negb (truthyStr lang) then Code (lit "hi")
    else
      let trimmed := toLowerCase (trim lang) in
      match getProperty LANGUAGE_ALIASES trimmed with
      | Own code => Code (lit code)
      | Inherited name => Member name
      | Absent =>
        if includes HYPHEN trimmed then
          let short := beforeHyphen trimmed in
          match getProperty LANGUAGE_ALIASES short with
          | Own code => Code (lit code)
          | Inherited name => Member name
          | Absent =>
            if (length short =? 2)%nat then Code short else rest trimmed
          end
        else rest trimmed
      end
  end.

(** [normalizeLanguage] of the first version of [tts.js], which ends after
    the test for a hyphen. *)
Definition normalizeLanguage_v1 : option jsstring → language :=
  normalizeLanguageWith (λ _, Undefined).

(** [normalizeLanguage] of the second version, which ends in
    [return trimmed.length === 2 ? trimmed : "hi"]. *)
Definition normalizeLanguage : option jsstring → language :=
  normalizeLanguageWith
    (λ trimmed, if (length trimmed =? 2)%nat then Code trimmed else Code (lit "hi")).

End WithEngine.

(** What [resolveVoice] returns: a voice, or a member of [Object.prototype]
    picked up by [VOICE_PREFERENCES[...]]. *)
Inductive resolved :=
| Voice (v : voice)
| VoiceMember (name : jsstring).

(** [resolveVoice(langCode)].  A [langCode] that is not a string is turned
    into a property key first: "undefined", or the text of a function or of
    an object, none of which is a property of [VOICE_PREFERENCES]. *)
Definition resolveVoice (langCode : language) : resolved :=
  match langCode with
  | Code code =>
    match getProperty VOICE_PREFERENCES code with
    | Own v => Voice v
    | Inherited name => VoiceMember name
    | Absent => Voice DEFAULT_VOICE
    end
  | Member _ | Undefined => Voice DEFAULT_VOICE
  end.

(** Lower case for the letters A to Z, as an engine for the examples. *)
Definition asciiLower (s : jsstring) : jsstring :=
  (λ c, if (0x41 <=? c) && (c <=? 0x5a) then c + 0x20 else c)%N <$> s.

Definition asciiEngine : Engine := asciiLower.

(** Vocabulary of the statements about chunks. *)

(** The words of a text: its pieces between white space that are not
    empty. *)
Definition words (s : jsstring) : list jsstring :=
  filter (λ w, w ≠ []) (splitSpaces s).

(** [ws.join(" ")] *)
Fixpoint unwords (ws : list jsstring) : jsstring :=
  match ws with
  | [] => []
  | [w] => w
  | w :: rest => w ++ SPACE :: unwords rest
  end.

(** What the loop of [chunkText] leaves when it ends. *)
Definition finish (st : list jsstring * jsstring) : list jsstring :=
  if truthyStr st.2 then st.1 ++ [st.2] else st.1.

(** [current] as the chunk it will make, if any. *)
Definition opt (current : jsstring) : list jsstring :=
  if truthyStr current then [current] else [].

Definition spaceFree (w : jsstring) : bool := forallb (λ c, negb (isSpace c)) w.

(** A text of 1000 words of five characters. *)
Definition longText : jsstring :=
  unwords (replicate 1000 (lit "kisan")).

End Tts.

(** * Properties *)

(** ** The user context store *)

Module UserContextFacts.
Import Js UserContext.

(** *** Running the monad *)

Lemma run_bind {A B} (m : M A) (f : A → M B) (st : state) :
  (m ≫= f) st =
    match m st with
    | (Return a, st') => f a st'
    | (Throw e, st') => (Throw e, st')
    end.
Proof. reflexivity. Qed.

Lemma run_ret {A} (a : A) (st : state) : (mret a : M A) st = (Return a, st).
Proof. reflexivity. Qed.

Lemma run_getCollection c : getCollection (Some c) = (Return (), Some c).
Proof. reflexivity. Qed.

Lemma run_findOne id c : findOne id (Some c) = (Return (c !! id), Some c).
Proof. reflexivity. Qed.

Lemma run_updateOne_set id f c :
  updateOne_set id f (Some c) = (Return (), Some (alter f id c)).
Proof. reflexivity. Qed.

Lemma run_updateOne_setOnInsert id d c :
  updateOne_setOnInsert id d (Some c) =
    (Return (), Some (match c !! id with Some _ => c | None => <[id := d]> c end)).
Proof. reflexivity. Qed.

Lemma run_lift {A} (o : outcome A) (st : state) : lift o st = (o, st).
Proof. reflexivity. Qed.

Lemma run_throw {A} (e : error) (st : state) : throw (A := A) e st = (Throw e, st).
Proof. reflexivity. Qed.

Ltac run :=
  repeat (rewrite ?run_bind, ?run_ret, ?run_getCollection, ?run_findOne,
            ?run_updateOne_set, ?run_updateOne_setOnInsert, ?run_lift,
            ?run_throw; cbn beta iota).

Lemma get_empty k : get (VObj ∅) k = VUndefined.
Proof. unfold get, prop. by rewrite lookup_empty. Qed.

Lemma anyProfileField_empty : anyProfileField (VObj ∅) = false.
Proof. unfold anyProfileField. by rewrite !get_empty. Qed.

Lemma default_obj_idemp v : default_obj (default_obj v) = default_obj v.
Proof. by destruct v. Qed.

Section Facts.
Context `{Runtime}.

(** [sanitizeProfile(profile, profile)]: the profile's own properties, and
    [null] for each of the four standard fields it lacks. *)
Lemma sanitizeProfile_self profile :
  nullish profile = false →
  sanitizeProfile profile profile = Return (ownProps profile ∪ nullProfile).
Proof.
  intros Hp. unfold sanitizeProfile.
  assert (Hd : default_obj profile = profile) by (by destruct profile).
  rewrite Hd, Hp. f_equal.
  destruct profile; try reflexivity.
  cbn [ownProps get]. apply map_eq. intros k.
  rewrite !lookup_union. destruct (o !! k) as [v|] eqn:Hk; [by rewrite !union_Some_l|].
  simpl. unfold nullProfile, prop. rewrite !lookup_insert.
  repeat case_decide; subst; rewrite ?Hk; done.
Qed.

Lemma sanitizeProfile_null : sanitizeProfile VNull VNull = Throw TypeError.
Proof. reflexivity. Qed.

Lemma ensureUserContext_invalid now userId profile c :
  normalizeObjectId userId = None →
  ensureUserContext now userId profile (Some c) = (Return None, Some c).
Proof. intros Hid. unfold ensureUserContext. run. by rewrite Hid. Qed.

Lemma ensureUserContext_null now userId id c :
  normalizeObjectId userId = Some id →
  ensureUserContext now userId VNull (Some c) = (Throw TypeError, Some c).
Proof. intros Hid. unfold ensureUserContext. run. by rewrite Hid. Qed.

Lemma ensureUserContext_existing now userId profile c id d :
  normalizeObjectId userId = Some id → c !! id = Some d →
  profile ≠ VNull →
  ensureUserContext now userId profile (Some c) =
    (Return (Some id),
     Some (<[id := set_profile (ownProps (default_obj profile) ∪ nullProfile) now d]> c)).
Proof.
  intros Hid Hd Hp. unfold ensureUserContext. run. rewrite Hid.
  rewrite sanitizeProfile_self by (by destruct profile).
  run. rewrite Hd. run. do 2 f_equal.
  apply map_eq. intros k. rewrite lookup_alter, lookup_insert.
  case_decide; [subst; by rewrite Hd|done].
Qed.

Lemma ensureUserContext_absent now userId profile c id :
  normalizeObjectId userId = Some id → c !! id = None →
  profile ≠ VNull →
  ensureUserContext now userId profile (Some c) =
    (Return (Some id),
     Some (<[id := newDocument id (ownProps (default_obj profile) ∪ nullProfile) now]> c)).
Proof.
  intros Hid Hd Hp. unfold ensureUserContext. run. rewrite Hid.
  rewrite sanitizeProfile_self by (by destruct profile).
  run. rewrite Hd. run. by rewrite Hd.
Qed.


(** *** Location and weather *)

Lemma sanitizeLocation_omitted now : sanitizeLocation now VUndefined = None.
Proof. reflexivity. Qed.

(** A location whose address, coordinates and raw text are absent or
    [null] is rejected. *)
Lemma sanitizeLocation_empty now o :
  nullish (prop o "address") = true →
  nullish (prop o "lat") = true → nullish (prop o "latitude") = true →
  nullish (prop o "lon") = true → nullish (prop o "longitude") = true →
  nullish (prop o "raw") = true →
  sanitizeLocation now (VObj o) = None.
Proof.
  intros Ha Hlat Hlatitude Hlon Hlongitude Hraw.
  unfold sanitizeLocation. cbn [default_obj truthy is_object negb orb get].
  assert (Hn : ∀ v, nullish v = true → is_number v = false ∧ or_else v VNull = VNull
                     ∧ coalesce v VNull = VNull).
  { by intros []. }
  apply Hn in Ha as (_ & Ha & _). apply Hn in Hlat as (Hlat & _ & _).
  apply Hn in Hlatitude as (_ & _ & Hlatitude). apply Hn in Hlon as (Hlon & _ & _).
  apply Hn in Hlongitude as (_ & _ & Hlongitude). apply Hn in Hraw as (_ & Hraw & _).
  cbn [address latitude longitude raw].
  by rewrite Ha, Hlat, Hlatitude, Hlon, Hlongitude, Hraw.
Qed.

(** [sanitizeWeather] never rejects an object: the default source ['app']
    makes every sanitised record count as meaningful. *)
Lemma sanitizeWeather_object now o : is_Some (sanitizeWeather now (VObj o)).
Proof.
  unfold sanitizeWeather. cbn [default_obj truthy is_object negb orb].
  cbn [existsb temperature humidity condition windSpeed precipitationProbability source].
  assert (Hs : ∀ v, let s := or_else v (VStr "app") in
            negb (is_null s) && negb (is_undefined s) = true).
  { intros v. unfold or_else. destruct v; try done; cbn; by case_match. }
  rewrite Hs, !orb_true_r. cbn. eauto.
Qed.

Lemma sanitizeWeather_omitted now :
  sanitizeWeather now VUndefined = Some (blankWeather now).
Proof. reflexivity. Qed.

Lemma sanitizeWeather_blank now :
  sanitizeWeather now (VObj ∅) = Some (blankWeather now).
Proof. reflexivity. Qed.

(** A call that carries neither a profile, a location nor a weather
    payload, for a user who has a document. *)
Lemma updateLocationAndWeather_omitted now userId payload c id d :
  normalizeObjectId userId = Some id → c !! id = Some d →
  payload = VUndefined ∨ payload = VObj ∅ →
  updateLocationAndWeather now userId payload (Some c) =
    (Return (Some (set_location_weather None (Some (blankWeather now)) now d)),
     Some (<[id := set_location_weather None (Some (blankWeather now)) now d]> c)).
Proof.
  intros Hid Hd Hp.
  assert (Hpay : default_obj payload = VObj ∅) by (by destruct Hp as [-> | ->]).
  unfold updateLocationAndWeather. rewrite Hpay. cbn [is_null]. run. rewrite Hid.
  rewrite !get_empty. cbn [default_obj]. rewrite anyProfileField_empty.
  cbn [truthy andb].
  run. rewrite Hd. run.
  rewrite sanitizeLocation_omitted, sanitizeWeather_omitted.
  rewrite lookup_alter, decide_True by done. rewrite Hd. cbn [fmap option_fmap option_map].
  do 3 f_equal. apply map_eq. intros k. rewrite lookup_alter, lookup_insert.
  case_decide; [subst; by rewrite Hd|done].
Qed.


(** *** The chat window *)

Lemma slice_last_length {A} n (l : list A) :
  length (slice_last n l) = Nat.min (length l) n.
Proof. unfold slice_last. rewrite length_drop. lia. Qed.

(** Trimming after every push keeps what one trim at the end keeps. *)
Lemma slice_last_push {A} n (l k : list A) :
  slice_last n (slice_last n l ++ k) = slice_last n (l ++ k).
Proof.
  unfold slice_last. rewrite !length_app, length_drop.
  set (a := (length l - n)%nat).
  transitivity (drop (length l + length k - n) ((take a l ++ drop a l) ++ k));
    [|by rewrite take_drop].
  rewrite <- (assoc_L (++)).
  rewrite (drop_app_ge (take a l)) by (rewrite length_take; lia).
  f_equal. rewrite length_take. lia.
Qed.

Lemma chatsOf_alter f id c j :
  (∀ d, doc_chats (f d) = doc_chats d) →
  chatsOf (Some (alter f id c)) j = chatsOf (Some c) j.
Proof.
  intros Hf. unfold chatsOf, documentOf. cbn. rewrite lookup_alter.
  case_decide; [subst|done]. destruct (c !! j); cbn; [apply Hf|done].
Qed.

Lemma chatsOf_insert_new id d c j :
  c !! id = None → doc_chats d = [] →
  chatsOf (Some (<[id := d]> c)) j = chatsOf (Some c) j.
Proof.
  intros Hc Hd. unfold chatsOf, documentOf. cbn. rewrite lookup_insert.
  case_decide; [subst|done]. by rewrite Hc.
Qed.

Lemma sameChats_refl st : sameChats st st.
Proof. by split. Qed.

Lemma sameChats_trans st1 st2 st3 :
  sameChats st1 st2 → sameChats st2 st3 → sameChats st1 st3.
Proof.
  intros [Hi1 Hc1] [Hi2 Hc2]. split; [auto|].
  intros id. by rewrite Hc2, Hc1.
Qed.

Lemma frames_ret {A} (a : A) : frames sameChats (mret a : M A).
Proof. intros st. apply sameChats_refl. Qed.

Lemma frames_throw {A} e : frames sameChats (throw (A := A) e).
Proof. intros st. apply sameChats_refl. Qed.

Lemma frames_lift {A} (o : outcome A) : frames sameChats (lift o).
Proof. intros st. apply sameChats_refl. Qed.

Lemma frames_bind {A B} (m : M A) (f : A → M B) :
  frames sameChats m → (∀ a, frames sameChats (f a)) →
  frames sameChats (m ≫= f).
Proof.
  intros Hm Hf st. rewrite run_bind. specialize (Hm st).
  destruct (m st) as [[a|e] st']; [|done].
  eapply sameChats_trans; [exact Hm|apply Hf].
Qed.

Lemma frames_withCollection {A} (f : gmap string document → outcome A * gmap string document) :
  (∀ c j, chatsOf (Some (f c).2) j = chatsOf (Some c) j) →
  frames sameChats (withCollection f).
Proof.
  intros Hf [c|]; [|apply sameChats_refl].
  unfold withCollection. specialize (Hf c). destruct (f c) as [r c'].
  split; [by eauto|]. exact Hf.
Qed.

Lemma frames_getCollection : frames sameChats getCollection.
Proof. by apply frames_withCollection. Qed.

Lemma frames_findOne id : frames sameChats (findOne id).
Proof. by apply frames_withCollection. Qed.

Lemma frames_updateOne_set id f :
  (∀ d, doc_chats (f d) = doc_chats d) →
  frames sameChats (updateOne_set id f).
Proof. intros Hf. apply frames_withCollection. intros c j. by apply chatsOf_alter. Qed.

Lemma frames_updateOne_setOnInsert id d :
  doc_chats d = [] → frames sameChats (updateOne_setOnInsert id d).
Proof.
  intros Hd. apply frames_withCollection. intros c j. cbn.
  destruct (c !! id) eqn:Hc; [done|]. by apply chatsOf_insert_new.
Qed.

Create HintDb frames.
#[local] Hint Resolve frames_ret frames_throw frames_lift frames_getCollection
  frames_findOne frames_updateOne_set frames_updateOne_setOnInsert : frames.

Lemma frames_ensureUserContext now userId profile :
  frames sameChats (ensureUserContext now userId profile).
Proof.
  unfold ensureUserContext.
  apply frames_bind; [auto with frames|intros _].
  destruct (normalizeObjectId userId) as [id|]; [|auto with frames].
  apply frames_bind; [auto with frames|intros p].
  apply frames_bind; [auto with frames|intros existing].
  apply frames_bind; [|auto with frames].
  destruct existing; auto with frames.
Qed.

Lemma frames_updateLocationAndWeather now userId payload :
  frames sameChats (updateLocationAndWeather now userId payload).
Proof.
  unfold updateLocationAndWeather.
  destruct (is_null (default_obj payload)); [auto with frames|].
  apply frames_bind; [auto with frames|intros _].
  destruct (normalizeObjectId userId) as [id|]; [|auto with frames].
  apply frames_bind.
  - case_match.
    + apply frames_bind; [apply frames_ensureUserContext|auto with frames].
    + apply frames_bind; [auto with frames|intros existing].
      destruct existing; auto with frames.
  - intros _. apply frames_bind; [|auto with frames].
    apply frames_updateOne_set. by intros d.
Qed.

Lemma frames_fetchUserContext userId :
  frames sameChats (fetchUserContext userId).
Proof.
  unfold fetchUserContext.
  apply frames_bind; [auto with frames|intros _].
  destruct (normalizeObjectId userId); auto with frames.
Qed.

(** The collection after [appendChatMessage]: the document is there, and
    the entries that pass the filter, if any, are pushed and trimmed. *)
Lemma appendChatMessage_state now userId chatEntry c id :
  normalizeObjectId userId = Some id →
  ∃ c1 d1,
    (c !! id = None ∨ c1 = c) ∧
    (∀ j, chatsOf (Some c1) j = chatsOf (Some c) j) ∧
    c1 !! id = Some d1 ∧
    appendChatMessage now userId chatEntry (Some c) =
      match entriesOf now chatEntry with
      | [] => (Return (Some (project d1)), Some c1)
      | entries =>
        (Return (Some (project (push_chats entries now d1))),
         Some (<[id := push_chats entries now d1]> c1))
      end.
Proof.
  intros Hid.
  assert (Hentries : entriesOf now (default_obj chatEntry) = entriesOf now chatEntry).
  { unfold entriesOf, entryList. by rewrite default_obj_idemp. }
  assert (Hfin : ∀ c1 d1, c1 !! id = Some d1 →
    (match entriesOf now chatEntry with
     | [] => findOne_chats id
     | _ :: _ =>
       updateOne_set id (push_chats (entriesOf now chatEntry) now);;
       findOne_chats id
     end) (Some c1) =
    match entriesOf now chatEntry with
    | [] => (Return (Some (project d1)), Some c1)
    | entries =>
      (Return (Some (project (push_chats entries now d1))),
       Some (<[id := push_chats entries now d1]> c1))
    end).
  { intros c1 d1 Hd1. destruct (entriesOf now chatEntry) as [|e es].
    - unfold findOne_chats. run. by rewrite Hd1.
    - unfold findOne_chats. run.
      rewrite lookup_alter, decide_True by done. rewrite Hd1. cbn.
      do 2 f_equal. apply map_eq. intros k. rewrite lookup_alter, lookup_insert.
      case_decide; [subst; by rewrite Hd1|done]. }
  unfold appendChatMessage. run. rewrite Hid. run. rewrite Hentries.
  destruct (c !! id) as [d|] eqn:Hd.
  - exists c, d. split_and!.
    + by right.
    + done.
    + done.
    + run. by apply Hfin.
  - set (sampleEntry := match default_obj chatEntry with
                        | VArr l => default VUndefined (head l)
                        | _ => default_obj chatEntry
                        end).
    set (profile := or_else (get_opt sampleEntry "profile") (VObj ∅)).
    assert (Hprofile : nullish profile = false).
    { unfold profile, or_else.
      destruct (truthy (get_opt sampleEntry "profile")) eqn:Ht; [|done].
      by destruct (get_opt sampleEntry "profile"). }
    set (p := if anyProfileField profile then ownProps profile ∪ nullProfile
              else nullProfile).
    exists (<[id := newDocument id p now]> c), (newDocument id p now).
    split_and!.
    + by left.
    + intros j. by apply chatsOf_insert_new.
    + by rewrite lookup_insert_eq.
    + unfold p. destruct (anyProfileField profile).
      * rewrite sanitizeProfile_self by done. run. rewrite Hd.
        apply Hfin. by rewrite lookup_insert_eq.
      * run. rewrite Hd. apply Hfin. by rewrite lookup_insert_eq.
Qed.


Lemma after_frames c tc :
  (∀ userId chatEntry, tc.2 ≠ Append userId chatEntry) →
  sameChats (Some c) (after (Some c) tc).
Proof.
  destruct tc as [now [userId profile|userId payload|userId chatEntry|userId]];
    intros Hna; cbn.
  - apply frames_ensureUserContext.
  - apply frames_updateLocationAndWeather.
  - by destruct (Hna userId chatEntry).
  - apply frames_fetchUserContext.
Qed.

Lemma after_append_invalid now userId chatEntry c :
  normalizeObjectId userId = None →
  after (Some c) (now, Append userId chatEntry) = Some c.
Proof. intros Hid. cbn. unfold appendChatMessage. run. by rewrite Hid. Qed.

Lemma after_append now userId chatEntry c id :
  normalizeObjectId userId = Some id →
  ∃ c', after (Some c) (now, Append userId chatEntry) = Some c' ∧
    ∀ j, chatsOf (Some c') j =
      if decide (j = id)
      then match entriesOf now chatEntry with
           | [] => chatsOf (Some c) j
           | entries => slice_last 5 (chatsOf (Some c) j ++ entries)
           end
      else chatsOf (Some c) j.
Proof.
  intros Hid.
  destruct (appendChatMessage_state now userId chatEntry c id Hid)
    as (c1 & d1 & _ & Hc1 & Hd1 & Hrun).
  cbn [after]. rewrite Hrun.
  assert (Hchats : doc_chats d1 = chatsOf (Some c) id).
  { rewrite <- Hc1. unfold chatsOf, documentOf. cbn. by rewrite Hd1. }
  destruct (entriesOf now chatEntry) as [|e es].
  - exists c1. split; [done|]. intros j. rewrite Hc1. by case_decide.
  - eexists. split; [done|]. intros j. case_decide as Hj.
    + subst j. unfold chatsOf at 1, documentOf. cbn.
      rewrite lookup_insert_eq. cbn. by rewrite Hchats.
    + rewrite <- Hc1. unfold chatsOf, documentOf. cbn.
      by rewrite lookup_insert_ne.
Qed.

Lemma run_snoc st trace tc : run st (trace ++ [tc]) = after (run st trace) tc.
Proof. unfold run. by rewrite foldl_app. Qed.

Lemma appended_snoc id trace tc :
  appended id (trace ++ [tc]) = appended id trace ++ appended id [tc].
Proof. unfold appended. by rewrite map_app, concat_app. Qed.

Lemma appended_append id now userId chatEntry :
  appended id [(now, Append userId chatEntry)] =
    if bool_decide (normalizeObjectId userId = Some id)
    then entriesOf now chatEntry else [].
Proof. unfold appended. cbn. by rewrite app_nil_r. Qed.

(** Every state reached from the empty collection holds, for every user,
    the last five of the messages appended for that user. *)
Lemma run_chats trace :
  ∃ c, run (Some ∅) trace = Some c ∧
       ∀ id, chatsOf (Some c) id = slice_last 5 (appended id trace).
Proof.
  induction trace as [|tc trace IH] using rev_ind.
  - exists ∅. split; [done|]. intros id. unfold chatsOf, documentOf. cbn.
    by rewrite lookup_empty.
  - destruct IH as (c & Hrun & Hchats). rewrite run_snoc, Hrun.
    assert (Hother : (∀ userId chatEntry, tc.2 ≠ Append userId chatEntry) →
      ∃ c', after (Some c) tc = Some c' ∧
        ∀ id, chatsOf (Some c') id = slice_last 5 (appended id (trace ++ [tc]))).
    { intros Hna. destruct (after_frames c tc Hna) as [Hinit Hsame].
      destruct (Hinit ltac:(eauto)) as [c' Hc']. exists c'. split; [done|].
      intros id. rewrite <- Hc', Hsame, Hchats, appended_snoc.
      destruct tc as [now []]; cbn; rewrite ?app_nil_r; try done.
      by destruct (Hna userId chatEntry). }
    destruct tc as [now [userId profile|userId payload|userId chatEntry|userId]];
      try (by apply Hother).
    clear Hother.
    destruct (normalizeObjectId userId) as [j|] eqn:Hid.
    + destruct (after_append now userId chatEntry c j Hid) as (c' & Hc' & Hafter).
      exists c'. split; [done|]. intros id.
      rewrite Hafter, appended_snoc, appended_append, Hid.
      case_decide as Hj.
      * subst id. rewrite bool_decide_eq_true_2 by done. rewrite Hchats.
        destruct (entriesOf now chatEntry) as [|e es] eqn:He.
        -- by rewrite app_nil_r.
        -- by rewrite slice_last_push.
      * rewrite bool_decide_eq_false_2 by congruence.
        by rewrite app_nil_r, Hchats.
    + rewrite after_append_invalid by done. exists c. split; [done|].
      intros id. rewrite appended_snoc, appended_append, Hid.
      rewrite bool_decide_eq_false_2 by done. by rewrite app_nil_r, Hchats.
Qed.

(** *** The code against the specification's reading of a call *)

Lemma isWhiteSpace_listed c :
  isWhiteSpace c = bool_decide (N_of_ascii c ∈ ChatWindowSpec.whiteSpace).
Proof.
  unfold isWhiteSpace, ChatWindowSpec.whiteSpace.
  destruct (bool_decide _) eqn:Hin.
  - apply bool_decide_eq_true in Hin.
    repeat (apply elem_of_cons in Hin as [->|Hin]; [done|]).
    by apply elem_of_nil in Hin.
  - apply bool_decide_eq_false in Hin.
    rewrite !not_elem_of_cons in Hin.
    destruct Hin as (?&?&?&?&?&?&?&_).
    apply orb_false_iff; split; [apply orb_false_iff; split|]; [|by apply N.eqb_neq..].
    apply andb_false_iff.
    destruct (N.leb_spec 9 (N_of_ascii c)); [right|by left].
    apply N.leb_gt. lia.
Qed.

Lemma blank_trimStart s : ChatWindowSpec.blank (trimStart s) = ChatWindowSpec.blank s.
Proof.
  induction s as [|c r IH]; [done|]. cbn [trimStart].
  destruct (isWhiteSpace c) eqn:Hc; [|done].
  cbn [ChatWindowSpec.blank]. by rewrite <- isWhiteSpace_listed, Hc.
Qed.

Lemma trimStart_empty s : trimStart s = "" ↔ ChatWindowSpec.blank s = true.
Proof.
  induction s as [|c r IH]; [done|]. cbn [trimStart ChatWindowSpec.blank].
  rewrite <- isWhiteSpace_listed. by destruct (isWhiteSpace c).
Qed.

Lemma blank_rev_app s1 s2 :
  ChatWindowSpec.blank (String.rev_app s1 s2)
  = ChatWindowSpec.blank s1 && ChatWindowSpec.blank s2.
Proof.
  revert s2. induction s1 as [|c r IH]; intros s2; [done|].
  cbn [String.rev_app ChatWindowSpec.blank]. rewrite IH. cbn [ChatWindowSpec.blank].
  by destruct (bool_decide _), (ChatWindowSpec.blank r).
Qed.

Lemma rev_empty s : String.rev s = "" ↔ s = "".
Proof.
  unfold String.rev. split; [|by intros ->].
  assert (Hlen : ∀ s1 s2, String.rev_app s1 s2 = "" → s1 = "").
  { induction s1 as [|c r IH]; [done|]. intros s2 Hr. cbn in Hr.
    by apply IH in Hr as Hnil; subst r. }
  apply Hlen.
Qed.

(** Trimming leaves nothing exactly of the blank texts. *)
Lemma trim_empty s : trim s = "" ↔ ChatWindowSpec.blank s = true.
Proof.
  unfold trim, trimEnd. rewrite rev_empty, trimStart_empty.
  unfold String.rev. by rewrite blank_rev_app, andb_true_r, blank_trimStart.
Qed.

(** The filter of [appendChatMessage] keeps exactly the texts that are not
    blank. *)
Lemma nonEmpty_not_blank e : nonEmpty e = negb (ChatWindowSpec.blank (message e)).
Proof.
  unfold nonEmpty. destruct (message e) as [|c r] eqn:Hm; [done|].
  rewrite bool_decide_eq_false_2 by done. cbn [negb andb].
  destruct (ChatWindowSpec.blank (String c r)) eqn:Hb.
  - apply trim_empty in Hb. by rewrite Hb.
  - destruct (trim (String c r)) eqn:Ht; [|done].
    apply trim_empty in Ht. congruence.
Qed.

Lemma role_assistant v :
  match v with VStr "assistant" => "assistant" | _ => "user" end
  = if ChatWindowSpec.isAssistant (Some v) then "assistant" else "user".
Proof.
  destruct v as [| |b|q| |s|t|i|l|o]; try done. cbn [ChatWindowSpec.isAssistant].
  case_bool_decide as Hs; [by subst s|].
  repeat (destruct s as [|[[] [] [] [] [] [] [] []] s]; try done).
Qed.

Lemma get_opt_supplied o k :
  ChatWindowSpec.supplied (VObj o) k
  = if truthy (get_opt (VObj o) k) then Some (get_opt (VObj o) k) else None.
Proof.
  unfold ChatWindowSpec.supplied, get_opt, get, prop. cbn [nullish].
  by destruct (o !! k).
Qed.

Lemma get_opt_primitive v k :
  (∀ o, v ≠ VObj o) → get_opt v k = VUndefined ∧ ChatWindowSpec.supplied v k = None.
Proof. intros Hv. destruct v; try done. by destruct (Hv o). Qed.

(** One entry: the map and the filter of [appendChatMessage] keep it, as
    the record they make of it, exactly when it is a message that counts,
    and make of it the message the specification describes. *)
Lemma normalizeEntry_messageOf now entry :
  (if nonEmpty (normalizeEntry now entry) then Some (normalizeEntry now entry) else None)
  = ChatWindowSpec.messageOf now entry.
Proof.
  rewrite nonEmpty_not_blank. unfold ChatWindowSpec.messageOf, ChatWindowSpec.textOf.
  destruct entry as [| |b|q| |s|t|i|l|o]; try done.
  unfold normalizeEntry, messageText. cbn [message].
  rewrite !get_opt_supplied.
  destruct (truthy (get_opt (VObj o) "message")) eqn:Hm; [|done].
  assert (Htext : toString (get (VObj o) "message")
    = match get_opt (VObj o) "message" with
      | VStr s => s
      | v => toString_other v
      end) by (unfold get_opt; cbn; by destruct (prop o "message")).
  rewrite Htext.
  assert (Hrec : ∀ text,
    {| role := match get_opt (VObj o) "role" with
               | VStr "assistant" => "assistant"
               | _ => "user"
               end;
       message := text;
       metadata := or_else (get_opt (VObj o) "metadata") (VObj ∅);
       timestamp := or_else (get_opt (VObj o) "timestamp") (VDate now) |}
    = {| role := if ChatWindowSpec.isAssistant
                      (if truthy (get_opt (VObj o) "role")
                       then Some (get_opt (VObj o) "role") else None)
                 then "assistant" else "user";
         message := text;
         metadata := default (VObj ∅)
                       (if truthy (get_opt (VObj o) "metadata")
                        then Some (get_opt (VObj o) "metadata") else None);
         timestamp := default (VDate now)
                        (if truthy (get_opt (VObj o) "timestamp")
                         then Some (get_opt (VObj o) "timestamp") else None) |}).
  { intros text. f_equal.
    - rewrite role_assistant.
      destruct (truthy (get_opt (VObj o) "role")) eqn:Hr; [done|].
      destruct (get_opt (VObj o) "role") as [| |b|q| |s|t|i|l|o']; try done.
      cbn in Hr |- *. apply negb_false_iff, bool_decide_eq_true in Hr. by subst s.
    - unfold or_else. by destruct (truthy (get_opt (VObj o) "metadata")).
    - unfold or_else. by destruct (truthy (get_opt (VObj o) "timestamp")). }
  destruct (get_opt (VObj o) "message") as [| |b|q| |s|t|i|l|o'];
    by rewrite Hrec; destruct (ChatWindowSpec.blank _).
Qed.

Lemma filter_map_omap now (l : list jsval) :
  filter (λ entry, nonEmpty entry = true) (map (normalizeEntry now) l)
  = omap (ChatWindowSpec.messageOf now) l.
Proof.
  induction l as [|entry l IH]; [done|]. cbn [map omap list_omap].
  rewrite filter_cons, <- normalizeEntry_messageOf. fold (omap (ChatWindowSpec.messageOf now) l).
  rewrite <- IH.
  by destruct (nonEmpty (normalizeEntry now entry)).
Qed.

(** What [appendChatMessage] pushes for a call is what the call supplies. *)
Lemma entriesOf_messagesOf now chatEntry :
  entriesOf now chatEntry = ChatWindowSpec.messagesOf now chatEntry.
Proof.
  unfold entriesOf, ChatWindowSpec.messagesOf, entryList.
  destruct chatEntry as [| |b|q| |s|t|i|l|o]; by rewrite ?filter_map_omap.
Qed.

(** The user [normalizeObjectId] finds is the user the call is made for. *)
Lemma normalizeObjectId_userOf userId :
  normalizeObjectId userId = ChatWindowSpec.userOf userId.
Proof.
  unfold normalizeObjectId, ChatWindowSpec.userOf, ChatWindowSpec.accepted.
  destruct userId as [| |b|q| |s|t|i|l|o]; cbn; try done.
  - by destruct b.
  - by destruct (Qeq_bool q 0).
  - case_bool_decide; [done|]. cbn. by destruct (ObjectId_isValid (VStr s)).
  - unfold prop. destruct (o !! "_id") as [v|]; [|done]. cbn.
    destruct (truthy v); [|done]. cbn. by destruct (ObjectId_isValid v).
Qed.

Lemma appended_messagesFor id trace :
  appended id trace = ChatWindowSpec.messagesFor id trace.
Proof.
  unfold appended, ChatWindowSpec.messagesFor.
  induction trace as [|[now c] trace IH]; [done|].
  cbn [map concat mbind list_bind]. rewrite IH. f_equal.
  destruct c; try done.
  by rewrite normalizeObjectId_userOf, entriesOf_messagesOf.
Qed.

(** C2: after any sequence of calls on a collection that starts empty, the
    chat window stored for a user [U] is the last five (all, if fewer) of
    the non-empty messages that the [appendChatMessage] calls made for [U]
    supplied, in the order they were supplied, and so has [min M 5] entries
    for [M] such messages.  The messages are read off the arguments of the
    calls by [ChatWindowSpec.messagesFor], not by the code's own map and
    filter: a message whose text is not blank is stored, with its role,
    and nothing else is.  As the statement holds after every call, the
    window never exceeds five entries. *)
Theorem chats_are_the_last_five_appended (trace : list (Z * call)) (U : ObjectId) :
  chatsOf (run (Some ∅) trace) U
    = drop (length (ChatWindowSpec.messagesFor U trace) - 5)
        (ChatWindowSpec.messagesFor U trace)
  ∧ length (chatsOf (run (Some ∅) trace) U)
      = Nat.min (length (ChatWindowSpec.messagesFor U trace)) 5
  ∧ (length (chatsOf (run (Some ∅) trace) U) ≤ 5)%nat.
Proof.
  destruct (run_chats trace) as (c & -> & Hchats).
  rewrite Hchats, slice_last_length, appended_messagesFor.
  split_and!; [done|done|lia].
Qed.

Lemma entriesOf_blank now chatEntry :
  Forall (λ entry, trim (messageText entry) = "") (entryList chatEntry) →
  entriesOf now chatEntry = [].
Proof.
  unfold entriesOf. induction 1 as [|entry l Hblank _ IH]; [done|].
  cbn [map]. rewrite filter_cons, decide_False; [exact IH|].
  unfold nonEmpty, normalizeEntry. cbn [message]. rewrite Hblank.
  by rewrite andb_false_r.
Qed.

(** C10: for a user id that normalises, a call in which every entry's
    trimmed message is empty returns the stored document (projected on
    [userId] and [chats]) rather than an error, leaves the user's chat
    window as it was, and changes nothing at all, [updatedAt] included,
    when the document already existed. *)
Theorem appendChatMessage_blank_is_noop now userId chatEntry c id :
  normalizeObjectId userId = Some id →
  Forall (λ entry, trim (messageText entry) = "") (entryList chatEntry) →
  ∃ c' d',
    appendChatMessage now userId chatEntry (Some c)
      = (Return (Some (project d')), Some c')
    ∧ c' !! id = Some d'
    ∧ chatsOf (Some c') id = chatsOf (Some c) id
    ∧ (∀ d, c !! id = Some d → c' = c ∧ d' = d).
Proof.
  intros Hid Hblank.
  destruct (appendChatMessage_state now userId chatEntry c id Hid)
    as (c1 & d1 & Hsame & Hc1 & Hd1 & Hrun).
  rewrite (entriesOf_blank now chatEntry Hblank) in Hrun.
  exists c1, d1. split_and!; try done.
  intros d Hd. destruct Hsame as [Hnone| ->]; [congruence|].
  split; [done|congruence].
Qed.

(** C5, as the code has it: for a user who has a document, a call with a
    profile other than [null] stores, in place of the whole previous
    profile, the properties of the profile passed, with [null] for each of
    [name], [email], [phone] and [language] that the call does not supply;
    no field keeps its previous value. *)
Theorem ensureUserContext_replaces_whole_profile now userId profile c id d :
  normalizeObjectId userId = Some id → c !! id = Some d → profile ≠ VNull →
  ∃ d',
    documentOf (ensureUserContext now userId profile (Some c)).2 id = Some d'
    ∧ doc_profile d' = ownProps (default_obj profile) ∪ nullProfile
    ∧ ∀ k, doc_profile d' !! k =
        match ownProps (default_obj profile) !! k with
        | Some v => Some v
        | None => nullProfile !! k
        end.
Proof.
  intros Hid Hd Hp. rewrite (ensureUserContext_existing _ _ _ _ _ _ Hid Hd Hp).
  eexists. split; [|split].
  - unfold documentOf. cbn. by rewrite lookup_insert_eq.
  - done.
  - intros k. cbn [doc_profile set_profile]. rewrite lookup_union.
    destruct (ownProps (default_obj profile) !! k) as [v|].
    + by rewrite union_Some_l.
    + by rewrite (left_id_L None _).
Qed.

(** C9, as the code has it: for a user id that does not normalise, and an
    initialised collection, [ensureUserContext] returns [null]; it raises no
    error and leaves the collection as it was. *)
Theorem ensureUserContext_invalid_id_returns_null now userId profile c :
  normalizeObjectId userId = None →
  ensureUserContext now userId profile (Some c) = (Return None, Some c).
Proof. apply ensureUserContext_invalid. Qed.


(** *** The upsert variant *)

Lemma upsert_paths_conflict :
  UserContextUpsert.conflicting
    ["userId"; "profile"; "location"; "weather"; "chats"; "createdAt"]
    ["profile"; "updatedAt"] = true.
Proof. by vm_compute. Qed.

(** The upsert of the second variant names [profile] under both operators,
    so the server rejects it: the call changes nothing. *)
Lemma upsert_ensureUserContext_state now userId profile st :
  (UserContextUpsert.ensureUserContext now userId profile st).2 = st.
Proof.
  unfold UserContextUpsert.ensureUserContext, UserContextUpsert.updateOne_upsert.
  rewrite upsert_paths_conflict. destruct st as [c|]; [|done]. run.
  destruct (normalizeObjectId userId) as [id|]; [|done]. run.
  by destruct (sanitizeProfile (default_obj profile) (default_obj profile)).
Qed.

(** C8: for a user who has a document, [ensureUserContext], in the variant
    that looks the document up first and in the variant that upserts,
    leaves the document in place with the same chats, location and
    weather, whatever the user id and the profile passed. *)
Theorem ensureUserContext_keeps_chats_location_weather now userId profile c id d :
  c !! id = Some d →
  (∃ d',
     documentOf (ensureUserContext now userId profile (Some c)).2 id = Some d'
     ∧ doc_chats d' = doc_chats d
     ∧ doc_location d' = doc_location d
     ∧ doc_weather d' = doc_weather d)
  ∧ (∃ d',
       documentOf (UserContextUpsert.ensureUserContext now userId profile (Some c)).2 id
         = Some d'
       ∧ doc_chats d' = doc_chats d
       ∧ doc_location d' = doc_location d
       ∧ doc_weather d' = doc_weather d).
Proof.
  intros Hd. split.
  - destruct (normalizeObjectId userId) as [j|] eqn:Hid.
    + assert (profile = VNull ∨ profile ≠ VNull) as [-> | Hp]
        by (destruct profile; auto).
      { rewrite (ensureUserContext_null _ _ j) by done. by exists d. }
      destruct (c !! j) as [dj|] eqn:Hj.
      * rewrite (ensureUserContext_existing _ _ _ _ j dj) by done.
        unfold documentOf. cbn. rewrite lookup_insert. case_decide.
        -- subst j. eexists. split; [done|]. by simplify_eq.
        -- by exists d.
      * rewrite (ensureUserContext_absent _ _ _ _ j) by done.
        unfold documentOf. cbn. rewrite lookup_insert_ne by congruence.
        by exists d.
    + rewrite ensureUserContext_invalid by done. by exists d.
  - rewrite upsert_ensureUserContext_state. by exists d.
Qed.

End Facts.

(** *** Worked examples, on the sample collection *)

Import Sample.

(** The test script's expectations: after the third conversation five
    messages remain and the first question is gone; location and weather
    are the ones of the home page update. *)
Example test_flow_keeps_last_five :
  let st := run (Some ∅) testFlow in
  message <$> chatsOf st farmerId
    = ["answer 1"; "question 2"; "answer 2"; "question 3"; "answer 3"]
  ∧ role <$> chatsOf st farmerId
    = ["assistant"; "user"; "assistant"; "user"; "assistant"]
  ∧ address <$> locationOf st farmerId
    = Some (VStr "Village Shirur, Pune District, Maharashtra")
  ∧ latitude <$> locationOf st farmerId = Some (VNum (188314 # 10000))
  ∧ temperature <$> weatherOf st farmerId = Some (VNum 28)
  ∧ (doc_profile <$> documentOf st farmerId) ≫= (.!! "name")
    = Some (VStr "Test Farmer").
Proof. by vm_compute. Qed.

(** The six messages the test script supplies, and the five of them that
    are stored; a blank message and an entry without one supply nothing,
    a number is stored as its text. *)
Example test_flow_supplies_six_messages :
  message <$> ChatWindowSpec.messagesFor farmerId testFlow
    = ["question 1"; "answer 1"; "question 2"; "answer 2"; "question 3"; "answer 3"]
  ∧ message <$> chatsOf (run (Some ∅) testFlow) farmerId
    = ["answer 1"; "question 2"; "answer 2"; "question 3"; "answer 3"]
  ∧ ChatWindowSpec.messagesOf 7
      (VArr [VObj {[ "message" := VStr "  " ]}; VObj {[ "role" := VStr "assistant" ]};
             VStr "hello"; VNull;
             VObj {[ "message" := VStr " namaste "; "role" := VStr "assistant" ]}])
    = [{| role := "assistant"; message := " namaste "; metadata := VObj ∅;
          timestamp := VDate 7 |}].
Proof. by vm_compute. Qed.

Lemma ensureUserContext_keeps_chats_location_weather_witness :
  (∃ d',
     documentOf (ensureUserContext 2000 (VOid farmerId)
                   (VObj {[ "language" := VStr "mr" ]}) (Some farmers)).2 farmerId
       = Some d'
     ∧ doc_chats d' = doc_chats farmerDoc
     ∧ doc_location d' = doc_location farmerDoc
     ∧ doc_weather d' = doc_weather farmerDoc)
  ∧ (∃ d',
       documentOf (UserContextUpsert.ensureUserContext 2000 (VOid farmerId)
                     (VObj {[ "language" := VStr "mr" ]}) (Some farmers)).2 farmerId
         = Some d'
       ∧ doc_chats d' = doc_chats farmerDoc
       ∧ doc_location d' = doc_location farmerDoc
       ∧ doc_weather d' = doc_weather farmerDoc).
Proof.
  apply (ensureUserContext_keeps_chats_location_weather 2000 (VOid farmerId)
           (VObj {[ "language" := VStr "mr" ]}) farmers farmerId farmerDoc).
  reflexivity.
Defined.

Lemma ensureUserContext_replaces_whole_profile_witness :
  ∃ d',
    documentOf (ensureUserContext 2000 (VOid farmerId)
                  (VObj {[ "language" := VStr "mr" ]}) (Some farmers)).2 farmerId
      = Some d'
    ∧ doc_profile d' = ownProps (default_obj (VObj {[ "language" := VStr "mr" ]})) ∪ nullProfile
    ∧ ∀ k, doc_profile d' !! k =
        match ownProps (default_obj (VObj {[ "language" := VStr "mr" ]})) !! k with
        | Some v => Some v
        | None => nullProfile !! k
        end.
Proof.
  apply (ensureUserContext_replaces_whole_profile 2000 (VOid farmerId)
           (VObj {[ "language" := VStr "mr" ]}) farmers farmerId farmerDoc).
  - reflexivity.
  - reflexivity.
  - discriminate.
Defined.

(** The claim C5 as stated fails: the sample farmer is stored with a name
    and a language; a second call that supplies the language only stores
    the new language and resets the name to [null]. *)
Lemma partial_profile_resets_absent_fields :
  let st' := (ensureUserContext 2000 (VOid farmerId)
                (VObj {[ "language" := VStr "mr" ]}) (Some farmers)).2 in
  (doc_profile <$> documentOf (Some farmers) farmerId) ≫= (.!! "name")
    = Some (VStr "Test Farmer")
  ∧ (doc_profile <$> documentOf st' farmerId) ≫= (.!! "language") = Some (VStr "mr")
  ∧ (doc_profile <$> documentOf st' farmerId) ≫= (.!! "name") = Some VNull.
Proof. by vm_compute. Qed.

Lemma ensureUserContext_invalid_id_returns_null_witness :
  ensureUserContext 2000 (VStr "farmer-42") (VObj farmerProfile) (Some farmers)
    = (Return None, Some farmers).
Proof.
  apply (ensureUserContext_invalid_id_returns_null 2000 (VStr "farmer-42")
           (VObj farmerProfile) farmers).
  reflexivity.
Defined.

(** The claim C9 as stated fails: the user id farmer-42 does not normalise,
    and the call returns [null] instead of raising an error. *)
Lemma invalid_id_is_not_an_error :
  normalizeObjectId (VStr "farmer-42") = None
  ∧ (ensureUserContext 2000 (VStr "farmer-42") (VObj farmerProfile) (Some farmers)).1
      = Return None
  ∧ ∀ e, (ensureUserContext 2000 (VStr "farmer-42") (VObj farmerProfile)
            (Some farmers)).1 ≠ Throw e.
Proof. split_and!; [reflexivity|reflexivity|discriminate]. Qed.

Lemma appendChatMessage_blank_is_noop_witness :
  ∃ c' d',
    appendChatMessage 2000 (VOid farmerId)
      (VArr [VObj {[ "message" := VStr "   " ]}; VObj ∅; VNull]) (Some farmers)
      = (Return (Some (project d')), Some c')
    ∧ c' !! farmerId = Some d'
    ∧ chatsOf (Some c') farmerId = chatsOf (Some farmers) farmerId
    ∧ (∀ d, farmers !! farmerId = Some d → c' = farmers ∧ d' = d).
Proof.
  apply (appendChatMessage_blank_is_noop 2000 (VOid farmerId)
           (VArr [VObj {[ "message" := VStr "   " ]}; VObj ∅; VNull])
           farmers farmerId).
  - reflexivity.
  - repeat constructor.
Defined.

(** C1 fails on the code: the sample farmer has a stored location and a
    stored weather snapshot; a call that omits both payloads keeps the
    location but replaces the weather by a record whose readings are all
    [null] and whose source is ['app'], and so does a call whose location
    and weather payloads are empty objects. *)
Theorem omitted_weather_overwrites_snapshot :
  let st' := (updateLocationAndWeather 2000 (VOid farmerId) (VObj ∅)
                (Some farmers)).2 in
  weatherOf (Some farmers) farmerId = Some partlyCloudy
  ∧ locationOf st' farmerId = Some shirur
  ∧ weatherOf st' farmerId = Some (blankWeather 2000)
  ∧ weatherOf st' farmerId ≠ weatherOf (Some farmers) farmerId
  ∧ weatherOf (updateLocationAndWeather 2000 (VOid farmerId) emptyPayloads
                 (Some farmers)).2 farmerId = Some (blankWeather 2000).
Proof.
  cbn zeta.
  rewrite (updateLocationAndWeather_omitted 2000 (VOid farmerId) (VObj ∅)
             farmers farmerId farmerDoc) by (reflexivity || by right).
  split_and!; try reflexivity. discriminate.
Qed.

End UserContextFacts.

(** ** The weather endpoint *)

Module WeatherFacts.
Import Weather.

Lemma missing_Some s : s ≠ "" → missing (Some s) = false.
Proof. by destruct s. Qed.

Section Facts.
Context `{Bucketing}.

(** C3, as the code has it: a request that supplies both coordinates is
    answered with a successful payload whenever the provider key is
    configured or the cache holds an entry, fresh or stale, for the
    bucket; with no key and no entry for the bucket it is answered 500
    CONFIG_ERROR.  With no key, an entry within its ten minutes is served
    as a cache hit and an older one is served marked stale. *)
Theorem getWeather_with_coordinates apiKey now lat lon up weatherCache :
  lat ≠ "" → lon ≠ "" →
  let answer := (getWeather apiKey now (Some lat) (Some lon) up weatherCache).1 in
  let cachedData := weatherCache !! cacheKeyOf lat lon in
  (missing apiKey = false ∨ is_Some cachedData →
     ∃ data marks, answer = json 200 (Success data marks))
  ∧ (missing apiKey = true → cachedData = None →
       answer = json 500 (Failure "CONFIG_ERROR" "Weather service not configured"))
  ∧ (missing apiKey = true → ∀ e, cachedData = Some e →
       answer = if now - timestamp e <? WEATHER_CACHE_TTL
                then servedFromCache e else servedStale e).
Proof.
  intros Hlat Hlon answer cachedData. subst answer cachedData.
  unfold getWeather. rewrite !missing_Some by done.
  cbn [orb default from_option id].
  assert (Hok : ∀ r (c : gmap string cacheEntry),
            (∃ data marks, r = json 200 (Success data marks)) →
            ∃ data marks, (r, c).1 = json 200 (Success data marks))
    by done.
  assert (Hany : ∀ cached,
            ∃ data marks, staleOrFallback cached = json 200 (Success data marks)).
  { intros [e|]; cbn; eauto. }
  destruct (weatherCache !! cacheKeyOf lat lon) as [e|] eqn:He.
  - destruct (now - timestamp e <? WEATHER_CACHE_TTL) eqn:Hfresh.
    + split_and!.
      * intros _. apply Hok. unfold servedFromCache. eauto.
      * done.
      * intros _ e' [= <-]. by rewrite Hfresh.
    + destruct (missing apiKey) eqn:Hkey.
      * split_and!.
        -- intros _. apply Hok. unfold servedStale. eauto.
        -- done.
        -- intros _ e' [= <-]. by rewrite Hfresh.
      * split_and!; [|done|done]. intros _.
        destruct up as [|code [b|]]; repeat case_match; apply Hok;
          try apply Hany; unfold servedFresh; eauto.
  - destruct (missing apiKey) eqn:Hkey.
    + split_and!; [|done|done]. intros [?|[? ?]]; done.
    + split_and!; [|done|done]. intros _.
      destruct up as [|code [b|]]; repeat case_match; apply Hok;
        try apply Hany; unfold servedFresh; eauto.
Qed.

End Facts.

#[local] Existing Instance numeralBucket.

(** A fresh reading is computed, cached and served; within ten minutes the
    same bucket is served from the cache; later, a failing provider gets
    the stale entry, and a bucket never fetched gets the fixed estimate. *)
Example weather_cache_walkthrough :
  let key := Some "tomorrow-key" in
  let first := getWeather key 0 (Some "18.52") (Some "73.86")
                 (Responded 200 (Some rainyBody)) ∅ in
  let reading :=
    {| temperature := 32; humidity := 58; windSpeed := 12;
       precipitationProbability := 75; weatherCode := 4001;
       condition := "Rain";
       advisory := "High chance of rain. Postpone spraying activities. Good time for indoor planning.";
       forecast := Some [ {| date := "2025-07-01T00:30:00Z";
                             temperatureMax := 34; temperatureMin := 24;
                             day_weatherCode := 4001;
                             day_precipitationProbability := 80 |} ] |} in
  first.1 = servedFresh reading
  ∧ (getWeather key 599999 (Some "18.52") (Some "73.86") FetchRejected first.2).1
      = servedFromCache {| timestamp := 0; data := reading |}
  ∧ (getWeather key 600000 (Some "18.52") (Some "73.86") (Responded 503 None) first.2).1
      = servedStale {| timestamp := 0; data := reading |}
  ∧ (getWeather key 600000 (Some "19.07") (Some "72.87") (Responded 429 None) first.2).1
      = servedFallback.
Proof. by vm_compute. Qed.

Lemma getWeather_with_coordinates_witness :
  let answer := (getWeather None 0 (Some "18.52") (Some "73.86") FetchRejected ∅).1 in
  let cachedData := (∅ : gmap string cacheEntry) !! cacheKeyOf "18.52" "73.86" in
  (missing None = false ∨ is_Some cachedData →
     ∃ data marks, answer = json 200 (Success data marks))
  ∧ (missing None = true → cachedData = None →
       answer = json 500 (Failure "CONFIG_ERROR" "Weather service not configured"))
  ∧ (missing None = true → ∀ e, cachedData = Some e →
       answer = if 0 - timestamp e <? WEATHER_CACHE_TTL
                then servedFromCache e else servedStale e).
Proof.
  apply (getWeather_with_coordinates None 0 "18.52" "73.86" FetchRejected ∅);
    discriminate.
Defined.

(** The claim C3 as stated fails: with no provider key configured and an
    empty cache, the request for 18.52, 73.86 is answered 500 CONFIG_ERROR;
    the provider is not even called. *)
Lemma unconfigured_provider_empty_cache_is_an_error :
  getWeather None 0 (Some "18.52") (Some "73.86") FetchRejected ∅ =
    (json 500 (Failure "CONFIG_ERROR" "Weather service not configured"), ∅)
  ∧ getWeather None 0 (Some "18.52") (Some "73.86") (Responded 429 None) ∅ =
      (json 500 (Failure "CONFIG_ERROR" "Weather service not configured"), ∅).
Proof. by split. Qed.

End WeatherFacts.

(** ** One-time passcodes *)

Module OtpFacts.
Import Otp.

Lemma isDigit_pretty_N_char d : isDigit (pretty_N_char d) = true.
Proof. unfold pretty_N_char. repeat case_match; reflexivity. Qed.

Lemma pretty_N_char_zero d : (d < 10)%N → pretty_N_char d = "0"%char → d = 0%N.
Proof. intros Hd Hc. by apply (pretty_N_char_inj d 0) in Hc. Qed.

(** The decimal rendering of a number with exactly six digits. *)
Lemma pretty_N_six (x : N) :
  (100000 ≤ x ≤ 999999)%N →
  pretty x =
    String (pretty_N_char (x `div` 100000))
   (String (pretty_N_char ((x `div` 10000) `mod` 10))
   (String (pretty_N_char ((x `div` 1000) `mod` 10))
   (String (pretty_N_char ((x `div` 100) `mod` 10))
   (String (pretty_N_char ((x `div` 10) `mod` 10))
   (String (pretty_N_char (x `mod` 10)) ""))))).
Proof.
  intros Hx. unfold pretty, pretty_N.
  destruct (decide (x = 0%N)) as [->|_]; [lia|].
  rewrite pretty_N_go_step by lia.
  do 5 (rewrite pretty_N_go_step by (apply N.div_str_pos_iff; lia);
        rewrite !N.Div0.div_div).
  change (10 * 10 * 10 * 10 * 10 * 10)%N with 1000000%N.
  change (10 * 10 * 10 * 10 * 10)%N with 100000%N.
  change (10 * 10 * 10 * 10)%N with 10000%N.
  change (10 * 10 * 10)%N with 1000%N.
  change (10 * 10)%N with 100%N.
  rewrite (N.div_small x 1000000) by lia.
  rewrite pretty_N_go_0.
  rewrite (N.mod_small (x `div` 100000) 10); [done|].
  apply N.Div0.div_lt_upper_bound; lia.
Qed.

Lemma pretty_Z_six (n : Z) :
  100000 ≤ n ≤ 999999 →
  sixDigits (pretty n) = true ∧ firstChar (pretty n) ≠ Some "0"%char.
Proof.
  intros Hn. destruct n as [|p|p]; try lia.
  change (pretty (Z.pos p)) with (pretty (N.pos p)).
  rewrite pretty_N_six by lia. split.
  - unfold sixDigits. cbn [String.length allDigits].
    rewrite !isDigit_pretty_N_char. reflexivity.
  - cbn [firstChar]. intros [= Hc].
    apply pretty_N_char_zero in Hc.
    + apply N.div_small_iff in Hc; lia.
    + apply N.Div0.div_lt_upper_bound; lia.
Qed.

(** The number behind a passcode lies between 100000 and 999999. *)
Lemma otp_number_range (random : Q) :
  (0 <= random)%Q → (random < 1)%Q →
  100000 ≤ Qfloor (100000 + random * 900000) ≤ 999999.
Proof.
  intros H0 H1. split.
  - change 100000 with (Qfloor (inject_Z 100000)) at 1.
    apply Qfloor_resp_le.
    apply Qle_trans with (100000 + 0)%Q; [discriminate|].
    apply Qplus_le_r. apply Qmult_le_0_compat; [done|discriminate].
  - cut (Qfloor (100000 + random * 900000) < 1000000); [lia|].
    rewrite Zlt_Qlt. eapply Qle_lt_trans; [apply Qfloor_le|].
    apply Qlt_le_trans with (100000 + 1 * 900000)%Q; [|discriminate].
    apply Qplus_lt_r. apply Qmult_lt_compat_r; [reflexivity|done].
Qed.

Lemma every_six_digit_number_is_drawn (m : Z) :
  100000 ≤ m ≤ 999999 →
  ∃ random : Q, (0 <= random)%Q ∧ (random < 1)%Q ∧ generateOtp random = pretty m.
Proof.
  intros Hm. exists (inject_Z (m - 100000) / 900000)%Q. split; [|split].
  - apply Qle_shift_div_l; [reflexivity|].
    rewrite Qmult_0_l. change 0%Q with (inject_Z 0). rewrite <- Zle_Qle. lia.
  - apply Qlt_shift_div_r; [reflexivity|].
    rewrite Qmult_1_l. change 900000%Q with (inject_Z 900000).
    rewrite <- Zlt_Qlt. lia.
  - unfold generateOtp. f_equal.
    rewrite <- (Qfloor_Z m) at 2. apply Qfloor_comp.
    unfold Qeq. simpl. lia.
Qed.

(** C6, as the code has it: for a well-formed e-mail and a configured
    mailer, the passcode issued is the decimal rendering of an integer
    between 100000 and 999999, so it has six decimal digits and never starts
    with 0, and every such integer can be drawn; the record stored under the
    e-mail holds that code, an expiry ten minutes (600000 ms) after the
    time of issue and zero attempts, and it replaces whatever record the
    e-mail had. *)
Theorem sendOtp_stores_six_digit_code cfg now random accepted email otpStore :
  configured cfg = true → email ≠ "" → includesAt email = true →
  (0 <= random)%Q → (random < 1)%Q →
  (∃ n : Z, 100000 ≤ n ≤ 999999 ∧
     sixDigits (pretty n) = true ∧ firstChar (pretty n) ≠ Some "0"%char ∧
     (sendOtp cfg now random accepted (Some email) otpStore).2 =
       <[email := {| otp := pretty n; expiresAt := now + 600000; attempts := 0 |}]>
         otpStore)
  ∧ (∀ m : Z, 100000 ≤ m ≤ 999999 →
       ∃ r : Q, (0 <= r)%Q ∧ (r < 1)%Q ∧ generateOtp r = pretty m).
Proof.
  intros Hcfg Hne Hat H0 H1. split; [|apply every_six_digit_number_is_drawn].
  pose proof (otp_number_range random H0 H1) as Hn.
  destruct (pretty_Z_six _ Hn) as [Hsix Hfirst].
  exists (Qfloor (100000 + random * 900000)). repeat split; try done; try lia.
  unfold sendOtp, configured in *. rewrite Hat.
  rewrite bool_decide_eq_false_2 by done. cbn [orb negb].
  apply negb_true_iff in Hcfg. rewrite Hcfg.
  unfold sendOtpEmail. rewrite Hcfg. by destruct accepted.
Qed.

Lemma sendOtp_stores_six_digit_code_witness :
  (∃ n : Z, 100000 ≤ n ≤ 999999 ∧
     sixDigits (pretty n) = true ∧ firstChar (pretty n) ≠ Some "0"%char ∧
     (sendOtp mailer 0 (1 # 2) true (Some "a@b.com") ∅).2 =
       <[("a@b.com" : string) :=
           {| otp := pretty n; expiresAt := 0 + 600000; attempts := 0 |}]> ∅)
  ∧ (∀ m : Z, 100000 ≤ m ≤ 999999 →
       ∃ r : Q, (0 <= r)%Q ∧ (r < 1)%Q ∧ generateOtp r = pretty m).
Proof.
  apply (sendOtp_stores_six_digit_code mailer 0 (1 # 2) true "a@b.com" ∅).
  - reflexivity.
  - discriminate.
  - reflexivity.
  - discriminate.
  - reflexivity.
Defined.

(** The claim C6 as stated fails: the string 000000 is six decimal digits,
    yet no draw of the random number produces it. *)
Lemma code_000000_is_never_generated :
  ¬ ∃ random : Q, (0 <= random)%Q ∧ (random < 1)%Q ∧ generateOtp random = "000000".
Proof.
  intros (random & H0 & H1 & Hgen).
  pose proof (otp_number_range random H0 H1) as Hn.
  destruct (pretty_Z_six _ Hn) as [_ Hfirst].
  unfold generateOtp in Hgen. rewrite Hgen in Hfirst. by apply Hfirst.
Qed.

(** C7, as the code has it: with a well-formed e-mail, an unconfigured
    mailer makes the handler answer 503 SERVICE_UNAVAILABLE before any code
    is generated, and the store is left as it was; with a configured mailer
    whose send call fails the handler answers 500 SERVER_ERROR and the
    record stored before the send stays in the store. *)
Theorem sendOtp_delivery_failures cfg now random email otpStore :
  email ≠ "" → includesAt email = true →
  (configured cfg = false →
     ∀ accepted,
       sendOtp cfg now random accepted (Some email) otpStore =
         (Error 503 "SERVICE_UNAVAILABLE"
            "Email service is not configured. Please contact administrator.",
          otpStore))
  ∧ (configured cfg = true →
       sendOtp cfg now random false (Some email) otpStore =
         (Error 500 "SERVER_ERROR" "Error sending OTP. Please try again.",
          <[email := {| otp := generateOtp random; expiresAt := now + 600000;
                        attempts := 0 |}]> otpStore)).
Proof.
  intros Hne Hat. unfold sendOtp, sendOtpEmail, configured.
  rewrite Hat. rewrite bool_decide_eq_false_2 by done. cbn [orb negb].
  split; intros Hcfg.
  - apply negb_false_iff in Hcfg. by rewrite Hcfg.
  - apply negb_true_iff in Hcfg. by rewrite Hcfg.
Qed.

Lemma sendOtp_delivery_failures_witness :
  (configured noMailer = false →
     ∀ accepted,
       sendOtp noMailer 0 (1 # 2) accepted (Some "a@b.com") ∅ =
         (Error 503 "SERVICE_UNAVAILABLE"
            "Email service is not configured. Please contact administrator.",
          ∅))
  ∧ (configured noMailer = true →
       sendOtp noMailer 0 (1 # 2) false (Some "a@b.com") ∅ =
         (Error 500 "SERVER_ERROR" "Error sending OTP. Please try again.",
          <[("a@b.com" : string) :=
              {| otp := generateOtp (1 # 2); expiresAt := 0 + 600000;
                 attempts := 0 |}]> ∅)).
Proof.
  apply (sendOtp_delivery_failures noMailer 0 (1 # 2) "a@b.com" ∅).
  - discriminate.
  - reflexivity.
Defined.

(** The claim C7 as stated fails: with no mailer configured the request for
    a@b.com is refused with SERVICE_UNAVAILABLE and no record is stored. *)
Lemma unconfigured_mailer_stores_nothing :
  sendOtp noMailer 0 (1 # 2) true (Some "a@b.com") ∅ =
    (Error 503 "SERVICE_UNAVAILABLE"
       "Email service is not configured. Please contact administrator.", ∅)
  ∧ (sendOtp noMailer 0 (1 # 2) true (Some "a@b.com") ∅).2 !! "a@b.com" = None.
Proof. split; reflexivity. Qed.

(** A wrong, non-empty code against a live record with fewer than three
    attempts used: INVALID_OTP, and the attempt is counted. *)
Lemma verifyOtp_wrong_code now email wrong record otpStore users :
  otpStore !! email = Some record →
  email ≠ "" → wrong ≠ "" → wrong ≠ otp record →
  now ≤ expiresAt record → attempts record < 3 →
  verifyOtp now (attempt email wrong) otpStore users =
    (Error 400 "INVALID_OTP" (invalidOtpMessage (attempts record + 1)),
     <[email := {| otp := otp record; expiresAt := expiresAt record;
                   attempts := attempts record + 1 |}]> otpStore,
     users).
Proof.
  intros Hrec He Hw Hneq Hnow Hatt. unfold verifyOtp, attempt; cbn.
  destruct email as [|c e]; [done|]. destruct wrong as [|c' w]; [done|].
  cbn. rewrite Hrec.
  destruct (Z.ltb_spec (expiresAt record) now); [lia|].
  destruct (Z.leb_spec 3 (attempts record)); [lia|].
  rewrite bool_decide_eq_false_2 by congruence. done.
Qed.

(** Any non-empty code against a live record with three attempts used:
    TOO_MANY_ATTEMPTS, and the record is deleted. *)
Lemma verifyOtp_exhausted now email code record otpStore users :
  otpStore !! email = Some record →
  email ≠ "" → code ≠ "" →
  now ≤ expiresAt record → 3 ≤ attempts record →
  verifyOtp now (attempt email code) otpStore users =
    (Error 400 "TOO_MANY_ATTEMPTS"
       "Too many failed attempts. Please request a new OTP.",
     delete email otpStore, users).
Proof.
  intros Hrec He Hc Hnow Hatt. unfold verifyOtp, attempt; cbn.
  destruct email as [|c e]; [done|]. destruct code as [|c' w]; [done|].
  cbn. rewrite Hrec.
  destruct (Z.ltb_spec (expiresAt record) now); [lia|].
  destruct (Z.leb_spec 3 (attempts record)); [done|lia].
Qed.

Lemma verifyOtp_not_found now email code otpStore users :
  otpStore !! email = None → email ≠ "" → code ≠ "" →
  verifyOtp now (attempt email code) otpStore users =
    (Error 400 "OTP_NOT_FOUND" "OTP not found. Please request a new one.",
     otpStore, users).
Proof.
  intros Hrec He Hc. unfold verifyOtp, attempt; cbn.
  destruct email as [|c e]; [done|]. destruct code as [|c' w]; [done|].
  cbn. by rewrite Hrec.
Qed.

(** A passcode verified after its expiry is refused even though it is the
    right one; reissued and verified at once it signs the new farmer up and
    is consumed, so a second verification finds nothing. *)
Example expiry_then_signup :
  let signup code :=
    {| req_email := Some "farmer@example.com"; req_otp := Some code;
       req_name := Some "Asha"; req_landSize := None; req_soilType := None |} in
  let issued := (sendOtp mailer 0 (1 # 2) true (Some "farmer@example.com") ∅).2 in
  let late := verifyOtp 600001 (signup "550000") issued ∅ in
  let reissued :=
    (sendOtp mailer 700000 (1 # 4) true (Some "farmer@example.com") late.1.2).2 in
  replyCode late.1.1 = "OTP_EXPIRED"
  ∧ late.1.2 !! "farmer@example.com" = None
  ∧ replyCode <$>
      (verifyAll [(700001, signup "325000"); (700002, signup "325000")]
         reissued ∅).1.1
    = ["success"; "OTP_NOT_FOUND"].
Proof. by vm_compute. Qed.

(** C4, as the code has it: against a freshly issued record, three wrong
    codes submitted before expiry are each answered INVALID_OTP (with 2, 1
    and 0 attempts remaining) and the record stays in the store with three
    attempts used; the next verification, even with the correct code, is
    answered TOO_MANY_ATTEMPTS and deletes the record; the one after that
    is answered OTP_NOT_FOUND. *)
Theorem three_wrong_codes_then_exhausted
    email code expiry w1 w2 w3 t1 t2 t3 t4 t5 otpStore users :
  otpStore !! email = Some {| otp := code; expiresAt := expiry; attempts := 0 |} →
  email ≠ "" → code ≠ "" →
  w1 ≠ "" → w2 ≠ "" → w3 ≠ "" → w1 ≠ code → w2 ≠ code → w3 ≠ code →
  t1 ≤ expiry → t2 ≤ expiry → t3 ≤ expiry → t4 ≤ expiry →
  verifyAll [(t1, attempt email w1); (t2, attempt email w2); (t3, attempt email w3)]
    otpStore users =
    ([Error 400 "INVALID_OTP" "Invalid OTP. 2 attempts remaining.";
      Error 400 "INVALID_OTP" "Invalid OTP. 1 attempts remaining.";
      Error 400 "INVALID_OTP" "Invalid OTP. 0 attempts remaining."],
     <[email := {| otp := code; expiresAt := expiry; attempts := 3 |}]> otpStore,
     users)
  ∧ verifyAll [(t1, attempt email w1); (t2, attempt email w2); (t3, attempt email w3);
               (t4, attempt email code); (t5, attempt email code)]
      otpStore users =
    ([Error 400 "INVALID_OTP" "Invalid OTP. 2 attempts remaining.";
      Error 400 "INVALID_OTP" "Invalid OTP. 1 attempts remaining.";
      Error 400 "INVALID_OTP" "Invalid OTP. 0 attempts remaining.";
      Error 400 "TOO_MANY_ATTEMPTS" "Too many failed attempts. Please request a new OTP.";
      Error 400 "OTP_NOT_FOUND" "OTP not found. Please request a new one."],
     delete email otpStore, users).
Proof.
  intros Hrec He Hc Hw1 Hw2 Hw3 Hn1 Hn2 Hn3 Ht1 Ht2 Ht3 Ht4.
  set (r k := {| otp := code; expiresAt := expiry; attempts := k |}).
  assert (S1 : verifyOtp t1 (attempt email w1) otpStore users =
    (Error 400 "INVALID_OTP" "Invalid OTP. 2 attempts remaining.",
     <[email := r 1]> otpStore, users)).
  { by rewrite (verifyOtp_wrong_code _ _ _ (r 0)). }
  assert (S2 : verifyOtp t2 (attempt email w2) (<[email := r 1]> otpStore) users =
    (Error 400 "INVALID_OTP" "Invalid OTP. 1 attempts remaining.",
     <[email := r 2]> otpStore, users)).
  { rewrite (verifyOtp_wrong_code _ _ _ (r 1)); try done.
    - by rewrite insert_insert_eq.
    - by rewrite lookup_insert_eq. }
  assert (S3 : verifyOtp t3 (attempt email w3) (<[email := r 2]> otpStore) users =
    (Error 400 "INVALID_OTP" "Invalid OTP. 0 attempts remaining.",
     <[email := r 3]> otpStore, users)).
  { rewrite (verifyOtp_wrong_code _ _ _ (r 2)); try done.
    - by rewrite insert_insert_eq.
    - by rewrite lookup_insert_eq. }
  assert (S4 : verifyOtp t4 (attempt email code) (<[email := r 3]> otpStore) users =
    (Error 400 "TOO_MANY_ATTEMPTS" "Too many failed attempts. Please request a new OTP.",
     delete email otpStore, users)).
  { rewrite (verifyOtp_exhausted _ _ _ (r 3)); try done.
    - by rewrite delete_insert_eq.
    - by rewrite lookup_insert_eq. }
  assert (S5 : verifyOtp t5 (attempt email code) (delete email otpStore) users =
    (Error 400 "OTP_NOT_FOUND" "OTP not found. Please request a new one.",
     delete email otpStore, users)).
  { rewrite verifyOtp_not_found; try done. by rewrite lookup_delete_eq. }
  cbn [verifyAll]. rewrite S1, S2, S3, S4, S5. done.
Qed.

Lemma three_wrong_codes_then_exhausted_witness :
  let issued : gmap string otpRecord :=
    <[("a@b.com" : string) :=
        {| otp := "550000"; expiresAt := 600000; attempts := 0 |}]> ∅ in
  verifyAll [(1000, attempt "a@b.com" "111111"); (2000, attempt "a@b.com" "222222");
             (3000, attempt "a@b.com" "333333")] issued ∅ =
    ([Error 400 "INVALID_OTP" "Invalid OTP. 2 attempts remaining.";
      Error 400 "INVALID_OTP" "Invalid OTP. 1 attempts remaining.";
      Error 400 "INVALID_OTP" "Invalid OTP. 0 attempts remaining."],
     <[("a@b.com" : string) :=
         {| otp := "550000"; expiresAt := 600000; attempts := 3 |}]> issued,
     ∅)
  ∧ verifyAll [(1000, attempt "a@b.com" "111111"); (2000, attempt "a@b.com" "222222");
               (3000, attempt "a@b.com" "333333"); (4000, attempt "a@b.com" "550000");
               (5000, attempt "a@b.com" "550000")] issued ∅ =
    ([Error 400 "INVALID_OTP" "Invalid OTP. 2 attempts remaining.";
      Error 400 "INVALID_OTP" "Invalid OTP. 1 attempts remaining.";
      Error 400 "INVALID_OTP" "Invalid OTP. 0 attempts remaining.";
      Error 400 "TOO_MANY_ATTEMPTS" "Too many failed attempts. Please request a new OTP.";
      Error 400 "OTP_NOT_FOUND" "OTP not found. Please request a new one."],
     delete ("a@b.com" : string) issued, ∅).
Proof.
  intros issued.
  apply (three_wrong_codes_then_exhausted "a@b.com" "550000" 600000
           "111111" "222222" "333333" 1000 2000 3000 4000 5000 issued ∅);
    try discriminate; try lia.
  reflexivity.
Defined.

(** The claim C4 as stated fails: after the code 550000 is issued to
    a@b.com, the third wrong code is answered INVALID_OTP, not
    TOO_MANY_ATTEMPTS, and the correct code submitted next is answered
    TOO_MANY_ATTEMPTS, not OTP_NOT_FOUND. *)
Lemma third_wrong_code_is_not_exhausted :
  let issued := (sendOtp mailer 0 (1 # 2) true (Some "a@b.com") ∅).2 in
  issued !! "a@b.com" =
    Some {| otp := "550000"; expiresAt := 600000; attempts := 0 |}
  ∧ replyCode <$>
      (verifyAll [(1000, attempt "a@b.com" "111111"); (2000, attempt "a@b.com" "222222");
                  (3000, attempt "a@b.com" "333333"); (4000, attempt "a@b.com" "550000")]
         issued ∅).1.1
    = ["INVALID_OTP"; "INVALID_OTP"; "INVALID_OTP"; "TOO_MANY_ATTEMPTS"].
Proof. split; vm_compute; reflexivity. Qed.

End OtpFacts.

(** ** The context store: frames, invariants and round trips *)

Module UserContextMore.
Import Js UserContext UserContextTerms UserContextFacts.

Lemma alter_lookup (f : document → document) id (c : gmap string document) :
  alter f id c = match c !! id with Some d => <[id := f d]> c | None => c end.
Proof.
  apply map_eq. intros k. rewrite lookup_alter.
  destruct (decide (id = k)) as [->|Hne].
  - destruct (c !! k) as [d|] eqn:Hd; [by rewrite lookup_insert_eq|by rewrite Hd].
  - destruct (c !! id); [by rewrite lookup_insert_ne|done].
Qed.

Lemma alter_existing (f : document → document) id d (c : gmap string document) :
  c !! id = Some d → alter f id c = <[id := f d]> c.
Proof. intros Hd. by rewrite alter_lookup, Hd. Qed.

Lemma alter_inserted (f : document → document) id d (c : gmap string document) :
  alter f id (<[id := d]> c) = <[id := f d]> c.
Proof.
  rewrite (alter_existing f id d) by apply lookup_insert_eq.
  apply insert_insert_eq.
Qed.

(** *** Framing: what every operation made for one user at one time keeps *)

Section Framing.
Context `{Runtime}.
Variable R : state → state → Prop.
Variable now : Z.
Variable id : ObjectId.
Hypothesis R_refl : ∀ st, R st st.
Hypothesis R_trans : ∀ st1 st2 st3, R st1 st2 → R st2 st3 → R st1 st3.
Hypothesis R_profile : ∀ c d p,
  c !! id = Some d → R (Some c) (Some (<[id := set_profile p now d]> c)).
Hypothesis R_location_weather : ∀ c d l w,
  c !! id = Some d → R (Some c) (Some (<[id := set_location_weather l w now d]> c)).
Hypothesis R_push : ∀ c d chatEntry,
  c !! id = Some d → entriesOf now chatEntry ≠ [] →
  R (Some c) (Some (<[id := push_chats (entriesOf now chatEntry) now d]> c)).
Hypothesis R_new : ∀ c p,
  c !! id = None → R (Some c) (Some (<[id := newDocument id p now]> c)).

Lemma framed_ret {A} (a : A) : frames R (mret a : M A).
Proof. intros st. apply R_refl. Qed.

Lemma framed_throw {A} e : frames R (throw (A := A) e).
Proof. intros st. apply R_refl. Qed.

Lemma framed_lift {A} (o : outcome A) : frames R (lift o).
Proof. intros st. apply R_refl. Qed.

Lemma framed_bind {A B} (m : M A) (f : A → M B) :
  frames R m → (∀ a, frames R (f a)) → frames R (m ≫= f).
Proof.
  intros Hm Hf st. rewrite run_bind. specialize (Hm st).
  destruct (m st) as [[a|e] st']; [|done].
  eapply R_trans; [exact Hm|apply Hf].
Qed.

Lemma framed_getCollection : frames R getCollection.
Proof. intros [c|]; apply R_refl. Qed.

Lemma framed_findOne j : frames R (findOne j).
Proof. intros [c|]; apply R_refl. Qed.

Lemma framed_set_profile p : frames R (updateOne_set id (set_profile p now)).
Proof.
  intros [c|]; [|apply R_refl]. rewrite run_updateOne_set, alter_lookup. cbn.
  destruct (c !! id) eqn:Hd; [by apply R_profile|apply R_refl].
Qed.

Lemma framed_set_location_weather l w :
  frames R (updateOne_set id (set_location_weather l w now)).
Proof.
  intros [c|]; [|apply R_refl]. rewrite run_updateOne_set, alter_lookup. cbn.
  destruct (c !! id) eqn:Hd; [by apply R_location_weather|apply R_refl].
Qed.

Lemma framed_push chatEntry :
  entriesOf now chatEntry ≠ [] →
  frames R (updateOne_set id (push_chats (entriesOf now chatEntry) now)).
Proof.
  intros He [c|]; [|apply R_refl]. rewrite run_updateOne_set, alter_lookup. cbn.
  destruct (c !! id) eqn:Hd; [by apply R_push|apply R_refl].
Qed.

Lemma framed_setOnInsert p :
  frames R (updateOne_setOnInsert id (newDocument id p now)).
Proof.
  intros [c|]; [|apply R_refl]. rewrite run_updateOne_setOnInsert. cbn.
  destruct (c !! id) eqn:Hd; [apply R_refl|by apply R_new].
Qed.

Lemma framed_ensureUserContext userId profile :
  normalizeObjectId userId = Some id →
  frames R (ensureUserContext now userId profile).
Proof.
  intros Hid. unfold ensureUserContext. rewrite Hid.
  apply framed_bind; [apply framed_getCollection|intros _].
  apply framed_bind; [apply framed_lift|intros p].
  apply framed_bind; [apply framed_findOne|intros existing].
  apply framed_bind; [|intros _; apply framed_ret].
  destruct existing; [apply framed_set_profile|apply framed_setOnInsert].
Qed.

Lemma framed_updateLocationAndWeather userId payload :
  normalizeObjectId userId = Some id →
  frames R (updateLocationAndWeather now userId payload).
Proof.
  intros Hid. unfold updateLocationAndWeather.
  destruct (is_null (default_obj payload)); [apply framed_throw|].
  rewrite Hid.
  apply framed_bind; [apply framed_getCollection|intros _].
  apply framed_bind.
  - case_match.
    + apply framed_bind; [by apply framed_ensureUserContext|intros _; apply framed_ret].
    + apply framed_bind; [apply framed_findOne|intros existing].
      destruct existing; [apply framed_ret|apply framed_setOnInsert].
  - intros _. apply framed_bind; [apply framed_set_location_weather|].
    intros _. apply framed_findOne.
Qed.

Lemma framed_appendChatMessage userId chatEntry :
  normalizeObjectId userId = Some id →
  frames R (appendChatMessage now userId chatEntry).
Proof.
  intros Hid. unfold appendChatMessage. rewrite Hid.
  assert (Hfind : frames R (findOne_chats id)).
  { unfold findOne_chats. apply framed_bind; [apply framed_findOne|].
    intros d. apply framed_ret. }
  apply framed_bind; [apply framed_getCollection|intros _].
  apply framed_bind; [apply framed_findOne|intros existing].
  apply framed_bind.
  - destruct existing; [apply framed_ret|].
    apply framed_bind; [case_match; [apply framed_lift|apply framed_ret]|].
    intros p. apply framed_setOnInsert.
  - intros _.
    destruct (entriesOf now (default_obj chatEntry)) as [|e es] eqn:He; [done|].
    apply framed_bind; [|done]. rewrite <- He. apply framed_push. by rewrite He.
Qed.

Lemma framed_fetchUserContext userId : frames R (fetchUserContext userId).
Proof.
  unfold fetchUserContext.
  apply framed_bind; [apply framed_getCollection|intros _].
  destruct (normalizeObjectId userId); [apply framed_findOne|apply framed_ret].
Qed.

(** A call made at [now] for the user [id] is framed by [R]. *)
Lemma framed_after st c :
  normalizeObjectId (targetOf c) = Some id → R st (after st (now, c)).
Proof.
  destruct c as [userId profile|userId payload|userId chatEntry|userId];
    cbn [targetOf after]; intros Hid.
  - by apply framed_ensureUserContext.
  - by apply framed_updateLocationAndWeather.
  - by apply framed_appendChatMessage.
  - apply framed_fetchUserContext.
Qed.

End Framing.

Section More.
Context `{Runtime}.

(** A call for a user id that does not normalise changes nothing. *)
Lemma after_invalid st now c :
  normalizeObjectId (targetOf c) = None → after st (now, c) = st.
Proof.
  destruct c as [userId profile|userId payload|userId chatEntry|userId];
    cbn [targetOf after]; intros Hid.
  - unfold ensureUserContext. rewrite Hid. by destruct st.
  - unfold updateLocationAndWeather. rewrite Hid.
    destruct (is_null (default_obj payload)); [done|]. by destruct st.
  - unfold appendChatMessage. rewrite Hid. by destruct st.
  - unfold fetchUserContext. rewrite Hid. by destruct st.
Qed.


(** The effect of [updateLocationAndWeather] for a user id that normalises
    and a payload other than [null]: the document is prepared (created, or
    its profile replaced when the payload carries profile data), then
    location, weather and [updatedAt] are set and the document is read
    back. *)
Lemma updateLocationAndWeather_run now userId payload c id :
  normalizeObjectId userId = Some id → payload ≠ VNull →
  let p := if hasProfileData payload
           then ownProps (payloadProfile payload) ∪ nullProfile else nullProfile in
  let d1 := match c !! id with
            | Some d => if hasProfileData payload then set_profile p now d else d
            | None => newDocument id p now
            end in
  let d' := set_location_weather
              (sanitizeLocation now (get (default_obj payload) "location"))
              (sanitizeWeather now (get (default_obj payload) "weather")) now d1 in
  updateLocationAndWeather now userId payload (Some c)
    = (Return (Some d'), Some (<[id := d']> c)).
Proof.
  intros Hid Hp p d1 d'.
  assert (Hnull : is_null (default_obj payload) = false) by (by destruct payload).
  unfold updateLocationAndWeather. rewrite Hnull. run. rewrite Hid.
  fold (payloadProfile payload). fold (hasProfileData payload).
  subst d' d1 p. destruct (hasProfileData payload) eqn:Hdata.
  - assert (Hprof : payloadProfile payload ≠ VNull).
    { intros Hn. unfold hasProfileData in Hdata. by rewrite Hn in Hdata. }
    assert (Hdef : default_obj (payloadProfile payload) = payloadProfile payload).
    { unfold payloadProfile. apply default_obj_idemp. }
    run. destruct (c !! id) as [d|] eqn:Hd.
    + rewrite (ensureUserContext_existing _ _ _ _ id d) by done. rewrite Hdef.
      run. by rewrite alter_inserted, lookup_insert_eq.
    + rewrite (ensureUserContext_absent _ _ _ _ id) by done. rewrite Hdef.
      run. by rewrite alter_inserted, lookup_insert_eq.
  - run. destruct (c !! id) as [d|] eqn:Hd.
    + run. by rewrite (alter_existing _ _ d), lookup_insert_eq.
    + run. by rewrite Hd, alter_inserted, lookup_insert_eq.
Qed.

(** *** Reading the collection after an insert *)

Lemma documentOf_insert c id d j :
  documentOf (Some (<[id := d]> c)) j
    = if decide (id = j) then Some d else documentOf (Some c) j.
Proof. unfold documentOf. cbn. by rewrite lookup_insert. Qed.

Lemma documentOf_Some c j : documentOf (Some c) j = c !! j.
Proof. reflexivity. Qed.

Lemma run_invariant (I : state → Prop) st trace :
  (∀ st tc, I st → I (after st tc)) → I st → I (run st trace).
Proof.
  intros Hstep. revert st. induction trace as [|tc trace IH]; intros st Hst; [done|].
  cbn. apply IH. by apply Hstep.
Qed.

(** X1: A call made for one user leaves the documents of all other users
    as they are, whatever the call and its arguments. *)
Theorem calls_leave_other_users_untouched st now c j :
  normalizeObjectId (targetOf c) ≠ Some j →
  documentOf (after st (now, c)) j = documentOf st j.
Proof.
  intros Hj. destruct (normalizeObjectId (targetOf c)) as [id|] eqn:Hid.
  - assert (Hne : id ≠ j) by congruence.
    refine (framed_after (λ st st', documentOf st' j = documentOf st j) now id
              _ _ _ _ _ _ st c Hid).
    + done.
    + intros st1 st2 st3 H12 H23. by rewrite H23.
    + intros c0 d p _. rewrite documentOf_insert. by rewrite decide_False.
    + intros c0 d l w _. rewrite documentOf_insert. by rewrite decide_False.
    + intros c0 d e _ _. rewrite documentOf_insert. by rewrite decide_False.
    + intros c0 p _. rewrite documentOf_insert. by rewrite decide_False.
  - by rewrite after_invalid.
Qed.

Lemma sameIdentity_insert c id d' :
  (∀ d, c !! id = Some d →
        doc_userId d' = doc_userId d ∧ doc_createdAt d' = doc_createdAt d) →
  sameIdentity (Some c) (Some (<[id := d']> c)).
Proof.
  intros Hd j d Hj. rewrite documentOf_insert. case_decide as Hc.
  - subst j. exists d'. split; [done|]. by apply Hd.
  - by exists d.
Qed.

(** X2: No call removes a document, moves it to another key, or changes
    its [userId] or its [createdAt]. *)
Theorem calls_keep_identity st now c : sameIdentity st (after st (now, c)).
Proof.
  assert (Hrefl : ∀ st, sameIdentity st st) by (intros ? j d ?; by exists d).
  destruct (normalizeObjectId (targetOf c)) as [id|] eqn:Hid.
  - refine (framed_after sameIdentity now id _ _ _ _ _ _ st c Hid).
    + done.
    + intros st1 st2 st3 H12 H23 j d Hd.
      destruct (H12 j d Hd) as (d2 & Hd2 & Hu2 & Hc2).
      destruct (H23 j d2 Hd2) as (d3 & Hd3 & Hu3 & Hc3).
      exists d3. split_and!; [done|congruence|congruence].
    + intros c0 d p Hd. apply sameIdentity_insert. intros d0 Hd0.
      by simplify_eq.
    + intros c0 d l w Hd. apply sameIdentity_insert. intros d0 Hd0.
      by simplify_eq.
    + intros c0 d e Hd _. apply sameIdentity_insert. intros d0 Hd0.
      by simplify_eq.
    + intros c0 p Hd. apply sameIdentity_insert. intros d0 Hd0. congruence.
  - rewrite after_invalid by done. apply Hrefl.
Qed.

Lemma after_keeps_invariant (I : state → Prop) now st c :
  (∀ id c0 d d',
     normalizeObjectId (targetOf c) = Some id →
     I (Some c0) →
     (c0 !! id = Some d ∧
        (∃ p, d' = set_profile p now d)
        ∨ c0 !! id = Some d ∧ (∃ l w, d' = set_location_weather l w now d)
        ∨ c0 !! id = Some d ∧
            (∃ e, entriesOf now e ≠ [] ∧ d' = push_chats (entriesOf now e) now d)
        ∨ c0 !! id = None ∧ (∃ p, d' = newDocument id p now)) →
     I (Some (<[id := d']> c0))) →
  I st → I (after st (now, c)).
Proof.
  intros Hstep. destruct (normalizeObjectId (targetOf c)) as [id|] eqn:Hid.
  - refine (framed_after (λ st st', I st → I st') now id _ _ _ _ _ _ st c Hid).
    + auto.
    + auto.
    + intros c0 d p Hd HI. apply (Hstep id c0 d); eauto 10.
    + intros c0 d l w Hd HI. apply (Hstep id c0 d); eauto 10.
    + intros c0 d e Hd He HI. apply (Hstep id c0 d); eauto 10.
    + intros c0 p Hd HI.
      apply (Hstep id c0 (newDocument id p now)); eauto 10.
  - by rewrite after_invalid.
Qed.

(** X3: In every state reached from the empty collection, each document
    is stored under the key that is its own [userId]. *)
Theorem documents_are_keyed_by_userId (trace : list (Z * call)) :
  keyedByUserId (run (Some ∅) trace).
Proof.
  apply run_invariant.
  - intros st [now c]. apply after_keeps_invariant.
    intros id c0 d d' Hid HI Hd' j e. rewrite documentOf_insert.
    case_decide as Hj; [|apply HI]. intros [= <-]. subst j.
    destruct Hd' as [[Hd [p ->]]|[[Hd (l & w & ->)]|[[Hd (e & _ & ->)]|[Hd [p ->]]]]];
      cbn; try done; by apply (HI id).
  - intros id d. unfold documentOf. cbn. by rewrite lookup_empty.
Qed.

Lemma after_keeps_timestamps t now st c :
  t ≤ now → timestampsOrdered t st → timestampsOrdered now (after st (now, c)).
Proof.
  intros Ht Hst.
  assert (Hnow : timestampsOrdered now st).
  { intros id d Hd. destruct (Hst id d Hd). lia. }
  revert Hnow. apply after_keeps_invariant.
  intros id c0 d d' Hid HI Hd' j e. rewrite documentOf_insert.
  case_decide as Hj; [|apply HI]. intros [= <-]. subst j.
  destruct Hd' as [[Hd [p ->]]|[[Hd (l & w & ->)]|[[Hd (e & _ & ->)]|[Hd [p ->]]]]];
    cbn; try lia; destruct (HI id d Hd); lia.
Qed.

Lemma run_keeps_timestamps trace : ∀ t st,
  nondecreasing t trace.*1 → timestampsOrdered t st →
  ∃ t', timestampsOrdered t' (run st trace).
Proof.
  induction trace as [|[now c] trace IH]; intros t st Htimes Hst; [by exists t|].
  destruct Htimes as [Ht Hrest]. cbn.
  apply (IH now); [done|]. by apply (after_keeps_timestamps t).
Qed.

(** X4: When the clock never goes back between calls, every document reached
    from the empty collection was created no later than it was last
    updated. *)
Theorem createdAt_never_after_updatedAt t (trace : list (Z * call)) id d :
  nondecreasing t trace.*1 →
  documentOf (run (Some ∅) trace) id = Some d →
  doc_createdAt d ≤ doc_updatedAt d.
Proof.
  intros Htimes Hd.
  destruct (run_keeps_timestamps trace t (Some ∅) Htimes) as [t' Ht'].
  { intros j e. unfold documentOf. cbn. by rewrite lookup_empty. }
  by destruct (Ht' id d Hd).
Qed.

Lemma normalizeEntry_role now entry :
  role (normalizeEntry now entry) = "user"
  ∨ role (normalizeEntry now entry) = "assistant".
Proof. unfold normalizeEntry. cbn [role]. repeat case_match; auto. Qed.

Lemma trim_nonEmpty e : nonEmpty e = true → trim (message e) ≠ "".
Proof.
  unfold nonEmpty. intros [_ Hlen]%andb_true_iff Ht. rewrite Ht in Hlen.
  by cbn in Hlen.
Qed.

Lemma entriesOf_wellFormed now chatEntry :
  Forall wellFormedChat (entriesOf now chatEntry).
Proof.
  unfold entriesOf. apply Forall_forall. intros e He.
  apply list_elem_of_filter in He as [Hne Hin].
  apply list_elem_of_fmap in Hin as (entry & -> & _). split.
  - apply normalizeEntry_role.
  - by apply trim_nonEmpty.
Qed.

Lemma chatsOf_insert c id d j :
  chatsOf (Some (<[id := d]> c)) j
    = if decide (id = j) then doc_chats d else chatsOf (Some c) j.
Proof. unfold chatsOf. rewrite documentOf_insert. by case_decide. Qed.

(** X5: In every state reached from the empty collection, every stored chat
    entry has the role user or assistant and a message that is not blank. *)
Theorem stored_chats_are_well_formed (trace : list (Z * call)) :
  chatsWellFormed (run (Some ∅) trace).
Proof.
  apply run_invariant.
  - intros st [now c]. apply after_keeps_invariant.
    intros id c0 d d' Hid HI Hd' j. rewrite chatsOf_insert.
    case_decide as Hj; [|apply HI]. subst j.
    assert (Hold : c0 !! id = Some d → Forall wellFormedChat (doc_chats d)).
    { intros Hd. specialize (HI id). unfold chatsOf, documentOf in HI. cbn in HI.
      by rewrite Hd in HI. }
    destruct Hd' as [[Hd [p ->]]|[[Hd (l & w & ->)]|[[Hd (e & _ & ->)]|[Hd [p ->]]]]];
      cbn; auto.
    unfold slice_last. apply Forall_drop, Forall_app. split; [auto|].
    apply entriesOf_wellFormed.
  - intros id. unfold chatsOf, documentOf. cbn. by rewrite lookup_empty.
Qed.

(** X6: For a user id that normalises and a payload other than [null],
    [updateLocationAndWeather] returns exactly the document it leaves in the
    collection, creating it when the user had none, and that document has
    [updatedAt = now]. *)
Theorem updateLocationAndWeather_returns_stored_document now userId payload c id :
  normalizeObjectId userId = Some id → payload ≠ VNull →
  ∃ d',
    (updateLocationAndWeather now userId payload (Some c)).1 = Return (Some d')
    ∧ documentOf (updateLocationAndWeather now userId payload (Some c)).2 id = Some d'
    ∧ doc_updatedAt d' = now
    ∧ doc_chats d' = chatsOf (Some c) id.
Proof.
  intros Hid Hp. rewrite (updateLocationAndWeather_run _ _ _ _ id Hid Hp).
  cbn [fst snd]. eexists.
  split_and!; [done|by rewrite documentOf_insert, decide_True|done|].
  unfold chatsOf, documentOf. cbn.
  destruct (c !! id) as [d|]; [|done]. by destruct (hasProfileData payload).
Qed.

(** X7: A payload whose profile has none of [name], [email], [phone] and
    [language] set leaves the stored profile of an existing document as it
    is. *)
Theorem update_without_profile_data_keeps_profile now userId payload c id d :
  normalizeObjectId userId = Some id → c !! id = Some d → payload ≠ VNull →
  hasProfileData payload = false →
  ∃ d',
    documentOf (updateLocationAndWeather now userId payload (Some c)).2 id = Some d'
    ∧ doc_profile d' = doc_profile d.
Proof.
  intros Hid Hd Hp Hdata. rewrite (updateLocationAndWeather_run _ _ _ _ id Hid Hp).
  cbn [fst snd]. rewrite Hd, Hdata. eexists.
  split; [by rewrite documentOf_insert, decide_True|done].
Qed.

(** X8: [sanitizeLocation] rejects exactly the empty payloads: what is not a
    plain object, and objects with no truthy [address] or [raw], no numeric
    [lat] or [lon] and no [latitude] or [longitude]; [precision] alone does
    not make a location. *)
Theorem sanitizeLocation_rejects_exactly_empty now location :
  sanitizeLocation now location = None ↔ emptyLocation location = true.
Proof.
  assert (Hor : ∀ v, is_null (or_else v VNull) = negb (truthy v)).
  { intros v. unfold or_else. destruct (truthy v) eqn:Hv; [|done].
    by destruct v. }
  assert (Hco : ∀ v, is_null (coalesce v VNull) = nullish v) by (by intros []).
  assert (Hnum : ∀ v, is_number v = true → is_null v = false) by (by intros []).
  destruct location as [| |b|q| |s|t|i|l|o];
    try (split; intros _; [reflexivity|];
         unfold sanitizeLocation; cbn [default_obj is_object negb];
         by rewrite ?orb_true_r).
  unfold sanitizeLocation, emptyLocation. cbn [default_obj truthy is_object negb orb get].
  cbn [address latitude longitude raw]. rewrite !Hor.
  destruct (truthy (prop o "address")); cbn [negb andb]; [done|].
  destruct (is_number (prop o "lat")) eqn:Hlat; cbn [negb andb].
  { by rewrite (Hnum _ Hlat). }
  rewrite Hco. destruct (nullish (prop o "latitude")); cbn [andb]; [|done].
  destruct (is_number (prop o "lon")) eqn:Hlon; cbn [negb andb].
  { by rewrite (Hnum _ Hlon). }
  rewrite Hco. destruct (nullish (prop o "longitude")); cbn [andb]; [|done].
  by destruct (truthy (prop o "raw")).
Qed.

(** X9: A call whose location payload [sanitizeLocation] rejects keeps every
    stored location: the location is never reset by a payload without
    one. *)
Theorem empty_location_keeps_stored_location now userId payload st j :
  sanitizeLocation now (get (default_obj payload) "location") = None →
  locationOf (updateLocationAndWeather now userId payload st).2 j = locationOf st j.
Proof.
  intros Hempty.
  destruct st as [c|]; [|by unfold updateLocationAndWeather; repeat case_match].
  assert (payload = VNull ∨ payload ≠ VNull) as [->|Hp] by (destruct payload; auto);
    [done|].
  destruct (normalizeObjectId userId) as [id|] eqn:Hid.
  - rewrite (updateLocationAndWeather_run _ _ _ _ id Hid Hp). cbn [fst snd].
    rewrite Hempty. unfold locationOf. rewrite documentOf_insert. case_decide as Hj; [subst j|done].
    rewrite documentOf_Some. destruct (c !! id) as [d|]; [|done].
    by destruct (hasProfileData payload).
  - change (locationOf (after (Some c) (now, Update userId payload)) j
            = locationOf (Some c) j).
    by rewrite after_invalid.
Qed.

(** X10: After [ensureUserContext] for a user id that normalises, with a profile
    other than [null], [fetchUserContext] returns the user's document with
    the sanitised profile; for a user who had no document it is a fresh one
    with no location, no weather, no chats and both timestamps [now]. *)
Theorem ensure_then_fetch now userId profile c id :
  normalizeObjectId userId = Some id → profile ≠ VNull →
  ∃ d,
    (fetchUserContext userId (ensureUserContext now userId profile (Some c)).2).1
      = Return (Some d)
    ∧ doc_profile d = ownProps (default_obj profile) ∪ nullProfile
    ∧ doc_updatedAt d = now
    ∧ (c !! id = None →
         d = newDocument id (ownProps (default_obj profile) ∪ nullProfile) now).
Proof.
  intros Hid Hp. destruct (c !! id) as [d0|] eqn:Hd.
  - rewrite (ensureUserContext_existing _ _ _ _ id d0) by done. cbn [snd].
    unfold fetchUserContext. run. rewrite Hid. run. rewrite lookup_insert_eq.
    eexists. by split_and!.
  - rewrite (ensureUserContext_absent _ _ _ _ id) by done. cbn [snd].
    unfold fetchUserContext. run. rewrite Hid. run. rewrite lookup_insert_eq.
    eexists. by split_and!.
Qed.

(** X11: Only three shapes of user id normalise: an ObjectId (to itself), a
    non-empty string the driver accepts, and a plain object whose [_id] is
    truthy and accepted.  Numbers, booleans, dates and arrays never do. *)
Theorem normalizeObjectId_accepts value id :
  normalizeObjectId value = Some id →
  value = VOid id
  ∨ (∃ s, value = VStr s ∧ s ≠ "" ∧ ObjectId_isValid value = true
          ∧ id = ObjectId_new value)
  ∨ (∃ o, value = VObj o ∧ truthy (prop o "_id") = true
          ∧ ObjectId_isValid (prop o "_id") = true
          ∧ id = ObjectId_new (prop o "_id")).
Proof.
  unfold normalizeObjectId. intros Hn.
  destruct value as [| |b|q| |s|t|i|l|o]; cbn in Hn; try done.
  - by destruct b.
  - by destruct (Qeq_bool q 0).
  - case_bool_decide as Hs; cbn in Hn; [done|].
    destruct (ObjectId_isValid (VStr s)) eqn:Hv; cbn in Hn; [|done].
    right; left. exists s. by simplify_eq.
  - left. by simplify_eq.
  - destruct (truthy (prop o "_id")) eqn:Ht; cbn in Hn; [|done].
    destruct (ObjectId_isValid (prop o "_id")) eqn:Hv; cbn in Hn; [|done].
    right; right. exists o. by simplify_eq.
Qed.

(** X12: [appendChatMessage] never changes the profile, location, weather,
    [userId] or [createdAt] of an existing document; it sets [updatedAt] to
    [now] exactly when at least one entry passes the filter. *)
Theorem appendChatMessage_keeps_the_rest now userId chatEntry c id d :
  normalizeObjectId userId = Some id → c !! id = Some d →
  ∃ d',
    documentOf (appendChatMessage now userId chatEntry (Some c)).2 id = Some d'
    ∧ doc_profile d' = doc_profile d
    ∧ doc_location d' = doc_location d
    ∧ doc_weather d' = doc_weather d
    ∧ doc_userId d' = doc_userId d
    ∧ doc_createdAt d' = doc_createdAt d
    ∧ doc_updatedAt d'
        = match entriesOf now chatEntry with [] => doc_updatedAt d | _ => now end.
Proof.
  intros Hid Hd.
  destruct (appendChatMessage_state now userId chatEntry c id Hid)
    as (c1 & d1 & Hsame & _ & Hd1 & Hrun).
  destruct Hsame as [Hnone| ->]; [congruence|]. rewrite Hrun.
  assert (d1 = d) as -> by congruence.
  destruct (entriesOf now chatEntry) as [|e es]; cbn [snd].
  - exists d. by rewrite documentOf_Some.
  - eexists. split; [by rewrite documentOf_insert, decide_True|done].
Qed.

(** X13: Before [initUserContextCollection] has run, the operations reject with
    the error 'UserContext collection not initialized', valid user id or
    not; only [updateLocationAndWeather] with a [null] payload fails
    earlier, on destructuring it. *)
Theorem uninitialised_collection_throws now userId arg :
  ensureUserContext now userId arg None = (Throw NotInitialized, None)
  ∧ appendChatMessage now userId arg None = (Throw NotInitialized, None)
  ∧ fetchUserContext userId None = (Throw NotInitialized, None)
  ∧ updateLocationAndWeather now userId arg None
      = (Throw (if is_null arg then TypeError else NotInitialized), None).
Proof.
  split_and!; try done.
  unfold updateLocationAndWeather.
  assert (Hn : is_null (default_obj arg) = is_null arg) by (by destruct arg).
  rewrite Hn. by destruct (is_null arg).
Qed.

End More.

(** *** Worked instances, on the sample collection *)

Import Sample.

Lemma calls_leave_other_users_untouched_witness :
  documentOf (after (Some farmers)
                (2000, Append (VStr "65f1c0a4b7e3d2a1908c7b6b") (conversation "1")))
    farmerId
  = documentOf (Some farmers) farmerId.
Proof.
  apply (calls_leave_other_users_untouched (Some farmers) 2000
           (Append (VStr "65f1c0a4b7e3d2a1908c7b6b") (conversation "1")) farmerId).
  discriminate.
Defined.

Lemma createdAt_never_after_updatedAt_witness :
  let d := default farmerDoc (documentOf (run (Some ∅) testFlow) farmerId) in
  doc_createdAt d ≤ doc_updatedAt d.
Proof.
  intros d.
  apply (createdAt_never_after_updatedAt 0 testFlow farmerId d).
  - cbn. lia.
  - by vm_compute.
Defined.

Lemma updateLocationAndWeather_returns_stored_document_witness :
  ∃ d',
    (updateLocationAndWeather 2000 (VOid farmerId) emptyPayloads (Some farmers)).1
      = Return (Some d')
    ∧ documentOf (updateLocationAndWeather 2000 (VOid farmerId) emptyPayloads
                    (Some farmers)).2 farmerId = Some d'
    ∧ doc_updatedAt d' = 2000
    ∧ doc_chats d' = chatsOf (Some farmers) farmerId.
Proof.
  apply (updateLocationAndWeather_returns_stored_document 2000 (VOid farmerId)
           emptyPayloads farmers farmerId).
  - reflexivity.
  - discriminate.
Defined.

Lemma update_without_profile_data_keeps_profile_witness :
  ∃ d',
    documentOf (updateLocationAndWeather 2000 (VOid farmerId) emptyPayloads
                  (Some farmers)).2 farmerId = Some d'
    ∧ doc_profile d' = doc_profile farmerDoc.
Proof.
  apply (update_without_profile_data_keeps_profile 2000 (VOid farmerId)
           emptyPayloads farmers farmerId farmerDoc).
  - reflexivity.
  - reflexivity.
  - discriminate.
  - reflexivity.
Defined.

Lemma empty_location_keeps_stored_location_witness :
  locationOf (updateLocationAndWeather 2000 (VOid farmerId) emptyPayloads
                (Some farmers)).2 farmerId
  = locationOf (Some farmers) farmerId.
Proof.
  apply (empty_location_keeps_stored_location 2000 (VOid farmerId) emptyPayloads
           (Some farmers) farmerId).
  reflexivity.
Defined.

Lemma ensure_then_fetch_witness :
  ∃ d,
    (fetchUserContext (VOid farmerId)
       (ensureUserContext 2000 (VOid farmerId) (VObj farmerProfile) (Some ∅)).2).1
      = Return (Some d)
    ∧ doc_profile d = ownProps (default_obj (VObj farmerProfile)) ∪ nullProfile
    ∧ doc_updatedAt d = 2000
    ∧ ((∅ : gmap string document) !! farmerId = None →
         d = newDocument farmerId
               (ownProps (default_obj (VObj farmerProfile)) ∪ nullProfile) 2000).
Proof.
  apply (ensure_then_fetch 2000 (VOid farmerId) (VObj farmerProfile) ∅ farmerId).
  - reflexivity.
  - discriminate.
Defined.

Lemma normalizeObjectId_accepts_witness :
  VStr "65F1C0A4B7E3D2A1908C7B6A" = VOid farmerId
  ∨ (∃ s, VStr "65F1C0A4B7E3D2A1908C7B6A" = VStr s ∧ s ≠ ""
          ∧ ObjectId_isValid (VStr "65F1C0A4B7E3D2A1908C7B6A") = true
          ∧ farmerId = ObjectId_new (VStr "65F1C0A4B7E3D2A1908C7B6A"))
  ∨ (∃ o, VStr "65F1C0A4B7E3D2A1908C7B6A" = VObj o ∧ truthy (prop o "_id") = true
          ∧ ObjectId_isValid (prop o "_id") = true
          ∧ farmerId = ObjectId_new (prop o "_id")).
Proof.
  apply (normalizeObjectId_accepts (VStr "65F1C0A4B7E3D2A1908C7B6A") farmerId).
  reflexivity.
Defined.

Lemma appendChatMessage_keeps_the_rest_witness :
  ∃ d',
    documentOf (appendChatMessage 2000 (VOid farmerId) (conversation "1")
                  (Some farmers)).2 farmerId = Some d'
    ∧ doc_profile d' = doc_profile farmerDoc
    ∧ doc_location d' = doc_location farmerDoc
    ∧ doc_weather d' = doc_weather farmerDoc
    ∧ doc_userId d' = doc_userId farmerDoc
    ∧ doc_createdAt d' = doc_createdAt farmerDoc
    ∧ doc_updatedAt d'
        = match entriesOf 2000 (conversation "1") with
          | [] => doc_updatedAt farmerDoc
          | _ => 2000
          end.
Proof.
  apply (appendChatMessage_keeps_the_rest 2000 (VOid farmerId) (conversation "1")
           farmers farmerId farmerDoc); reflexivity.
Defined.

End UserContextMore.

(** ** The weather endpoint: the cache *)

Module WeatherMore.
Import Weather WeatherTerms WeatherFacts.

Section More.
Context `{Bucketing}.

(** X14: An entry younger than ten minutes is served as it is, marked cached,
    whether or not a provider key is configured and whatever the provider
    would answer; the cache is not touched. *)
Theorem fresh_cache_entry_is_served apiKey now lat lon up weatherCache e :
  lat ≠ "" → lon ≠ "" →
  weatherCache !! cacheKeyOf lat lon = Some e →
  now - timestamp e < WEATHER_CACHE_TTL →
  getWeather apiKey now (Some lat) (Some lon) up weatherCache
    = (servedFromCache e, weatherCache).
Proof.
  intros Hlat Hlon He Hfresh. unfold getWeather.
  rewrite !missing_Some by done. cbn [orb default from_option id]. rewrite He.
  by destruct (Z.ltb_spec (now - timestamp e) WEATHER_CACHE_TTL); [|lia].
Qed.

(** X15: A request without a latitude or without a longitude is answered 400
    VALIDATION_ERROR before the cache or the provider is looked at. *)
Theorem missing_coordinates_are_rejected apiKey now lat lon up weatherCache :
  missing lat = true ∨ missing lon = true →
  getWeather apiKey now lat lon up weatherCache
    = (json 400 (Failure "VALIDATION_ERROR" "Latitude and longitude are required"),
       weatherCache).
Proof.
  intros Hm. unfold getWeather.
  by destruct Hm as [-> | ->]; rewrite ?orb_true_r.
Qed.

(** X16: The cache is written by a fresh reading only: any other answer leaves
    it as it was, and a fresh reading replaces the entry of the request's
    bucket, and nothing else, with that reading stamped [now]. *)
Theorem cache_changes_only_on_fresh_reading apiKey now lat lon up weatherCache :
  (getWeather apiKey now lat lon up weatherCache).2 = weatherCache
  ∨ ∃ lat' lon' code b,
      lat = Some lat' ∧ lon = Some lon' ∧ up = Responded code (Some b)
      ∧ getWeather apiKey now lat lon up weatherCache
        = (servedFresh (freshData b),
           <[cacheKeyOf lat' lon' := {| timestamp := now; data := freshData b |}]>
             weatherCache).
Proof.
  unfold getWeather.
  destruct (missing lat || missing lon) eqn:Hm; [by left|].
  apply orb_false_iff in Hm as [Hlat Hlon].
  destruct lat as [lat'|]; [|done]. destruct lon as [lon'|]; [|done].
  cbn [default from_option id].
  destruct (weatherCache !! cacheKeyOf lat' lon') as [e|] eqn:He.
  - destruct (now - timestamp e <? WEATHER_CACHE_TTL); [by left|].
    destruct (missing apiKey); [by left|].
    destruct up as [|code [b|]]; repeat case_match; try (by left).
    right. by exists lat', lon', code, b.
  - destruct (missing apiKey); [by left|].
    destruct up as [|code [b|]]; repeat case_match; try (by left).
    right. by exists lat', lon', code, b.
Qed.

(** X17: Once a request has been answered with a fresh reading at [t0], every
    request within the next ten minutes whose coordinates fall in the same
    bucket is answered with that reading from the cache. *)
Theorem same_bucket_within_ttl_is_served_from_cache
    apiKey0 t0 lat0 lon0 up0 weatherCache d apiKey1 t1 lat1 lon1 up1 :
  (getWeather apiKey0 t0 (Some lat0) (Some lon0) up0 weatherCache).1 = servedFresh d →
  lat1 ≠ "" → lon1 ≠ "" →
  cacheKeyOf lat1 lon1 = cacheKeyOf lat0 lon0 →
  t1 - t0 < WEATHER_CACHE_TTL →
  (getWeather apiKey1 t1 (Some lat1) (Some lon1) up1
     (getWeather apiKey0 t0 (Some lat0) (Some lon0) up0 weatherCache).2).1
    = servedFromCache {| timestamp := t0; data := d |}.
Proof.
  intros Hfresh Hlat Hlon Hkey Httl.
  assert (Hrun : ∃ b,
    getWeather apiKey0 t0 (Some lat0) (Some lon0) up0 weatherCache
      = (servedFresh (freshData b),
         <[cacheKeyOf lat0 lon0 := {| timestamp := t0; data := freshData b |}]>
           weatherCache)).
  { revert Hfresh. unfold getWeather.
    destruct (missing (Some lat0) || missing (Some lon0)); [done|].
    cbn [default from_option id].
    destruct (weatherCache !! cacheKeyOf lat0 lon0) as [e|];
      repeat case_match; try done; eauto. }
  destruct Hrun as [b Hrun]. rewrite Hrun in Hfresh |- *. cbn [fst snd] in *.
  injection Hfresh as Hd.
  unfold getWeather at 1. rewrite !missing_Some by done.
  cbn [orb default from_option id]. rewrite Hkey, lookup_insert_eq. cbn [timestamp].
  destruct (Z.ltb_spec (t1 - t0) WEATHER_CACHE_TTL); [|lia].
  by rewrite Hd.
Qed.

(** X18: With a provider key configured and no entry younger than ten minutes,
    a provider call that yields no reading is answered with the entry of
    the bucket marked stale, or, when the bucket has none, with the fixed
    estimate marked fallback; the cache is left as it was, so a stale entry
    keeps its old time stamp. *)
Theorem provider_failure_serves_stale_or_fallback
    apiKey now lat lon up weatherCache :
  lat ≠ "" → lon ≠ "" → missing apiKey = false → failed up = true →
  (∀ e, weatherCache !! cacheKeyOf lat lon = Some e →
        WEATHER_CACHE_TTL ≤ now - timestamp e) →
  getWeather apiKey now (Some lat) (Some lon) up weatherCache
    = (staleOrFallback (weatherCache !! cacheKeyOf lat lon), weatherCache).
Proof.
  intros Hlat Hlon Hkey Hfail Hstale. unfold getWeather.
  rewrite !missing_Some by done. cbn [orb default from_option id]. rewrite Hkey.
  assert (Hhit : match weatherCache !! cacheKeyOf lat lon with
                 | Some e => if now - timestamp e <? WEATHER_CACHE_TTL
                             then Some e else None
                 | None => None
                 end = None).
  { destruct (weatherCache !! cacheKeyOf lat lon) as [e|] eqn:He; [|done].
    specialize (Hstale e eq_refl).
    by destruct (Z.ltb_spec (now - timestamp e) WEATHER_CACHE_TTL); [lia|]. }
  rewrite Hhit. destruct up as [|code [b|]]; [done| |].
  - cbn in Hfail. rewrite orb_false_r in Hfail. rewrite Hfail.
    by destruct (code =? 429).
  - by destruct (negb ((200 <=? code) && (code <=? 299))), (code =? 429).
Qed.

(** X19: The forecast of a fresh reading lists the first seven days the provider
    sent, in the provider's order, and no more. *)
Theorem forecast_is_the_first_seven_days (b : forecastBody) :
  date <$> forecastOfData (freshData b) = take 7 (daily b).*1
  ∧ (length (forecastOfData (freshData b)) ≤ 7)%nat.
Proof.
  unfold forecastOfData, freshData. cbn [forecast default from_option id].
  split.
  - by rewrite <- list_fmap_compose, fmap_take.
  - rewrite length_map, length_take. lia.
Qed.

End More.

#[local] Existing Instance numeralBucket.

Lemma fresh_cache_entry_is_served_witness :
  let e := {| timestamp := 1000; data := fallbackData |} in
  getWeather None 2000 (Some "18.52") (Some "73.86") FetchRejected
    {[ cacheKeyOf "18.52" "73.86" := e ]}
  = (servedFromCache e, {[ cacheKeyOf "18.52" "73.86" := e ]}).
Proof.
  intros e.
  apply (fresh_cache_entry_is_served None 2000 "18.52" "73.86" FetchRejected
           {[ cacheKeyOf "18.52" "73.86" := e ]} e).
  - discriminate.
  - discriminate.
  - reflexivity.
  - reflexivity.
Defined.

Lemma missing_coordinates_are_rejected_witness :
  getWeather (Some "tomorrow-key") 0 (Some "") (Some "73.86") FetchRejected ∅
  = (json 400 (Failure "VALIDATION_ERROR" "Latitude and longitude are required"), ∅).
Proof.
  apply (missing_coordinates_are_rejected (Some "tomorrow-key") 0 (Some "")
           (Some "73.86") FetchRejected ∅).
  left. reflexivity.
Defined.

Lemma same_bucket_within_ttl_is_served_from_cache_witness :
  (getWeather None 599999 (Some "18.52") (Some "73.86") FetchRejected
     (getWeather (Some "tomorrow-key") 0 (Some "18.52") (Some "73.86")
        (Responded 200 (Some rainyBody)) ∅).2).1
  = servedFromCache {| timestamp := 0; data := freshData rainyBody |}.
Proof.
  apply (same_bucket_within_ttl_is_served_from_cache
           (Some "tomorrow-key") 0 "18.52" "73.86" (Responded 200 (Some rainyBody))
           ∅ (freshData rainyBody) None 599999 "18.52" "73.86" FetchRejected).
  - reflexivity.
  - discriminate.
  - discriminate.
  - reflexivity.
  - reflexivity.
Defined.

Lemma provider_failure_serves_stale_or_fallback_witness :
  getWeather (Some "tomorrow-key") 0 (Some "18.52") (Some "73.86")
    (Responded 503 None) ∅
  = (staleOrFallback ((∅ : gmap string cacheEntry) !! cacheKeyOf "18.52" "73.86"), ∅).
Proof.
  apply (provider_failure_serves_stale_or_fallback (Some "tomorrow-key") 0
           "18.52" "73.86" (Responded 503 None) ∅).
  - discriminate.
  - discriminate.
  - reflexivity.
  - reflexivity.
  - intros e He. by rewrite lookup_empty in He.
Defined.

End WeatherMore.

(** ** One-time passcodes: verification, expiry and the attempt counter *)

Module OtpMore.
Import Otp OtpTerms OtpFacts.

(** How the verification handler answers, case by case, once the request
    carries an e-mail and a code. *)
Lemma verifyOtp_cases now body otpStore users :
  missing (req_email body) = false → missing (req_otp body) = false →
  let email := or_empty (req_email body) in
  let code := or_empty (req_otp body) in
  match otpStore !! email with
  | None =>
    verifyOtp now body otpStore users
      = (Error 400 "OTP_NOT_FOUND" "OTP not found. Please request a new one.",
         otpStore, users)
  | Some r =>
    if expiresAt r <? now then
      verifyOtp now body otpStore users
        = (Error 400 "OTP_EXPIRED" "OTP has expired. Please request a new one.",
           delete email otpStore, users)
    else if 3 <=? attempts r then
      verifyOtp now body otpStore users
        = (Error 400 "TOO_MANY_ATTEMPTS"
             "Too many failed attempts. Please request a new OTP.",
           delete email otpStore, users)
    else if bool_decide (otp r = code) then
      (verifyOtp now body otpStore users).1.2 = delete email otpStore
    else
      verifyOtp now body otpStore users
        = (Error 400 "INVALID_OTP" (invalidOtpMessage (attempts r + 1)),
           <[email := {| otp := otp r; expiresAt := expiresAt r;
                         attempts := attempts r + 1 |}]> otpStore,
           users)
  end.
Proof.
  intros He Hc email code. unfold verifyOtp. rewrite He, Hc. cbn [orb].
  fold email. fold code.
  destruct (otpStore !! email) as [r|]; [|done].
  destruct (expiresAt r <? now); [done|].
  destruct (3 <=? attempts r); [done|].
  destruct (bool_decide (otp r = code)); cbn [negb]; [|done].
  by repeat case_match.
Qed.

(** X20: A reply that signs the user in is given only when the stored record
    carries the submitted code, has not expired and has fewer than three
    attempts used; and the record is gone afterwards. *)
Theorem signing_in_requires_the_stored_code now body otpStore users :
  signsIn (verifyOtp now body otpStore users).1.1 = true →
  ∃ email code r,
    req_email body = Some email ∧ req_otp body = Some code
    ∧ otpStore !! email = Some r
    ∧ otp r = code ∧ now ≤ expiresAt r ∧ attempts r < 3
    ∧ (verifyOtp now body otpStore users).1.2 !! email = None.
Proof.
  intros Hin.
  destruct (missing (req_email body)) eqn:He.
  { unfold verifyOtp in Hin. by rewrite He in Hin. }
  destruct (missing (req_otp body)) eqn:Hc.
  { unfold verifyOtp in Hin. by rewrite He, Hc, orb_true_r in Hin. }
  pose proof (verifyOtp_cases now body otpStore users He Hc) as Hcases.
  destruct (req_email body) as [email|] eqn:Hemail; [|done].
  destruct (req_otp body) as [code|] eqn:Hcode; [|done].
  cbn [or_empty default from_option id] in Hcases.
  exists email, code.
  destruct (otpStore !! email) as [r|] eqn:Hr; [|by rewrite Hcases in Hin].
  destruct (Z.ltb_spec (expiresAt r) now); [by rewrite Hcases in Hin|].
  destruct (Z.leb_spec 3 (attempts r)); [by rewrite Hcases in Hin|].
  case_bool_decide as Hotp; [|by rewrite Hcases in Hin].
  exists r. split_and!; try done. rewrite Hcases. apply lookup_delete_eq.
Qed.

(** X21: The right code for an e-mail that has no account, sent without a name,
    is answered 400 'Name is required for signup', and the passcode is
    consumed all the same: the record is deleted and no account is made. *)
Theorem signup_without_name_consumes_the_passcode now email code r name
    land soil otpStore users :
  email ≠ "" → code ≠ "" → missing name = true →
  otpStore !! email = Some r → otp r = code →
  now ≤ expiresAt r → attempts r < 3 → users !! email = None →
  verifyOtp now
    {| req_email := Some email; req_otp := Some code; req_name := name;
       req_landSize := land; req_soilType := soil |} otpStore users
  = (Error 400 "VALIDATION_ERROR" "Name is required for signup",
     delete email otpStore, users).
Proof.
  intros He Hc Hname Hr Hotp Hnow Hatt Hu. unfold verifyOtp. cbn.
  destruct email as [|a e]; [done|]. destruct code as [|a' c']; [done|].
  cbn. rewrite Hr.
  destruct (Z.ltb_spec (expiresAt r) now); [lia|].
  destruct (Z.leb_spec 3 (attempts r)); [lia|].
  rewrite bool_decide_eq_true_2 by done. cbn. by rewrite Hu, Hname.
Qed.

(** X22: Any verification made after the expiry time is answered OTP_EXPIRED,
    right code or wrong, and deletes the record; no account is touched. *)
Theorem expired_passcode_is_refused_and_cleared now email code r otpStore users :
  email ≠ "" → code ≠ "" →
  otpStore !! email = Some r → expiresAt r < now →
  verifyOtp now (attempt email code) otpStore users
  = (Error 400 "OTP_EXPIRED" "OTP has expired. Please request a new one.",
     delete email otpStore, users).
Proof.
  intros He Hc Hr Hexp. unfold verifyOtp, attempt. cbn.
  destruct email as [|a e]; [done|]. destruct code as [|a' c']; [done|].
  cbn. rewrite Hr. by destruct (Z.ltb_spec (expiresAt r) now); [|lia].
Qed.

(** X23: A verification reads and writes the record and the account of its own
    e-mail only, and never creates a passcode record. *)
Theorem verification_touches_only_its_email now body otpStore users other :
  req_email body ≠ Some other →
  (verifyOtp now body otpStore users).1.2 !! other = otpStore !! other
  ∧ (verifyOtp now body otpStore users).2 !! other = users !! other
  ∧ (∀ email, otpStore !! email = None →
       (verifyOtp now body otpStore users).1.2 !! email = None).
Proof.
  intros Hother.
  assert (Hdel : ∀ e, otpStore !! e = None →
            ∀ k, delete k otpStore !! e = None).
  { intros e He k. rewrite lookup_delete. by case_decide. }
  unfold verifyOtp.
  destruct (missing (req_email body) || missing (req_otp body)) eqn:Hm; [done|].
  apply orb_false_iff in Hm as [He _].
  destruct (req_email body) as [email|] eqn:Hemail; [|done].
  cbn [or_empty default from_option id].
  assert (Hne : email ≠ other) by congruence.
  destruct (otpStore !! email) as [r|] eqn:Hr; [|done].
  assert (Hins : ∀ x e, otpStore !! e = None → <[email := x]> otpStore !! e = None).
  { intros x e Hnone. rewrite lookup_insert_ne; [done|congruence]. }
  repeat case_match; cbn [fst snd];
    rewrite ?lookup_delete_ne, ?lookup_insert_ne by done; auto.
Qed.

Lemma generateOtp_not_empty random :
  (0 <= random)%Q → (random < 1)%Q → generateOtp random ≠ "".
Proof.
  intros H0 H1 Hg. pose proof (otp_number_range random H0 H1) as Hn.
  destruct (pretty_Z_six _ Hn) as [Hsix _]. unfold generateOtp in Hg.
  by rewrite Hg in Hsix.
Qed.

(** X24: A passcode issued to a well-formed e-mail verifies when it is sent back
    within ten minutes, even if its delivery failed: an existing account is
    logged in with its last login set to the time of verification, and the
    record is consumed. *)
Theorem issued_passcode_logs_in cfg t0 t1 random accepted email otpStore users u :
  configured cfg = true → malformed (Some email) = false →
  (0 <= random)%Q → (random < 1)%Q →
  users !! email = Some u → t1 ≤ t0 + 600000 →
  let issued := (sendOtp cfg t0 random accepted (Some email) otpStore).2 in
  verifyOtp t1 (attempt email (generateOtp random)) issued users
  = (LoggedIn email u, delete email otpStore,
     <[email := {| name := name u; landSize := landSize u; soilType := soilType u;
                   createdAt := createdAt u; lastLogin := t1 |}]> users).
Proof.
  intros Hcfg Hmal H0 H1 Hu Ht issued.
  pose proof (generateOtp_not_empty random H0 H1) as Hcode.
  apply orb_false_iff in Hmal as [Hne Hat].
  apply bool_decide_eq_false in Hne. apply negb_false_iff in Hat.
  assert (Hissued : issued =
    <[email := {| otp := generateOtp random; expiresAt := t0 + 600000;
                  attempts := 0 |}]> otpStore).
  { subst issued. unfold sendOtp, configured, sendOtpEmail in *. rewrite Hat.
    rewrite bool_decide_eq_false_2 by done. cbn [orb negb].
    apply negb_true_iff in Hcfg. rewrite Hcfg. by destruct accepted. }
  rewrite Hissued. unfold verifyOtp, attempt. cbn.
  destruct email as [|a e]; [done|].
  destruct (generateOtp random) as [|a' c'] eqn:Hg; [done|].
  cbn. rewrite lookup_insert_eq. cbn.
  destruct (Z.ltb_spec (t0 + 600000) t1); [lia|].
  rewrite bool_decide_eq_true_2 by done. cbn. rewrite Hu.
  by rewrite delete_insert_eq.
Qed.

(** Every record the two routes leave in the store has between zero and
    three attempts used. *)
Lemma serve_keeps_attempts cfg s tr :
  (∀ email r, s.1 !! email = Some r → 0 ≤ attempts r ≤ 3) →
  ∀ email r, (serve cfg s tr).1 !! email = Some r → 0 ≤ attempts r ≤ 3.
Proof.
  destruct s as [otpStore users], tr as [now [random accepted email|body]];
    cbn [serve fst snd]; intros Hinv e r.
  - unfold sendOtp. repeat case_match; cbn [snd]; try apply Hinv.
    all: intros [[_ <-]|[_ Hr]]%lookup_insert_Some; [cbn; lia|by apply Hinv in Hr].
  - destruct (verifyOtp now body otpStore users) as [[rep otpStore'] users'] eqn:Hv.
    cbn [fst]. revert Hv. unfold verifyOtp.
    repeat case_match; intros [= <- <- <-]; try apply Hinv.
    all: try (intros [_ Hr]%lookup_delete_Some; by apply Hinv in Hr).
    intros [[_ <-]|[_ Hr]]%lookup_insert_Some; [|by apply Hinv in Hr]. cbn.
    match goal with
    | Hr : otpStore !! _ = Some ?x, Hle : (3 <=? attempts ?x) = false |- _ =>
      apply Hinv in Hr; apply Z.leb_gt in Hle; lia
    end.
Qed.

(** X25: However the two routes are called, and in whatever order, no stored
    record ever counts fewer than zero or more than three failed attempts:
    the counter starts at zero, a wrong code adds one, and a record that
    has reached three is never incremented again. *)
Theorem attempts_stay_within_three cfg (requests : list (Z * request)) email r :
  (serveAll cfg requests).1 !! email = Some r → 0 ≤ attempts r ≤ 3.
Proof.
  unfold serveAll. revert email r.
  induction requests as [|tr requests IH] using rev_ind; intros email r.
  - cbn. by rewrite lookup_empty.
  - rewrite foldl_snoc. by apply serve_keeps_attempts.
Qed.

Lemma signing_in_requires_the_stored_code_witness :
  ∃ email code r,
    req_email (attempt "a@b.com" "550000") = Some email
    ∧ req_otp (attempt "a@b.com" "550000") = Some code
    ∧ pending !! email = Some r
    ∧ otp r = code ∧ 1000 ≤ expiresAt r ∧ attempts r < 3
    ∧ (verifyOtp 1000 (attempt "a@b.com" "550000") pending
         {[ ("a@b.com" : string) := ramesh ]}).1.2 !! email = None.
Proof.
  apply (signing_in_requires_the_stored_code 1000 (attempt "a@b.com" "550000")
           pending {[ ("a@b.com" : string) := ramesh ]}).
  reflexivity.
Defined.

Lemma signup_without_name_consumes_the_passcode_witness :
  verifyOtp 1000
    {| req_email := Some "a@b.com"; req_otp := Some "550000"; req_name := Some "";
       req_landSize := Some "2"; req_soilType := None |} pending ∅
  = (Error 400 "VALIDATION_ERROR" "Name is required for signup",
     delete ("a@b.com" : string) pending, ∅).
Proof.
  apply (signup_without_name_consumes_the_passcode 1000 "a@b.com" "550000"
           {| otp := "550000"; expiresAt := 600000; attempts := 2 |}
           (Some "") (Some "2") None pending ∅).
  - discriminate.
  - discriminate.
  - reflexivity.
  - reflexivity.
  - reflexivity.
  - cbn. lia.
  - cbn. lia.
  - reflexivity.
Defined.

Lemma expired_passcode_is_refused_and_cleared_witness :
  verifyOtp 600001 (attempt "a@b.com" "550000") pending ∅
  = (Error 400 "OTP_EXPIRED" "OTP has expired. Please request a new one.",
     delete ("a@b.com" : string) pending, ∅).
Proof.
  apply (expired_passcode_is_refused_and_cleared 600001 "a@b.com" "550000"
           {| otp := "550000"; expiresAt := 600000; attempts := 2 |} pending ∅).
  - discriminate.
  - discriminate.
  - reflexivity.
  - cbn. lia.
Defined.

Lemma verification_touches_only_its_email_witness :
  (verifyOtp 1000 (attempt "c@d.com" "111111") pending ∅).1.2 !! "a@b.com"
    = pending !! "a@b.com"
  ∧ (verifyOtp 1000 (attempt "c@d.com" "111111") pending ∅).2 !! "a@b.com"
    = (∅ : gmap string user) !! "a@b.com"
  ∧ (∀ email, pending !! email = None →
       (verifyOtp 1000 (attempt "c@d.com" "111111") pending ∅).1.2 !! email = None).
Proof.
  apply (verification_touches_only_its_email 1000 (attempt "c@d.com" "111111")
           pending ∅ "a@b.com").
  discriminate.
Defined.

Lemma issued_passcode_logs_in_witness :
  verifyOtp 600000 (attempt "a@b.com" (generateOtp (1 # 2)))
    (sendOtp mailer 0 (1 # 2) false (Some "a@b.com") ∅).2
    {[ ("a@b.com" : string) := ramesh ]}
  = (LoggedIn "a@b.com" ramesh, delete ("a@b.com" : string) ∅,
     <[("a@b.com" : string) :=
         {| name := "Ramesh"; landSize := "2"; soilType := "black";
            createdAt := 5; lastLogin := 600000 |}]>
       {[ ("a@b.com" : string) := ramesh ]}).
Proof.
  apply (issued_passcode_logs_in mailer 0 600000 (1 # 2) false "a@b.com" ∅
           {[ ("a@b.com" : string) := ramesh ]} ramesh).
  - reflexivity.
  - reflexivity.
  - discriminate.
  - reflexivity.
  - reflexivity.
  - lia.
Defined.

Lemma attempts_stay_within_three_witness :
  0 ≤ attempts {| otp := generateOtp (1 # 2); expiresAt := 600000; attempts := 1 |} ≤ 3.
Proof.
  apply (attempts_stay_within_three mailer
           [(0, SendOtp (1 # 2) true (Some "a@b.com"));
            (1000, VerifyOtp (attempt "a@b.com" "000000"))]
           "a@b.com").
  vm_compute. reflexivity.
Defined.

End OtpMore.

(** ** Speech synthesis: chunks and voices *)

Module TtsFacts.
Import Tts.

Lemma splitSpaces_space c r :
  isSpace c = true →
  splitSpaces (c :: r) = if startsWithSpace r then splitSpaces r else [] :: splitSpaces r.
Proof. intros Hc. cbn [splitSpaces]. by rewrite Hc. Qed.

Lemma splitSpaces_letter c r :
  isSpace c = false →
  ∃ w ws, splitSpaces r = w :: ws ∧ splitSpaces (c :: r) = (c :: w) :: ws.
Proof.
  intros Hc. cbn [splitSpaces]. rewrite Hc.
  assert (Hne : splitSpaces r ≠ []).
  { clear. induction r as [|c r IH]; [done|]. cbn [splitSpaces].
    destruct (isSpace c); [|by destruct (splitSpaces r)].
    by destruct (startsWithSpace r). }
  destruct (splitSpaces r) as [|w ws]; [done|]. by exists w, ws.
Qed.

Lemma splitSpaces_spaceFree s : Forall (λ w, spaceFree w = true) (splitSpaces s).
Proof.
  induction s as [|c r IH]; [by repeat constructor|].
  destruct (isSpace c) eqn:Hc.
  - rewrite splitSpaces_space by done.
    destruct (startsWithSpace r); [done|]. by constructor.
  - destruct (splitSpaces_letter c r Hc) as (w & ws & Hr & ->).
    rewrite Hr in IH. inversion_clear IH as [|?? Hw Hws].
    constructor; [|done]. cbn. by rewrite Hc.
Qed.

Lemma words_space c r : isSpace c = true → words (c :: r) = words r.
Proof.
  intros Hc. unfold words. rewrite splitSpaces_space by done.
  destruct (startsWithSpace r); [done|]. by rewrite filter_cons_False by naive_solver.
Qed.

Lemma words_trimStart s : words (trimStart s) = words s.
Proof.
  induction s as [|c r IH]; [done|]. cbn [trimStart].
  destruct (isSpace c) eqn:Hc; [|done]. by rewrite words_space.
Qed.

Lemma trimStart_letter s :
  trimStart s = [] ∨ ∃ c r, trimStart s = c :: r ∧ isSpace c = false.
Proof.
  induction s as [|c r IH]; [by left|]. cbn [trimStart].
  destruct (isSpace c) eqn:Hc; [done|]. right. by exists c, r.
Qed.

Lemma trimEnd_head r x xs : trimEnd r = x :: xs → ∃ r', r = x :: r'.
Proof.
  destruct r as [|c r']; [done|]. cbn [trimEnd].
  destruct (trimEnd r'), (isSpace c); intros [= <- <-]; eauto.
Qed.

Lemma unwords_cons w ws : unwords (w :: ws) = w ++ flat_map (cons SPACE) ws.
Proof.
  revert w. induction ws as [|w' ws IH]; intros w.
  - cbn. by rewrite app_nil_r.
  - change (unwords (w :: w' :: ws)) with (w ++ SPACE :: unwords (w' :: ws)).
    by rewrite IH.
Qed.

Lemma replaceSpaces_space c r :
  isSpace c = true →
  replaceSpaces (c :: r)
  = if startsWithSpace r then replaceSpaces r else SPACE :: replaceSpaces r.
Proof. intros Hc. cbn [replaceSpaces]. by rewrite Hc. Qed.

Lemma replaceSpaces_letter c r :
  isSpace c = false → replaceSpaces (c :: r) = c :: replaceSpaces r.
Proof. intros Hc. cbn [replaceSpaces]. by rewrite Hc. Qed.

(** What trimming the end and collapsing the white space leave of a text, in
    terms of its pieces. *)
Lemma replaceSpaces_trimEnd r :
  replaceSpaces (trimEnd r)
  = match splitSpaces r with
    | [] => []
    | w :: ws => w ++ flat_map (cons SPACE) (filter (λ w, w ≠ []) ws)
    end.
Proof.
  induction r as [|c r IH]; [done|].
  destruct (isSpace c) eqn:Hc.
  - rewrite splitSpaces_space by done. cbn [trimEnd].
    destruct (trimEnd r) as [|x xs] eqn:Hr.
    + rewrite Hc. change (replaceSpaces []) with (@nil N) in *.
      destruct (splitSpaces r) as [|w ws]; [by destruct (startsWithSpace r)|].
      symmetry in IH. apply app_eq_nil in IH as [-> Hws].
      destruct (startsWithSpace r); cbn [app]; [done|].
      by rewrite filter_cons_False by naive_solver.
    + destruct (trimEnd_head r x xs Hr) as [r' ->].
      rewrite replaceSpaces_space by done. cbn [startsWithSpace].
      destruct (isSpace x) eqn:Hx; [done|].
      destruct (splitSpaces_letter x r' Hx) as (w & ws & _ & Hsplit).
      rewrite Hsplit in IH |- *. cbn [app].
      rewrite filter_cons_True by done. by rewrite IH.
  - destruct (splitSpaces_letter c r Hc) as (w & ws & Hr & ->).
    rewrite Hr in IH.
    assert (trimEnd (c :: r) = c :: trimEnd r) as ->.
    { cbn [trimEnd]. destruct (trimEnd r); [by rewrite Hc|done]. }
    by rewrite replaceSpaces_letter, IH.
Qed.

(** The text [generateSpeech] works on is the words of the text it was
    given, one space between them. *)
Lemma trimmed_unwords text : trimmed text = unwords (words text).
Proof.
  unfold trimmed, trim. rewrite replaceSpaces_trimEnd, <- words_trimStart.
  destruct (trimStart_letter text) as [-> | (c & r & -> & Hc)]; [done|].
  unfold words. destruct (splitSpaces_letter c r Hc) as (w & ws & _ & ->).
  rewrite filter_cons_True by done. by rewrite unwords_cons.
Qed.

Lemma splitSpaces_word w : spaceFree w = true → splitSpaces w = [w].
Proof.
  induction w as [|c w IH]; [done|]. cbn. intros [Hc Hw]%andb_true_iff.
  apply negb_true_iff in Hc. rewrite Hc. by rewrite IH.
Qed.

Lemma splitSpaces_word_then w s :
  spaceFree w = true → startsWithSpace s = false →
  splitSpaces (w ++ SPACE :: s) = w :: splitSpaces s.
Proof.
  intros Hw Hs. induction w as [|c w IH].
  - cbn [app]. rewrite splitSpaces_space by done. by rewrite Hs.
  - cbn in Hw. apply andb_true_iff in Hw as [Hc Hw]. apply negb_true_iff in Hc.
    cbn [app splitSpaces]. rewrite Hc. by rewrite IH.
Qed.

Lemma splitSpaces_unwords ws :
  ws ≠ [] → Forall (λ w, w ≠ [] ∧ spaceFree w = true) ws →
  splitSpaces (unwords ws) = ws.
Proof.
  intros Hne Hws. induction Hws as [|w ws [Hw Hfree] Hws IH]; [done|].
  destruct ws as [|w' ws]; [by apply splitSpaces_word|].
  change (unwords (w :: w' :: ws)) with (w ++ SPACE :: unwords (w' :: ws)).
  rewrite splitSpaces_word_then; [by rewrite IH|done|].
  inversion_clear Hws as [|?? [Hw' Hfree'] _].
  rewrite unwords_cons. destruct w' as [|c w']; [done|].
  cbn in Hfree' |- *. apply andb_true_iff in Hfree' as [Hc _].
  by apply negb_true_iff in Hc.
Qed.

Lemma words_good s : Forall (λ w, w ≠ [] ∧ spaceFree w = true) (words s).
Proof.
  unfold words. apply Forall_forall. intros w [Hw Hin]%list_elem_of_filter.
  split; [done|]. by eapply (proj1 (Forall_forall _ _) (splitSpaces_spaceFree s)).
Qed.

Lemma chunkText_unfold input :
  chunkText input
  = if (length input <=? MAX_CHARS_PER_REQUEST)%nat then [input]
    else finish (foldl chunkStep ([], []) (splitSpaces input)).
Proof.
  unfold chunkText, finish.
  by destruct (foldl chunkStep ([], []) (splitSpaces input)).
Qed.

Lemma unwords_merge A x y C :
  unwords (A ++ (x ++ SPACE :: y) :: C) = unwords (A ++ x :: y :: C).
Proof.
  destruct A as [|a A]; cbn [app]; rewrite !unwords_cons.
  - cbn [flat_map]. by rewrite <- !app_assoc.
  - f_equal. rewrite !flat_map_app. f_equal. cbn [flat_map app].
    by rewrite <- app_assoc.
Qed.

(** The loop loses nothing: what it leaves, joined by spaces, is what it
    started from and the words it read, joined by spaces. *)
Lemma chunk_loop_joins ws : ∀ parts current,
  Forall (λ w, w ≠ []) ws →
  unwords (finish (foldl chunkStep (parts, current) ws))
  = unwords (parts ++ opt current ++ ws).
Proof.
  induction ws as [|w ws IH]; intros parts current Hws.
  - cbn [foldl]. unfold finish, opt. cbn [fst snd].
    destruct (truthyStr current); by rewrite ?app_nil_r.
  - inversion_clear Hws as [|?? Hw Hrest]. cbn [foldl].
    assert (Hopt : opt w = [w]) by (by destruct w).
    unfold chunkStep at 2. destruct current as [|c current]; cbn [truthyStr opt app].
    + destruct (MAX_CHARS_PER_REQUEST <? length w)%nat;
        by rewrite IH, Hopt.
    + destruct (MAX_CHARS_PER_REQUEST <? _)%nat; rewrite IH by done.
      * by rewrite Hopt, <- app_assoc.
      * change (opt (c :: current ++ SPACE :: w))
          with [(c :: current) ++ SPACE :: w].
        cbn [app]. apply (unwords_merge parts (c :: current) w ws).
Qed.

(** The loop keeps a property that holds of every word and of every
    candidate within the limit. *)
Lemma chunk_loop_keeps (P : jsstring → Prop) ws : ∀ parts current,
  (∀ x, (length x ≤ MAX_CHARS_PER_REQUEST)%nat → x ≠ [] → P x) →
  Forall (λ w, w ≠ [] → P w) ws →
  Forall P parts → (current ≠ [] → P current) →
  Forall P (finish (foldl chunkStep (parts, current) ws)).
Proof.
  intros parts current Hfit Hws. revert parts current.
  induction Hws as [|w ws Hw Hws IH]; intros parts current Hparts Hcurrent.
  - cbn [foldl]. unfold finish. cbn [fst snd].
    destruct current as [|c current]; [done|].
    apply Forall_app. split; [done|]. by repeat constructor; apply Hcurrent.
  - cbn [foldl]. unfold chunkStep at 2.
    destruct current as [|c current]; cbn [truthyStr].
    + destruct (MAX_CHARS_PER_REQUEST <? length w)%nat; by apply IH.
    + destruct (Nat.ltb_spec MAX_CHARS_PER_REQUEST
                  (length ((c :: current) ++ SPACE :: w))) as [Hlong|Hshort].
      * apply IH; [|done]. apply Forall_app. split; [done|].
        by repeat constructor; apply Hcurrent.
      * apply IH; [done|]. intros _. by apply Hfit.
Qed.

(** X26: No chunk is empty unless the input is, and a chunk is
    longer than [MAX_CHARS_PER_REQUEST] only when it is a single word of
    the input, a piece without white space, that is itself longer: the
    limit is kept for every text whose words fit it. *)
Theorem chunks_keep_the_limit_up_to_long_words input :
  Forall (λ chunk,
            (chunk = [] → input = [])
            ∧ ((length chunk ≤ MAX_CHARS_PER_REQUEST)%nat
               ∨ chunk ∈ splitSpaces input ∧ spaceFree chunk = true))
    (chunkText input).
Proof.
  rewrite chunkText_unfold.
  destruct (Nat.leb_spec (length input) MAX_CHARS_PER_REQUEST) as [Hshort|Hlong].
  { constructor; [split; [done|by left]|constructor]. }
  apply chunk_loop_keeps; try done.
  - intros x Hx Hne. split; [done|by left].
  - apply Forall_forall. intros w Hin Hne. split; [done|]. right. split; [done|].
    by apply (proj1 (Forall_forall _ _) (splitSpaces_spaceFree input)).
Qed.

(** X27: The chunks of the text [generateSpeech] works on,
    joined by single spaces, are that text: cutting drops nothing, adds
    nothing and keeps the order. *)
Theorem chunks_join_back_to_the_text text :
  unwords (chunkText (trimmed text)) = trimmed text.
Proof.
  rewrite chunkText_unfold.
  destruct (Nat.leb_spec (length (trimmed text)) MAX_CHARS_PER_REQUEST)
    as [Hshort|Hlong]; [done|].
  rewrite trimmed_unwords in Hlong |- *.
  pose proof (words_good text) as Hgood.
  destruct (words text) as [|w ws] eqn:Hwords; [cbn in Hlong; lia|].
  rewrite splitSpaces_unwords by done.
  rewrite chunk_loop_joins; [done|].
  eapply Forall_impl; [exact Hgood|]. by intros x [Hx _].
Qed.

(** *** Language and voice *)

Lemma inherited_is_long key : inherited key = true → length key ≠ 2%nat.
Proof.
  unfold inherited. intros Hin%bool_decide_eq_true. cbn in Hin.
  repeat (apply elem_of_cons in Hin as [->|Hin]; [done|]).
  by apply elem_of_nil in Hin.
Qed.

Lemma alias_has_two_letters key code :
  own LANGUAGE_ALIASES key = Some code → length (lit code) = 2%nat.
Proof.
  unfold LANGUAGE_ALIASES. cbn [own].
  repeat (case_bool_decide; [by intros [= <-]|]). done.
Qed.

Lemma voices_are_aliases key :
  own LANGUAGE_ALIASES key = None → own VOICE_PREFERENCES key = None.
Proof.
  unfold LANGUAGE_ALIASES, VOICE_PREFERENCES. cbn [own].
  repeat (case_bool_decide; [done|]). done.
Qed.

Lemma getProperty_Absent {A} (table : list (string * A)) key :
  getProperty table key = Absent ↔ own table key = None ∧ inherited key = false.
Proof.
  unfold getProperty. destruct (own table key), (inherited key);
    split; try done; by intros [? ?].
Qed.

Section Language.
Context `{Engine}.

Lemma normalizeLanguageWith_code rest lang code :
  (∀ t c, rest t = Code c → length c = 2%nat) →
  normalizeLanguageWith rest lang = Code code → length code = 2%nat.
Proof.
  intros Hrest. unfold normalizeLanguageWith.
  destruct lang as [lang|]; [|by intros [= <-]].
  destruct (truthyStr lang); cbn [negb]; [|by intros [= <-]].
  unfold getProperty.
  destruct (own LANGUAGE_ALIASES (toLowerCase (trim lang))) as [c|] eqn:Hc.
  { intros [= <-]. by eapply alias_has_two_letters. }
  destruct (inherited (toLowerCase (trim lang))); [done|].
  destruct (includes HYPHEN (toLowerCase (trim lang))); [|by apply Hrest].
  destruct (own LANGUAGE_ALIASES (beforeHyphen _)) as [c|] eqn:Hshort.
  { intros [= <-]. by eapply alias_has_two_letters. }
  destruct (inherited (beforeHyphen _)); [done|].
  destruct (Nat.eqb_spec (length (beforeHyphen (toLowerCase (trim lang)))) 2);
    [by intros [= <-]|by apply Hrest].
Qed.

Lemma resolveVoice_two_letters code :
  length code = 2%nat →
  resolveVoice (Code code) = Voice (default DEFAULT_VOICE (own VOICE_PREFERENCES code)).
Proof.
  intros Hlen. unfold resolveVoice, getProperty.
  destruct (own VOICE_PREFERENCES code); [done|].
  destruct (inherited code) eqn:Hin; [|done]. by apply inherited_is_long in Hin.
Qed.

(** X28: Whatever the language argument, both versions of [tts.js]
    hand the synthesiser a real voice, one of [VOICE_PREFERENCES] or
    [DEFAULT_VOICE]: [normalizeLanguage] can return a member of
    [Object.prototype] (for "constructor", say), but a code it returns has
    two characters, so [VOICE_PREFERENCES[...]] never picks up a member. *)
Theorem voice_is_always_a_voice lang :
  ∃ v1 v2,
    resolveVoice (normalizeLanguage_v1 lang) = Voice v1
    ∧ resolveVoice (normalizeLanguage lang) = Voice v2
    ∧ (∀ v, v = v1 ∨ v = v2 → v = DEFAULT_VOICE ∨ v ∈ VOICE_PREFERENCES.*2).
Proof.
  assert (Hvoice : ∀ l, (∀ c, l = Code c → length c = 2%nat) →
            ∃ v, resolveVoice l = Voice v
                 ∧ (v = DEFAULT_VOICE ∨ v ∈ VOICE_PREFERENCES.*2)).
  { intros [code| |] Hl; [|by eexists; split; [|left]..].
    rewrite resolveVoice_two_letters by auto. eexists. split; [done|].
    destruct (own VOICE_PREFERENCES code) as [v|] eqn:Hv; [|by left]. right.
    revert Hv. unfold VOICE_PREFERENCES. cbn [own default from_option id].
    repeat (case_bool_decide; [intros [= <-]; cbn; set_solver|]). done. }
  destruct (Hvoice (normalizeLanguage_v1 lang)) as (v1 & Hv1 & Hin1).
  { intros c. by apply normalizeLanguageWith_code. }
  destruct (Hvoice (normalizeLanguage lang)) as (v2 & Hv2 & Hin2).
  { intros c. apply normalizeLanguageWith_code. intros t c'.
    destruct (Nat.eqb_spec (length t) 2); by intros [= <-]. }
  exists v1, v2. split_and!; [done..|]. by intros v [-> | ->].
Qed.

(** X29: The last line added to [normalizeLanguage] changes the
    result only where the first version returns nothing, and the voice only
    for a language that is not recognised and not two characters long:
    the first version speaks it with [DEFAULT_VOICE], the second in
    Hindi. *)
Theorem second_version_differs_only_on_unrecognised_languages lang :
  (normalizeLanguage_v1 lang = Undefined
   ∨ normalizeLanguage lang = normalizeLanguage_v1 lang)
  ∧ (resolveVoice (normalizeLanguage lang) = resolveVoice (normalizeLanguage_v1 lang)
     ∨ normalizeLanguage_v1 lang = Undefined
       ∧ normalizeLanguage lang = Code (lit "hi")
       ∧ resolveVoice (normalizeLanguage_v1 lang) = Voice DEFAULT_VOICE
       ∧ resolveVoice (normalizeLanguage lang) = Voice (standardA "hi")).
Proof.
  unfold normalizeLanguage_v1, normalizeLanguage, normalizeLanguageWith.
  destruct lang as [lang|]; [|by split; [right|left]].
  destruct (truthyStr lang); cbn [negb]; [|by split; [right|left]].
  set (t := toLowerCase (trim lang)).
  assert (Hrest : getProperty LANGUAGE_ALIASES t = Absent →
    resolveVoice (if (length t =? 2)%nat then Code t else Code (lit "hi"))
      = resolveVoice Undefined
    ∨ (if (length t =? 2)%nat then Code t else Code (lit "hi")) = Code (lit "hi")
      ∧ resolveVoice Undefined = Voice DEFAULT_VOICE
      ∧ resolveVoice (if (length t =? 2)%nat then Code t else Code (lit "hi"))
        = Voice (standardA "hi")).
  { intros [Hown _]%getProperty_Absent.
    destruct (Nat.eqb_spec (length t) 2) as [Hlen|Hlen]; [left|by right].
    rewrite resolveVoice_two_letters by done.
    by rewrite (voices_are_aliases t Hown). }
  destruct (getProperty LANGUAGE_ALIASES t) eqn:Ht; [by split; [right|left]..|].
  destruct (includes HYPHEN t).
  - destruct (getProperty LANGUAGE_ALIASES (beforeHyphen t));
      [by split; [right|left]..|].
    destruct (length (beforeHyphen t) =? 2)%nat; [by split; [right|left]|].
    split; [by left|]. destruct Hrest as [?|(?&?&?)]; auto.
  - split; [by left|]. destruct Hrest as [?|(?&?&?)]; auto.
Qed.

End Language.

#[local] Existing Instance asciiEngine.

(** A text of 5999 characters is cut after the 750th word: 4499 characters
    and then 1499. *)
Example long_text_makes_two_chunks :
  Z.of_nat (length longText) = 5999
  ∧ Z.of_nat ∘ length <$> chunkText longText = [4499; 1499]
  ∧ unwords (chunkText longText) = longText.
Proof. by vm_compute. Qed.

(** A word longer than the limit goes out in one piece. *)
Example long_word_is_not_cut :
  chunkText (replicate 4501 0x61%N ++ lit " b")
  = [replicate 4501 0x61%N; lit "b"].
Proof. by vm_compute. Qed.

(** Tags as the two versions read them. *)
Example language_tags :
  normalizeLanguage (Some (lit " EN-us ")) = Code (lit "en")
  ∧ normalizeLanguage (Some (lit "ta-LK")) = Code (lit "ta")
  ∧ normalizeLanguage (Some (lit "fr")) = Code (lit "fr")
  ∧ normalizeLanguage_v1 (Some (lit "fr")) = Undefined
  ∧ normalizeLanguage (Some (lit "hindi")) = Code (lit "hi")
  ∧ normalizeLanguage_v1 (Some (lit "hindi")) = Undefined
  ∧ normalizeLanguage (Some (lit "constructor")) = Member (lit "constructor")
  ∧ resolveVoice (normalizeLanguage (Some (lit "constructor"))) = Voice DEFAULT_VOICE
  ∧ normalizeLanguage None = Code (lit "hi").
Proof. by vm_compute. Qed.

End TtsFacts.
